(** * rtk-for-opencode: the output-reduction pipeline, embedded in Rocq

    The development follows the TypeScript sources file by file:
    [Js] (the fragment of the JavaScript string and RegExp built-ins the
    filters rely on), [Truncate] (techniques/truncate.ts), [Ansi]
    (techniques/ansi.ts), [TestOutput] (techniques/test-output.ts), [Git]
    (techniques/git.ts), [Config] (config.ts), [Metrics] (metrics.ts) and
    [Plugin] (plugin.ts).  Definitions come first; the lemmas and theorems
    about them follow in the second half of the file. *)

From Stdlib Require Import List ZArith NArith Lia Bool String Ascii.
From Stdlib Require Import DecimalString Floats.
Import ListNotations.

Set Implicit Arguments.

(* ===================================================================== *)
(** * JavaScript strings                                                  *)
(* ===================================================================== *)

Module Js.

(** A JavaScript string is a sequence of UTF-16 code units; [length],
    [slice], [split] and regular expressions without the [u] flag all count
    code units. *)
Definition jsstring := list N.

(** ASCII literals of the sources. *)
Definition u (s : string) : jsstring :=
  map N_of_ascii (list_ascii_of_string s).

Definition LF : N := 10%N.
Definition ESC : N := 27%N.
Definition BEL : N := 7%N.

Definition str_eqb (a b : jsstring) : bool :=
  if list_eq_dec N.eq_dec a b then true else false.

(** [s === ''] for a string, [a.length === 0] for an array. *)
Definition isNil (A : Type) (l : list A) : bool :=
  match l with [] => true | _ :: _ => false end.

(** [s.slice(start, end)]: negative indices count from the end, both ends
    are clamped to the string. *)
Definition clampIndex (len i : Z) : Z :=
  if (i <? 0)%Z then Z.max (len + i) 0 else Z.min i len.

Definition slice (A : Type) (s : list A) (from to : Z) : list A :=
  let len := Z.of_nat (List.length s) in
  let a := clampIndex len from in
  let b := clampIndex len to in
  firstn (Z.to_nat (b - a)) (skipn (Z.to_nat a) s).

(** [s.slice(start)] *)
Definition sliceFrom (A : Type) (s : list A) (from : Z) : list A :=
  slice s from (Z.of_nat (List.length s)).

(** [s.startsWith(p)] *)
Fixpoint startsWith (s p : jsstring) {struct p} : bool :=
  match p with
  | [] => true
  | c :: p' =>
      match s with
      | [] => false
      | d :: s' => (c =? d)%N && startsWith s' p'
      end
  end.

(** [s.includes(p)] *)
Fixpoint includes (s p : jsstring) : bool :=
  startsWith s p ||
  match s with
  | [] => false
  | _ :: s' => includes s' p
  end.

(** [s.split('\n')]: always at least one piece. *)
Fixpoint splitLines (s : jsstring) : list jsstring :=
  match s with
  | [] => [[]]
  | c :: s' =>
      if (c =? LF)%N then [] :: splitLines s'
      else match splitLines s' with
           | [] => [[c]]
           | l :: ls => (c :: l) :: ls
           end
  end.

(** [lines.join('\n')] *)
Fixpoint joinLines (ls : list jsstring) : jsstring :=
  match ls with
  | [] => []
  | [l] => l
  | l :: ls' => l ++ LF :: joinLines ls'
  end.

(** WhiteSpace and LineTerminator code units: what [trim] removes and what
    [\s] matches. *)
Definition isSpace (c : N) : bool :=
  ((9 <=? c) && (c <=? 13) || (c =? 32) || (c =? 160) || (c =? 5760)
   || ((8192 <=? c) && (c <=? 8202)) || (c =? 8232) || (c =? 8233)
   || (c =? 8239) || (c =? 8287) || (c =? 12288) || (c =? 65279))%N.

Fixpoint trimStart (s : jsstring) : jsstring :=
  match s with
  | c :: s' => if isSpace c then trimStart s' else s
  | [] => []
  end.

Definition trim (s : jsstring) : jsstring :=
  rev (trimStart (rev (trimStart s))).

Definition isDigit (c : N) : bool := ((48 <=? c) && (c <=? 57))%N.
Definition isUpper (c : N) : bool := ((65 <=? c) && (c <=? 90))%N.
Definition isLower (c : N) : bool := ((97 <=? c) && (c <=? 122))%N.
Definition isLetter (c : N) : bool := isUpper c || isLower c.
(** [\w] *)
Definition isWord (c : N) : bool := isLetter c || isDigit c || (c =? 95)%N.

(** [s.toLowerCase()], code unit by code unit.  ASCII letters are folded;
    the only code units outside ASCII whose lower case contains an ASCII
    letter are U+0130 and U+212A, given here with U+212B; every other code
    unit outside ASCII is left as it is (its real lower case, when it has
    one, is again outside ASCII, so searches for ASCII needles agree). *)
Definition lowerUnit (c : N) : jsstring :=
  if isUpper c then [(c + 32)%N]
  else if (c =? 304)%N then [105; 775]%N
  else if (c =? 8490)%N then [107]%N
  else if (c =? 8491)%N then [229]%N
  else [c].

Definition toLowerCase (s : jsstring) : jsstring := flat_map lowerUnit s.

(** [String(n)] and template interpolation of an integer.  Counts are exact
    integers here; JavaScript agrees below 2^53. *)
Definition numToString (z : Z) : jsstring :=
  u (NilZero.string_of_int (Z.to_int z)).

(** [parseInt(s, 10)]: leading white space, an optional sign, then the
    longest run of decimal digits; [None] stands for NaN. *)
Fixpoint digitsValue (acc : Z) (seen : bool) (s : jsstring) : option Z :=
  match s with
  | c :: s' =>
      if isDigit c then digitsValue (10 * acc + (Z.of_N c - 48)) true s'
      else if seen then Some acc else None
  | [] => if seen then Some acc else None
  end.

Definition parseInt (s : jsstring) : option Z :=
  match trimStart s with
  | c :: s' =>
      if (c =? 45)%N then option_map Z.opp (digitsValue 0 false s')
      else if (c =? 43)%N then digitsValue 0 false s'
      else digitsValue 0 false (c :: s')
  | [] => None
  end.

(** A string without a line break. *)
Definition noLF (s : jsstring) : Prop := ~ In LF s.

End Js.

Import Js.

(* ===================================================================== *)
(** * JavaScript regular expressions                                      *)
(* ===================================================================== *)

Module RegExp.

(** The fragment of the pattern language the sources use.  A pattern is
    matched by backtracking, alternatives and quantifiers tried in the order
    ECMAScript prescribes (left alternative first, greedy quantifiers). *)
Inductive re : Type :=
| Eps                       (* the empty pattern *)
| Chr (c : N)               (* one literal code unit *)
| Cls (p : N -> bool)       (* a character class *)
| Seq (a b : re)            (* ab *)
| Alt (a b : re)            (* a|b *)
| Star (a : re)             (* a*  (greedy) *)
| Grp (i : nat) (a : re)    (* capture group number i *)
| Bol                       (* ^ (no m flag: start of input only) *)
| Wb.                       (* \b *)

Definition Plus (a : re) : re := Seq a (Star a).      (* a+ *)
Definition Opt (a : re) : re := Alt a Eps.            (* a? and (?:a)? *)

Fixpoint seqs (rs : list re) : re :=
  match rs with
  | [] => Eps
  | [r] => r
  | r :: rs' => Seq r (seqs rs')
  end.

(** A literal, and a literal under the [i] flag.  Without the [u] flag a
    code unit outside ASCII never matches an ASCII letter, so folding ASCII
    case is all the [i] flag does to the literals below. *)
Definition lit (s : string) : re := seqs (map Chr (u s)).

Definition foldCase (c : N) : N := if isUpper c then (c + 32)%N else c.
Definition ChrI (c : N) : re := Cls (fun x => (foldCase x =? foldCase c)%N).
Definition liti (s : string) : re := seqs (map ChrI (u s)).

Definition ws : re := Cls isSpace.                    (* \s *)
Definition digit : re := Cls isDigit.                 (* \d *)
Definition word : re := Cls isWord.                   (* \w *)

(** The matcher's state at a position of the input: the code unit just
    before it (for [^] and [\b]), the rest of the input, how many code
    units the match has consumed so far, and the captures made so far. *)
Record mstate : Type := MState {
  prev : option N;
  rest : jsstring;
  consumed : nat;
  caps : list (nat * jsstring)
}.

Definition isWordOpt (c : option N) : bool :=
  match c with Some x => isWord x | None => false end.

Definition atWordBoundary (st : mstate) : bool :=
  xorb (isWordOpt (prev st)) (isWordOpt (hd_error (rest st))).

Definition step1 (p : N -> bool) (st : mstate) : option mstate :=
  match rest st with
  | c :: s' =>
      if p c then Some (MState (Some c) s' (S (consumed st)) (caps st))
      else None
  | [] => None
  end.

Definition orElse (A : Type) (x y : option A) : option A :=
  match x with Some _ => x | None => y end.

(** [run r st k]: match [r] at [st], then continue with [k]; [None] makes
    the matcher backtrack into the last choice.  An iteration of [a*] that
    consumes nothing is rejected, so the rest of the input bounds the number
    of iterations. *)
Fixpoint run (A : Type) (r : re) (st : mstate) (k : mstate -> option A)
  {struct r} : option A :=
  match r with
  | Eps => k st
  | Chr c => match step1 (N.eqb c) st with Some st' => k st' | None => None end
  | Cls p => match step1 p st with Some st' => k st' | None => None end
  | Seq a b => run a st (fun st' => run b st' k)
  | Alt a b => orElse (run a st k) (run b st k)
  | Star a =>
      (fix iter (n : nat) (st : mstate) {struct n} : option A :=
         match n with
         | O => k st
         | S n' =>
             orElse
               (run a st (fun st' =>
                  if (consumed st <? consumed st')%nat then iter n' st'
                  else None))
               (k st)
         end) (List.length (rest st)) st
  | Grp i a =>
      run a st (fun st' =>
        k (MState (prev st') (rest st') (consumed st')
             ((i, firstn (consumed st' - consumed st) (rest st)) :: caps st')))
  | Bol => match prev st with None => k st | Some _ => None end
  | Wb => if atWordBoundary st then k st else None
  end.

(** The match object: [index], the length of [match[0]] and the groups. *)
Record MatchResult : Type := Match {
  index : nat;
  matchLength : nat;
  groups : list (nat * jsstring)
}.

(** [match[i]]: [None] is [undefined]. *)
Fixpoint group (gs : list (nat * jsstring)) (i : nat) : option jsstring :=
  match gs with
  | [] => None
  | (j, s) :: gs' => if (i =? j)%nat then Some s else group gs' i
  end.

(** A match that starts exactly at the given position. *)
Definition matchHere (r : re) (pv : option N) (s : jsstring)
  : option (nat * list (nat * jsstring)) :=
  run r (MState pv s 0 []) (fun st => Some (consumed st, caps st)).

(** The leftmost match at or after the current position. *)
Fixpoint search (r : re) (idx : nat) (pv : option N) (s : jsstring)
  : option MatchResult :=
  match matchHere r pv s with
  | Some (n, gs) => Some (Match idx n gs)
  | None =>
      match s with
      | [] => None
      | c :: s' => search r (S idx) (Some c) s'
      end
  end.

(** [s.match(r)] and [r.exec(s)] for a pattern without the [g] flag. *)
Definition exec (r : re) (s : jsstring) : option MatchResult :=
  search r 0 None s.

(** [r.test(s)] *)
Definition test (r : re) (s : jsstring) : bool :=
  match exec r s with Some _ => true | None => false end.

(** [s.replace(r, '')] for a pattern with the [g] flag: every match, found
    left to right and never overlapping, is deleted.  [skip] counts the code
    units of the current match still to be dropped. *)
Fixpoint deleteFrom (r : re) (skip : nat) (pv : option N) (s : jsstring)
  : jsstring :=
  match s with
  | [] => []
  | c :: s' =>
      match skip with
      | S n => deleteFrom r n (Some c) s'
      | O =>
          match matchHere r pv s with
          | Some (S n, _) => deleteFrom r n (Some c) s'
          | _ => c :: deleteFrom r 0 (Some c) s'
          end
      end
  end.

Definition deleteAll (r : re) (s : jsstring) : jsstring :=
  deleteFrom r 0 None s.

(** The loop of [a*], as [run] has it. *)
Definition starLoop (A : Type) (a : re) (k : mstate -> option A)
  : nat -> mstate -> option A :=
  fix iter (n : nat) (st : mstate) {struct n} : option A :=
    match n with
    | O => k st
    | S n' =>
        orElse
          (run a st (fun st' =>
             if (consumed st <? consumed st')%nat then iter n' st'
             else None))
          (k st)
    end.

(** [a] is [b] with some code units deleted. *)
Inductive Subseq : jsstring -> jsstring -> Prop :=
| Subseq_nil : Subseq [] []
| Subseq_keep (c : N) (a b : jsstring) : Subseq a b -> Subseq (c :: a) (c :: b)
| Subseq_drop (c : N) (a b : jsstring) : Subseq a b -> Subseq a (c :: b).

(** The code unit before the position reached after reading [a]. *)
Definition prevAfter (pv : option N) (a : jsstring) : option N :=
  fold_left (fun _ c => Some c) a pv.

End RegExp.

Import RegExp.

(* ===================================================================== *)
(** * techniques/ansi.ts                                                  *)
(* ===================================================================== *)

Module Ansi.

Definition isParam (c : N) : bool := isDigit c || (c =? 59)%N.   (* [0-9;] *)
Definition notBelEsc (c : N) : bool :=
  negb ((c =? BEL)%N || (c =? ESC)%N).                          (* [^\x07\x1b] *)

(** [(?:\x07|\x1b\\)] *)
Definition stringTerminator : re := Alt (Chr BEL) (Seq (Chr ESC) (Chr 92)).

(** [/\x1b\[[0-9;]*[a-zA-Z]/g] *)
Definition csi : re :=
  Seq (Chr ESC) (Seq (Chr 91) (Seq (Star (Cls isParam)) (Cls isLetter))).

(** [/\x1b\][0-9;]*(?:\x07|\x1b\\)/g] *)
Definition oscParams : re :=
  Seq (Chr ESC) (Seq (Chr 93) (Seq (Star (Cls isParam)) stringTerminator)).

(** [/\x1b\][^\x07\x1b]*(?:\x07|\x1b\\)/g] *)
Definition oscAny : re :=
  Seq (Chr ESC) (Seq (Chr 93) (Seq (Star (Cls notBelEsc)) stringTerminator)).

Definition stripAnsi (text : jsstring) : jsstring :=
  deleteAll oscAny (deleteAll oscParams (deleteAll csi text)).

Definition stripAnsiFast (text : jsstring) : jsstring :=
  if negb (includes text [ESC]) then text else stripAnsi text.

(** Text with CSI sequences in it: each segment is a piece of text followed
    by the sequence ESC [ params final; [plain] is the text alone. *)
Definition segment : Type := (jsstring * (jsstring * N))%type.

Fixpoint colored (segs : list segment) (tail : jsstring) : jsstring :=
  match segs with
  | [] => tail
  | (text, (params, final)) :: segs' =>
      text ++ ESC :: 91%N :: params ++ final :: colored segs' tail
  end.

Fixpoint plain (segs : list segment) (tail : jsstring) : jsstring :=
  match segs with
  | [] => tail
  | (text, _) :: segs' => text ++ plain segs' tail
  end.

(** No escape character of the text opens a sequence: none is followed by
    [[] or by []], the second code unit of each of the three patterns. *)
Fixpoint noSequence (t : jsstring) : bool :=
  match t with
  | [] => true
  | c :: t' =>
      negb ((c =? ESC)%N
            && match t' with
               | d :: _ => (d =? 91)%N || (d =? 93)%N
               | [] => false
               end)
      && noSequence t'
  end.

(** The text holds no escape character of its own, and every sequence is a
    complete CSI sequence: parameters in [0-9;], then a letter. *)
Definition wellFormed (seg : segment) : Prop :=
  ~ In ESC (fst seg)
  /\ forallb isParam (fst (snd seg)) = true
  /\ isLetter (snd (snd seg)) = true.

End Ansi.

(* ===================================================================== *)
(** * techniques/truncate.ts                                              *)
(* ===================================================================== *)

Module Truncate.

(** The fixed pieces of the omission marker. *)
Definition markerHead : jsstring := LF :: u "... [truncated: ".
Definition markerTail : jsstring := u " chars omitted]".

(** [truncate(text, maxChars)]; [maxChars] is an integer budget. *)
Definition truncate (text : jsstring) (maxChars : Z) : jsstring :=
  if (Z.of_nat (List.length text) <=? maxChars)%Z then text
  else if (maxChars <? 3)%Z then u "..."
  else
    let truncated := slice text 0 (maxChars - 3) in
    let omitted := (Z.of_nat (List.length text) - (maxChars - 3))%Z in
    truncated ++ markerHead ++ numToString omitted ++ markerTail.

End Truncate.

(* ===================================================================== *)
(** * techniques/test-output.ts                                           *)
(* ===================================================================== *)

Module TestOutput.

Record TestSummary : Type := Summary {
  passed : Z;
  failed : Z;
  skipped : Z;
  failures : list jsstring
}.

(** [Partial<TestSummary>] as [extractTestStats] fills it: a field that was
    never assigned is [None]. *)
Record PartialSummary : Type := Partial {
  p_passed : option Z;
  p_failed : option Z;
  p_skipped : option Z
}.

Definition TEST_COMMANDS : list jsstring :=
  map u ["test"; "jest"; "vitest"; "pytest"; "cargo test"; "bun test";
         "go test"; "mocha"; "ava"; "tap"]%string.

(** [(\d+)\s*<label>], the shape shared by the count templates. *)
Definition count (i : nat) (label : string) : re :=
  seqs [Grp i (Plus digit); Star ws; liti label].

(** [/test result:\s*(\w+)\.\s*(\d+)\s*passed;\s*(\d+)\s*failed;/] *)
Definition rustResult : re :=
  seqs [lit "test result:"; Star ws; Grp 1 (Plus word); Chr 46; Star ws;
        Grp 2 (Plus digit); Star ws; lit "passed;"; Star ws;
        Grp 3 (Plus digit); Star ws; lit "failed;"].

(** [/(\d+)\s*passed(?:,\s*(\d+)\s*failed)?(?:,\s*(\d+)\s*skipped)?/i] *)
Definition genericResult : re :=
  seqs [count 1 "passed";
        Opt (seqs [Chr 44; Star ws; count 2 "failed"]);
        Opt (seqs [Chr 44; Star ws; count 3 "skipped"])].

(** [/(\d+)\s*pass(?:,\s*(\d+)\s*fail)?(?:,\s*(\d+)\s*skip)?/i] *)
Definition bunResult : re :=
  seqs [count 1 "pass";
        Opt (seqs [Chr 44; Star ws; count 2 "fail"]);
        Opt (seqs [Chr 44; Star ws; count 3 "skip"])].

(** [/tests?:\s*(\d+)\s*passed(?:,\s*(\d+)\s*failed)?(?:,\s*(\d+)\s*skipped)?/i] *)
Definition jestResult : re :=
  seqs [liti "test"; Opt (ChrI 115); Chr 58; Star ws; count 1 "passed";
        Opt (seqs [Chr 44; Star ws; count 2 "failed"]);
        Opt (seqs [Chr 44; Star ws; count 3 "skipped"])].

Definition TEST_RESULT_PATTERNS : list re :=
  [rustResult; genericResult; bunResult; jestResult].

Definition FAILURE_START_PATTERNS : list re :=
  [ seqs [Bol; lit "FAIL"; Plus ws];                        (* /^FAIL\s+/ *)
    seqs [Bol; lit "FAILED"; Plus ws];                      (* /^FAILED\s+/ *)
    seqs [Bol; Star ws; Chr 9679; Plus ws];                 (* /^\s*U+25CF\s+/ *)
    seqs [Bol; Star ws; Chr 10005; Plus ws];                (* /^\s*U+2715\s+/ *)
    (* /test\s+\w+\s+\.\.\.\s*FAILED/ *)
    seqs [lit "test"; Plus ws; Plus word; Plus ws; lit "..."; Star ws;
          lit "FAILED"];
    (* /thread\s+'\w+'\s+panicked/ *)
    seqs [lit "thread"; Plus ws; Chr 39; Plus word; Chr 39; Plus ws;
          lit "panicked"] ].

(** [/\b(ok|PASS|U+2713|U+2714)\b/] and [/\b(FAIL|fail|U+2717|U+2715)\b/] *)
Definition passMarker : re :=
  seqs [Wb; Grp 1 (Alt (lit "ok") (Alt (lit "PASS")
                   (Alt (Chr 10003) (Chr 10004)))); Wb].
Definition failMarker : re :=
  seqs [Wb; Grp 1 (Alt (lit "FAIL") (Alt (lit "fail")
                   (Alt (Chr 10007) (Chr 10005)))); Wb].

Definition startsWithSpace : re := Seq Bol ws.              (* /^\s/ *)
Definition startsWithDash : re := Seq Bol (Chr 45).         (* /^-/ *)

Definition isTestCommand (command : jsstring) : bool :=
  let cmdLower := toLowerCase command in
  existsb (fun tc => includes cmdLower (toLowerCase tc)) TEST_COMMANDS.

Definition isFailureStart (line : jsstring) : bool :=
  existsb (fun pattern => test pattern line) FAILURE_START_PATTERNS.

(** [x || 0] on a number: NaN and 0 both give 0. *)
Definition orZero (x : option Z) : Z :=
  match x with Some z => z | None => 0%Z end.

(** [parseInt(match[i], 10) || 0]; [parseInt(undefined)] is NaN. *)
Definition parseGroup (m : MatchResult) (i : nat) : Z :=
  match group (groups m) i with
  | Some s => orZero (parseInt s)
  | None => 0%Z
  end.

Fixpoint firstMatch (patterns : list re) (output : jsstring)
  : option MatchResult :=
  match patterns with
  | [] => None
  | pattern :: patterns' =>
      match exec pattern output with
      | Some m => Some m
      | None => firstMatch patterns' output
      end
  end.

Definition extractTestStats (output : jsstring) : PartialSummary :=
  match firstMatch TEST_RESULT_PATTERNS output with
  | Some m =>
      Partial (Some (parseGroup m 1)) (Some (parseGroup m 2))
              (Some (parseGroup m 3))
  | None => Partial None None None
  end.

(** The fallback count over the lines. *)
Definition countMarkers (lines : list jsstring) (pf : Z * Z) : Z * Z :=
  fold_left
    (fun (acc : Z * Z) line =>
       let (p, f) := acc in
       ((if test passMarker line then p + 1 else p)%Z,
        (if test failMarker line then f + 1 else f)%Z))
    lines pf.

(** The loop that collects failure blocks: its variables, and one turn of
    it. *)
Record scan : Type := Scan {
  inFailure : bool;
  currentFailure : list jsstring;
  blankCount : nat;
  collected : list jsstring
}.

Definition scanLine (s : scan) (line : jsstring) : scan :=
  if isFailureStart line then
    Scan true [line] 0
      (if inFailure s && negb (isNil (currentFailure s))
       then collected s ++ [joinLines (currentFailure s)]
       else collected s)
  else if inFailure s then
    if isNil (trim line) then
      let blank := S (blankCount s) in
      if (2 <=? blank)%nat && (3 <? List.length (currentFailure s))%nat then
        Scan false [] blank (collected s ++ [joinLines (currentFailure s)])
      else
        Scan true (currentFailure s ++ [line]) blank (collected s)
    else if test startsWithSpace line || test startsWithDash line then
      Scan true (currentFailure s ++ [line]) 0 (collected s)
    else
      Scan false [] (blankCount s)
        (collected s ++ [joinLines (currentFailure s)])
  else s.

Definition extractFailures (lines : list jsstring) : list jsstring :=
  let s := fold_left scanLine lines (Scan false [] 0 []) in
  if inFailure s && negb (isNil (currentFailure s))
  then collected s ++ [joinLines (currentFailure s)]
  else collected s.

(** The text pieces of the report. *)
Definition header : jsstring := [55357; 56523]%N ++ u " Test Results:".
Definition passedLine (n : Z) : jsstring :=
  u "   " ++ [9989]%N ++ u " " ++ numToString n ++ u " passed".
Definition failedLine (n : Z) : jsstring :=
  u "   " ++ [10060]%N ++ u " " ++ numToString n ++ u " failed".
Definition skippedLine (n : Z) : jsstring :=
  u "   " ++ [9197; 65039]%N ++ u "  " ++ numToString n ++ u " skipped".
Definition failuresHeading : jsstring := LF :: u "   Failures:".

Definition ellipsisIfLonger (n : nat) (s : jsstring) : jsstring :=
  if (n <? List.length s)%nat then u "..." else [].

Definition renderFailure (failure : jsstring) : list jsstring :=
  let lines := splitLines failure in
  let firstLine := nth 0 lines [] in
  [u "   " ++ [8226]%N ++ u " " ++ slice firstLine 0 70
     ++ ellipsisIfLonger 70 firstLine]
  ++ flat_map
       (fun line =>
          if isNil (trim line) then []
          else [u "     " ++ slice line 0 65 ++ ellipsisIfLonger 65 line])
       (slice lines 1 4)
  ++ (if (4 <? List.length lines)%nat
      then [u "     ... (" ++ numToString (Z.of_nat (List.length lines) - 4)
              ++ u " more lines)"]
      else []).

Definition renderSummary (summary : TestSummary) : list jsstring :=
  [header; passedLine (passed summary)]
  ++ (if (0 <? failed summary)%Z then [failedLine (failed summary)] else [])
  ++ (if (0 <? skipped summary)%Z then [skippedLine (skipped summary)] else [])
  ++ (if (0 <? failed summary)%Z && negb (isNil (failures summary)) then
        [failuresHeading]
        ++ flat_map renderFailure (slice (failures summary) 0 5)
        ++ (if (5 <? List.length (failures summary))%nat
            then [u "   ... and "
                    ++ numToString
                         (Z.of_nat (List.length (failures summary)) - 5)
                    ++ u " more failures"]
            else [])
      else []).

(** The summary as it stands before the report is built. *)
Definition summarize (output : jsstring) : TestSummary :=
  let lines := splitLines output in
  let stats := extractTestStats output in
  let p0 := orZero (p_passed stats) in
  let f0 := orZero (p_failed stats) in
  let s0 := orZero (p_skipped stats) in
  let (p, f) :=
    if (p0 =? 0)%Z && (f0 =? 0)%Z then countMarkers lines (p0, f0)
    else (p0, f0) in
  Summary p f s0 (if (0 <? f)%Z then extractFailures lines else []).

(** [aggregateTestOutput(output, command)]; [None] is [null]. *)
Definition aggregateTestOutput (output command : jsstring)
  : option jsstring :=
  if negb (isTestCommand command) then None
  else Some (joinLines (renderSummary (summarize output))).

(** A summary line as cargo prints it, and the lines that follow it in the
    example of the test suite. *)
Definition cargoLine : jsstring :=
  u "test result: FAILED. 5 passed; 2 failed; 0 ignored".

Definition cargoReport : jsstring :=
  [LF; LF] ++ u "FAIL test-one" ++ LF :: u "  expect(received).toBe(expected)"
  ++ LF :: u "  " ++ LF :: u "FAIL test-two" ++ LF :: u "  assertion failed".

(** ** Vocabulary of the properties *)

(** A failure block of [lines]: lines that follow one another in the
    output, of which none but the first starts a failure. *)
Definition failureBlock (lines block : list jsstring) : Prop :=
  block <> []
  /\ (exists pre post, lines = pre ++ block ++ post)
  /\ Forall (fun line => isFailureStart line = false) (tl block).

(** The block the loop is still filling, if any. *)
Definition pending (s : scan) : list (list jsstring) :=
  if inFailure s then [currentFailure s] else [].

(** What the loop has established after reading [seen]: the blocks pushed
    so far and the pending one begin, in order, with the lines of [seen]
    that start a failure, and the pending block ends where [seen] ends. *)
Definition collecting (seen : list jsstring) (s : scan) : Prop :=
  exists blocks,
    collected s = map joinLines blocks
    /\ map (hd []) (blocks ++ pending s) = filter isFailureStart seen
    /\ Forall (failureBlock seen) blocks
    /\ (inFailure s = true ->
        currentFailure s <> []
        /\ (exists pre, seen = pre ++ currentFailure s)
        /\ Forall (fun line => isFailureStart line = false)
             (tl (currentFailure s))).

Local Open Scope Z_scope.

(** The lines of the report: the entries of [renderSummary], the heading
    of the failures (which begins with a newline) counted as two. *)
Definition reportLines (summary : TestSummary) : list jsstring :=
  [header; passedLine (passed summary)]
  ++ (if 0 <? failed summary then [failedLine (failed summary)] else [])
  ++ (if 0 <? skipped summary then [skippedLine (skipped summary)] else [])
  ++ (if (0 <? failed summary) && negb (isNil (failures summary)) then
        [[]; u "   Failures:"]
        ++ flat_map renderFailure (slice (failures summary) 0 5)
        ++ (if (5 <? List.length (failures summary))%nat
            then [u "   ... and "
                    ++ numToString
                         (Z.of_nat (List.length (failures summary)) - 5)
                    ++ u " more failures"]
            else [])
      else []).
End TestOutput.

(* ===================================================================== *)
(** * techniques/source.ts: language detection                            *)
(* ===================================================================== *)

Module Source.

Definition LANGUAGE_EXTENSIONS : list (jsstring * jsstring) :=
  [ (u ".ts", u "typescript"); (u ".tsx", u "typescript");
    (u ".js", u "javascript"); (u ".jsx", u "javascript");
    (u ".mjs", u "javascript"); (u ".py", u "python");
    (u ".pyw", u "python"); (u ".rs", u "rust"); (u ".go", u "go");
    (u ".java", u "java"); (u ".c", u "c"); (u ".h", u "c");
    (u ".cpp", u "cpp"); (u ".hpp", u "cpp"); (u ".cc", u "cpp") ].

(** [s.lastIndexOf(c)] for a single code unit: -1 when [c] is absent.  [i]
    is the index of the head of [s], [found] the last index seen. *)
Fixpoint lastIndexFrom (c : N) (s : jsstring) (i found : Z) : Z :=
  match s with
  | [] => found
  | d :: s' => lastIndexFrom c s' (i + 1) (if (d =? c)%N then i else found)
  end.

Definition lastIndexOf (s : jsstring) (c : N) : Z :=
  lastIndexFrom c s 0 (-1).

(** [LANGUAGE_EXTENSIONS[ext]]; [None] is [undefined].  (The keys the
    function looks up begin with a dot or have at most one code unit, so
    no inherited property of the object is ever hit.) *)
Fixpoint lookup (table : list (jsstring * jsstring)) (key : jsstring)
  : option jsstring :=
  match table with
  | [] => None
  | (k, v) :: table' => if str_eqb k key then Some v else lookup table' key
  end.

Definition languageOf (ext : jsstring) : jsstring :=
  match lookup LANGUAGE_EXTENSIONS ext with
  | Some language => language
  | None => u "unknown"
  end.

Definition detectLanguage (filePath : jsstring) : jsstring :=
  let ext := toLowerCase (sliceFrom filePath (lastIndexOf filePath 46)) in
  languageOf ext.

End Source.

(* ===================================================================== *)
(** * techniques/build.ts                                                 *)
(* ===================================================================== *)

Module Build.

Record BuildStats : Type := Stats {
  compiled : Z;
  errors : list (list jsstring);
  warnings : list jsstring
}.

Definition BUILD_COMMANDS : list jsstring :=
  map u ["cargo build"; "cargo check"; "bun build"; "npm run build";
         "yarn build"; "pnpm build"; "tsc"; "make"; "cmake"; "gradle";
         "mvn"; "go build"; "go install"; "python setup.py build";
         "pip install"]%string.

(** [/^\s*<word>\s+/] *)
Definition progress (w : string) : re := seqs [Bol; Star ws; lit w; Plus ws].

Definition SKIP_PATTERNS : list re :=
  map progress
    ["Compiling"; "Checking"; "Downloading"; "Downloaded"; "Fetching";
     "Fetched"; "Updating"; "Updated"; "Building"; "Generated"; "Creating";
     "Running"]%string.

Definition ERROR_START_PATTERNS : list re :=
  [ Seq Bol (lit "error[");        (* /^error\[/ *)
    Seq Bol (lit "error:");        (* /^error:/ *)
    Seq Bol (lit "[ERROR]");       (* /^\[ERROR\]/ *)
    Seq Bol (lit "FAIL") ].        (* /^FAIL/ *)

Definition WARNING_PATTERNS : list re :=
  [ Seq Bol (lit "warning:");      (* /^warning:/ *)
    Seq Bol (lit "[WARNING]");     (* /^\[WARNING\]/ *)
    Seq Bol (lit "warn:") ].       (* /^warn:/ *)

(** [/^\s*(Compiling|Checking|Building)\s+/] *)
Definition compiling : re :=
  seqs [Bol; Star ws;
        Grp 1 (Alt (lit "Compiling") (Alt (lit "Checking") (lit "Building")));
        Plus ws].

Definition indented : re := Seq Bol ws.            (* /^\s/ *)
Definition location : re := Seq Bol (lit "-->").   (* /^-->/ *)

Definition isSkipLine (line : jsstring) : bool :=
  existsb (fun pattern => test pattern line) SKIP_PATTERNS.

Definition isErrorStart (line : jsstring) : bool :=
  existsb (fun pattern => test pattern line) ERROR_START_PATTERNS.

Definition isWarning (line : jsstring) : bool :=
  existsb (fun pattern => test pattern line) WARNING_PATTERNS.

Definition isBuildCommand (command : jsstring) : bool :=
  let cmdLower := toLowerCase command in
  existsb (fun bc => includes cmdLower (toLowerCase bc)) BUILD_COMMANDS.

(** The variables of the loop. *)
Record scan : Type := Scan {
  stats : BuildStats;
  inErrorBlock : bool;
  currentError : list jsstring;
  blankCount : nat
}.

Definition pushError (s : BuildStats) (e : list jsstring) : BuildStats :=
  Stats (compiled s) (errors s ++ [e]) (warnings s).

Definition scanLine (s : scan) (line : jsstring) : scan :=
  if test compiling line then
    Scan (Stats (compiled (stats s) + 1) (errors (stats s))
            (warnings (stats s)))
         (inErrorBlock s) (currentError s) (blankCount s)
  else if isSkipLine line then s
  else if isErrorStart line then
    Scan (if inErrorBlock s && negb (isNil (currentError s))
          then pushError (stats s) (currentError s)
          else stats s)
         true [line] 0
  else if isWarning line then
    Scan (Stats (compiled (stats s)) (errors (stats s))
            (warnings (stats s) ++ [line]))
         (inErrorBlock s) (currentError s) (blankCount s)
  else if inErrorBlock s then
    if isNil (trim line) then
      let blank := S (blankCount s) in
      if (2 <=? blank)%nat && (3 <? List.length (currentError s))%nat then
        Scan (pushError (stats s) (currentError s)) false [] blank
      else
        Scan (stats s) true (currentError s ++ [line]) blank
    else if test indented line || test location line then
      Scan (stats s) true (currentError s ++ [line]) 0
    else
      Scan (pushError (stats s) (currentError s)) false [] (blankCount s)
  else s.

Definition collect (lines : list jsstring) : BuildStats :=
  let s := fold_left scanLine lines (Scan (Stats 0 [] []) false [] 0) in
  if inErrorBlock s && negb (isNil (currentError s))
  then pushError (stats s) (currentError s)
  else stats s.

Definition success (n : Z) : jsstring :=
  [10003]%N ++ u " Build successful (" ++ numToString n
  ++ u " units compiled)".

Definition renderError (error : list jsstring) : list jsstring :=
  slice error 0 10
  ++ (if (10 <? List.length error)%nat then [u "  ..."] else []).

Definition report (s : BuildStats) : list jsstring :=
  (if (0 <? List.length (errors s))%nat then
     [[10060]%N ++ u " " ++ numToString (Z.of_nat (List.length (errors s)))
        ++ u " error(s):"]
     ++ flat_map renderError (slice (errors s) 0 5)
     ++ (if (5 <? List.length (errors s))%nat
         then [u "... and "
                 ++ numToString (Z.of_nat (List.length (errors s)) - 5)
                 ++ u " more errors"]
         else [])
   else [])
  ++ (if (0 <? List.length (warnings s))%nat
      then [LF :: [9888; 65039]%N ++ u "  "
              ++ numToString (Z.of_nat (List.length (warnings s)))
              ++ u " warning(s)"]
      else []).

(** [filterBuildOutput(output, command)]; [None] is [null]. *)
Definition filterBuildOutput (output command : jsstring) : option jsstring :=
  if negb (isBuildCommand command) then None
  else
    let s := collect (splitLines output) in
    if isNil (errors s) && isNil (warnings s) then Some (success (compiled s))
    else Some (joinLines (report s)).

(** ** Vocabulary of the properties *)

Local Open Scope Z_scope.

(** A line that reaches the error test: neither counted as progress nor
    skipped as noise. *)
Definition reachesTests (line : jsstring) : bool :=
  negb (test compiling line) && negb (isSkipLine line).

Definition startsError (line : jsstring) : bool :=
  reachesTests line && isErrorStart line.

Definition countsAsWarning (line : jsstring) : bool :=
  reachesTests line && negb (isErrorStart line) && isWarning line.

Definition count (p : jsstring -> bool) (lines : list jsstring) : Z :=
  Z.of_nat (List.length (filter p lines)).

(** What the loop has established after reading [lines]. *)
Definition scanned (lines : list jsstring) (s : scan) : Prop :=
  compiled (stats s) = count (test compiling) lines
  /\ Z.of_nat (List.length (errors (stats s)))
     + (if inErrorBlock s then 1 else 0)
     = count startsError lines
  /\ Z.of_nat (List.length (warnings (stats s)))
     = count countsAsWarning lines
  /\ (inErrorBlock s = true -> currentError s <> []).
End Build.

(* ===================================================================== *)
(** * techniques/git.ts                                                   *)
(* ===================================================================== *)

Module Git.

Record StatusStats : Type := Stats {
  staged : Z;
  modified : Z;
  untracked : Z;
  conflicts : Z;
  stagedFiles : list jsstring;
  modifiedFiles : list jsstring;
  untrackedFiles : list jsstring
}.

Definition emptyStats : StatusStats := Stats 0 0 0 0 [] [] [].

(** [['M', 'A', 'D', 'R', 'C'].includes(c)] and [['M', 'D'].includes(c)];
    [c] is [status[0]] or [status[1]], [None] when the index is out of
    range. *)
Definition isStagedCode (c : option N) : bool :=
  match c with
  | Some x => existsb (N.eqb x) [77; 65; 68; 82; 67]%N
  | None => false
  end.

Definition isModifiedCode (c : option N) : bool :=
  match c with
  | Some x => existsb (N.eqb x) [77; 68]%N
  | None => false
  end.

Definition isU (c : option N) : bool :=
  match c with Some x => (x =? 85)%N | None => false end.

(** What one porcelain line ([XY filename]) adds to the counters. *)
Definition classify (stats : StatusStats) (line : jsstring) : StatusStats :=
  let status := slice line 0 2 in
  let filename := sliceFrom line 3 in
  if str_eqb status (u "??") then
    Stats (staged stats) (modified stats) (untracked stats + 1)
          (conflicts stats) (stagedFiles stats) (modifiedFiles stats)
          (untrackedFiles stats ++ [filename])
  else
    let indexStatus := nth_error status 0 in
    let worktreeStatus := nth_error status 1 in
    let s1 :=
      if isStagedCode indexStatus then
        Stats (staged stats + 1) (modified stats) (untracked stats)
              (conflicts stats) (stagedFiles stats ++ [filename])
              (modifiedFiles stats) (untrackedFiles stats)
      else stats in
    let s2 :=
      if isU indexStatus then
        Stats (staged s1) (modified s1) (untracked s1) (conflicts s1 + 1)
              (stagedFiles s1) (modifiedFiles s1) (untrackedFiles s1)
      else s1 in
    if isModifiedCode worktreeStatus then
      Stats (staged s2) (modified s2 + 1) (untracked s2) (conflicts s2)
            (stagedFiles s2) (modifiedFiles s2 ++ [filename])
            (untrackedFiles s2)
    else s2.

(** The loop over the lines, [i] being the index of the head of [lines];
    the state is the branch name and the counters. *)
Fixpoint scanStatus (i : nat) (lines : list jsstring)
  (acc : jsstring * StatusStats) : jsstring * StatusStats :=
  match lines with
  | [] => acc
  | line :: lines' =>
      let (branchName, stats) := acc in
      if (i =? 0)%nat && startsWith line (u "On branch ") then
        scanStatus (S i) lines' (sliceFrom line 10, stats)
      else if isNil line || (List.length line <? 3)%nat then
        scanStatus (S i) lines' acc
      else
        scanStatus (S i) lines' (branchName, classify stats line)
  end.

Definition bucket (title : jsstring) (n : Z) (files : list jsstring)
  (shown : nat) : list jsstring :=
  if (0 <? n)%Z then
    [title ++ numToString n ++ u " files"]
    ++ map (fun file => u "  " ++ file) (slice files 0 (Z.of_nat shown))
    ++ (if (shown <? List.length files)%nat
        then [u "  ... +"
                ++ numToString (Z.of_nat (List.length files) - Z.of_nat shown)
                ++ u " more"]
        else [])
  else [].

Definition cleanTree : jsstring := u "Clean working tree".

Definition renderStatus (branchName : jsstring) (stats : StatusStats)
  : list jsstring :=
  (if isNil branchName then [] else [[55357; 56524]%N ++ u " " ++ branchName])
  ++ bucket ([9989]%N ++ u " Staged: ") (staged stats) (stagedFiles stats) 5
  ++ bucket ([55357; 56541]%N ++ u " Modified: ") (modified stats)
       (modifiedFiles stats) 5
  ++ bucket ([10067]%N ++ u " Untracked: ") (untracked stats)
       (untrackedFiles stats) 3
  ++ (if (0 <? conflicts stats)%Z
      then [[9888; 65039]%N ++ u "  Conflicts: "
              ++ numToString (conflicts stats) ++ u " files"]
      else []).

Definition compactStatus (output : jsstring) : jsstring :=
  let lines := splitLines output in
  if (List.length lines =? 0)%nat
     || ((List.length lines =? 1)%nat && isNil (trim (nth 0 lines [])))
  then cleanTree
  else
    let (branchName, stats) := scanStatus 0 lines ([], emptyStats) in
    let text := joinLines (renderStatus branchName stats) in
    if isNil text then cleanTree else text.

Definition GIT_COMMANDS : list jsstring :=
  map u ["git diff"; "git status"; "git log"; "git show"; "git stash"]%string.

Definition isGitCommand (command : jsstring) : bool :=
  let cmdLower := toLowerCase command in
  existsb (fun gc => startsWith cmdLower gc) GIT_COMMANDS.

(** [compactLog(output, limit)] *)
Definition logLine (line : jsstring) : jsstring :=
  if (80 <? List.length line)%nat then slice line 0 77 ++ u "..." else line.

Definition compactLog (output : jsstring) (limit : Z) : jsstring :=
  let lines := splitLines output in
  let len := Z.of_nat (List.length lines) in
  joinLines
    (map logLine (firstn (Z.to_nat (Z.min len limit)) lines)
     ++ (if (limit <? len)%Z
         then [u "... +" ++ numToString (len - limit) ++ u " more commits"]
         else [])).

(** [.]: any code unit but a line terminator. *)
Definition anyChar : re :=
  Cls (fun c => negb ((c =? 10) || (c =? 13) || (c =? 8232) || (c =? 8233))%N).

(** [/diff --git a\/(.+) b\/(.+)/] and [/@@ .+ @@/] *)
Definition diffHeader : re :=
  seqs [lit "diff --git a/"; Grp 1 (Plus anyChar); lit " b/";
        Grp 2 (Plus anyChar)].
Definition hunkHeader : re := seqs [lit "@@ "; Plus anyChar; lit " @@"].

(** [match[0]] *)
Definition matched (m : MatchResult) (s : jsstring) : jsstring :=
  firstn (matchLength m) (skipn (index m) s).

(** The variables of the loop of [compactDiff]; [stopped] records that the
    loop was left by [break]. *)
Record diff : Type := Diff {
  d_result : list jsstring;
  currentFile : jsstring;
  added : Z;
  removed : Z;
  inHunk : bool;
  hunkLines : Z;
  stopped : bool
}.

Definition maxHunkLines : Z := 10.

Definition fileStats (d : diff) : list jsstring :=
  if negb (isNil (currentFile d)) && ((0 <? added d) || (0 <? removed d))%Z
  then [u "  +" ++ numToString (added d) ++ u " -" ++ numToString (removed d)]
  else [].

(** A line inside a hunk. *)
Definition hunkContent (d : diff) (line : jsstring) : diff :=
  let d1 :=
    if startsWith line (u "+") && negb (startsWith line (u "+++")) then
      if (hunkLines d <? maxHunkLines)%Z then
        Diff (d_result d ++ [u "  " ++ line]) (currentFile d) (added d + 1)
             (removed d) (inHunk d) (hunkLines d + 1) (stopped d)
      else
        Diff (d_result d) (currentFile d) (added d + 1) (removed d)
             (inHunk d) (hunkLines d) (stopped d)
    else if startsWith line (u "-") && negb (startsWith line (u "---")) then
      if (hunkLines d <? maxHunkLines)%Z then
        Diff (d_result d ++ [u "  " ++ line]) (currentFile d) (added d)
             (removed d + 1) (inHunk d) (hunkLines d + 1) (stopped d)
      else
        Diff (d_result d) (currentFile d) (added d) (removed d + 1)
             (inHunk d) (hunkLines d) (stopped d)
    else if (hunkLines d <? maxHunkLines)%Z
            && negb (startsWith line [92]%N) then
      if (0 <? hunkLines d)%Z then
        Diff (d_result d ++ [u "  " ++ line]) (currentFile d) (added d)
             (removed d) (inHunk d) (hunkLines d + 1) (stopped d)
      else d
    else d in
  if (hunkLines d1 =? maxHunkLines)%Z then
    Diff (d_result d1 ++ [u "  ... (truncated)"]) (currentFile d1) (added d1)
         (removed d1) (inHunk d1) (hunkLines d1 + 1) (stopped d1)
  else d1.

(** One turn of the loop. *)
Definition diffLine (maxLines : Z) (d : diff) (line : jsstring) : diff :=
  if stopped d then d
  else if (maxLines <=? Z.of_nat (List.length (d_result d)))%Z then
    Diff (d_result d ++ [LF :: u "... (more changes truncated)"])
         (currentFile d) (added d) (removed d) (inHunk d) (hunkLines d) true
  else if startsWith line (u "diff --git") then
    let file :=
      match exec diffHeader line with
      | Some m =>
          match group (groups m) 2 with Some f => f | None => [] end
      | None => u "unknown"
      end in
    Diff (d_result d ++ fileStats d
          ++ [LF :: [55357; 56516]%N ++ u " " ++ file])
         file 0 0 false (hunkLines d) false
  else if startsWith line (u "@@") then
    let hunkInfo :=
      match exec hunkHeader line with
      | Some m => matched m line
      | None => u "@@"
      end in
    Diff (d_result d ++ [u "  " ++ hunkInfo]) (currentFile d) (added d)
         (removed d) true 0 false
  else if inHunk d then hunkContent d line
  else d.

Definition diffStart : diff := Diff [] [] 0 0 false 0 false.

(** The array [result] at the end of [compactDiff]. *)
Definition diffEntries (output : jsstring) (maxLines : Z) : list jsstring :=
  let d := fold_left (diffLine maxLines) (splitLines output) diffStart in
  d_result d ++ fileStats d.

Definition compactDiff (output : jsstring) (maxLines : Z) : jsstring :=
  joinLines (diffEntries output maxLines).

(** [compactGitOutput(output, command)], with the default arguments of
    [compactDiff] and [compactLog]. *)
Definition compactGitOutput (output command : jsstring) : option jsstring :=
  if negb (isGitCommand command) then None
  else
    let cmdLower := toLowerCase command in
    if includes cmdLower (u "diff") then Some (compactDiff output 50)
    else if includes cmdLower (u "status") then Some (compactStatus output)
    else if includes cmdLower (u "log") then Some (compactLog output 20)
    else None.

(** The increment of a counter: 1 when the condition holds. *)
Definition bump (b : bool) : Z := if b then 1%Z else 0%Z.

(** ** Vocabulary of the properties *)

Local Open Scope Z_scope.

(** The loop's invariant: the array stays within the cap, with room for
    the two entries one turn may add and for the note left at [break]. *)
Definition withinCap (maxLines : Z) (d : diff) : Prop :=
  Z.of_nat (List.length (d_result d))
  <= maxLines + (if stopped d then 2 else 1).

Definition filesNoLF (s : StatusStats) : Prop :=
  Forall noLF (stagedFiles s) /\ Forall noLF (modifiedFiles s)
  /\ Forall noLF (untrackedFiles s).
End Git.

(* ===================================================================== *)
(** * config.ts                                                           *)
(* ===================================================================== *)

Module Config.

Inductive FilterLevel : Type := none | minimal | aggressive.

Definition isLevel (a b : FilterLevel) : bool :=
  match a, b with
  | none, none | minimal, minimal | aggressive, aggressive => true
  | _, _ => false
  end.

(** A JavaScript number as far as [mergeConfig] looks at it: a finite
    value, here an exact fraction, NaN, or an infinity. *)
Inductive JsNumber : Type :=
| Finite (num : Z) (den : positive)
| NaN
| Infinity (negative : bool).

Definition ofZ (z : Z) : JsNumber := Finite z 1.

(** [Number.isInteger(x)] *)
Definition isInteger (x : JsNumber) : bool :=
  match x with
  | Finite n d => (n mod Zpos d =? 0)%Z
  | _ => false
  end.

(** The value of an integer-valued number. *)
Definition integerValue (x : JsNumber) : Z :=
  match x with
  | Finite n d => (n / Zpos d)%Z
  | _ => 0%Z
  end.

(** A value as [JSON.parse] may leave it in a field. *)
Inductive JsValue : Type :=
| JsUndefined
| JsNull
| JsBool (b : bool)
| JsNum (x : JsNumber)
| JsStr (s : jsstring)
| JsObject.

Record Truncation : Type := MkTruncation {
  t_enabled : bool;
  maxChars : Z
}.

Record SmartTruncation : Type := MkSmartTruncation {
  st_enabled : bool;
  maxLines : Z
}.

Record Techniques : Type := MkTechniques {
  ansiStripping : bool;
  truncation : Truncation;
  sourceCodeFiltering : FilterLevel;
  smartTruncation : SmartTruncation;
  testOutputAggregation : bool;
  buildOutputFiltering : bool;
  gitCompaction : bool;
  searchResultGrouping : bool;
  linterAggregation : bool
}.

Record RtkConfig : Type := MkConfig {
  enabled : bool;
  logSavings : bool;
  showUpdateEvery : JsNumber;
  techniques : Techniques
}.

(** The override: every key may be absent ([None]). *)
Record TruncationOverride : Type := MkTruncationOverride {
  o_t_enabled : option bool;
  o_maxChars : option Z
}.

Record SmartTruncationOverride : Type := MkSmartTruncationOverride {
  o_st_enabled : option bool;
  o_maxLines : option Z
}.

Record TechniquesOverride : Type := MkTechniquesOverride {
  o_ansiStripping : option bool;
  o_truncation : option TruncationOverride;
  o_sourceCodeFiltering : option FilterLevel;
  o_smartTruncation : option SmartTruncationOverride;
  o_testOutputAggregation : option bool;
  o_buildOutputFiltering : option bool;
  o_gitCompaction : option bool;
  o_searchResultGrouping : option bool;
  o_linterAggregation : option bool
}.

Record ConfigOverride : Type := MkOverride {
  o_enabled : option bool;
  o_logSavings : option bool;
  o_showUpdateEvery : JsValue;
  o_techniques : option TechniquesOverride
}.

Definition DEFAULT_CONFIG : RtkConfig :=
  MkConfig true true (ofZ 10)
    (MkTechniques true (MkTruncation true 10000) minimal
       (MkSmartTruncation true 200) true true true true true).

(** One key of an object spread [{ ...base, ...override }]. *)
Definition spread (A : Type) (base : A) (override : option A) : A :=
  match override with Some v => v | None => base end.

(** [override.techniques || {}] and the like. *)
Definition noTechniques : TechniquesOverride :=
  MkTechniquesOverride None None None None None None None None None.
Definition noTruncation : TruncationOverride := MkTruncationOverride None None.
Definition noSmartTruncation : SmartTruncationOverride :=
  MkSmartTruncationOverride None None.

Definition normalizeShowUpdateEvery (base : JsNumber) (raw : JsValue)
  : JsNumber :=
  match raw with
  | JsNum x =>
      if isInteger x then ofZ (Z.max 0 (integerValue x)) else base
  | _ => base
  end.

Definition mergeConfig (base : RtkConfig) (override : ConfigOverride)
  : RtkConfig :=
  let showUpdateEvery' :=
    normalizeShowUpdateEvery (showUpdateEvery base)
      (o_showUpdateEvery override) in
  let ot := spread noTechniques (o_techniques override) in
  let otr := spread noTruncation (o_truncation ot) in
  let ost := spread noSmartTruncation (o_smartTruncation ot) in
  let bt := techniques base in
  MkConfig
    (spread (enabled base) (o_enabled override))
    (spread (logSavings base) (o_logSavings override))
    showUpdateEvery'
    (MkTechniques
       (spread (ansiStripping bt) (o_ansiStripping ot))
       (MkTruncation
          (spread (t_enabled (truncation bt)) (o_t_enabled otr))
          (spread (maxChars (truncation bt)) (o_maxChars otr)))
       (spread (sourceCodeFiltering bt) (o_sourceCodeFiltering ot))
       (MkSmartTruncation
          (spread (st_enabled (smartTruncation bt)) (o_st_enabled ost))
          (spread (maxLines (smartTruncation bt)) (o_maxLines ost)))
       (spread (testOutputAggregation bt) (o_testOutputAggregation ot))
       (spread (buildOutputFiltering bt) (o_buildOutputFiltering ot))
       (spread (gitCompaction bt) (o_gitCompaction ot))
       (spread (searchResultGrouping bt) (o_searchResultGrouping ot))
       (spread (linterAggregation bt) (o_linterAggregation ot))).

(** The override [{ techniques: { truncation: { maxChars: 5000 } } }]. *)
Definition onlyMaxChars : ConfigOverride :=
  MkOverride None None JsUndefined
    (Some (MkTechniquesOverride None
             (Some (MkTruncationOverride None (Some 5000%Z)))
             None None None None None None None)).

(** The sub-objects an override supplies, [{}] when it has none. *)
Definition truncationOf (override : ConfigOverride) : TruncationOverride :=
  spread noTruncation
    (o_truncation (spread noTechniques (o_techniques override))).

Definition smartTruncationOf (override : ConfigOverride)
  : SmartTruncationOverride :=
  spread noSmartTruncation
    (o_smartTruncation (spread noTechniques (o_techniques override))).

(** The override [{}]. *)
Definition emptyOverride : ConfigOverride :=
  MkOverride None None JsUndefined None.

(** [loadConfig(directory)].  Reading and parsing the file is the host's
    part: [parsed] is the value [JSON.parse] returned, [None] when
    [readFile] or [JSON.parse] threw (whatever the error, the [catch]
    returns the defaults). *)
Definition loadConfig (parsed : option ConfigOverride) : RtkConfig :=
  match parsed with
  | Some override => mergeConfig DEFAULT_CONFIG override
  | None => DEFAULT_CONFIG
  end.

(** A cadence the idle hook can divide by: an integer that is not
    negative. *)
Definition safeCadence (x : JsNumber) : Prop :=
  exists z : Z, x = ofZ z /\ (0 <= z)%Z.

End Config.

(* ===================================================================== *)
(** * metrics.ts                                                          *)
(* ===================================================================== *)

Module Metrics.

Local Open Scope float_scope.

(** Numbers are IEEE 754 binary64 values, as in JavaScript; the arithmetic
    below is the rounding arithmetic of the language. *)
Definition two52 : float := 4503599627370496.

(** [Math.floor] *)
Definition floorNonneg (x : float) : float :=
  let r := (x + two52) - two52 in if x <? r then r - 1 else r.
Definition ceilNonneg (x : float) : float :=
  let r := (x + two52) - two52 in if r <? x then r + 1 else r.
Definition floor (x : float) : float :=
  if two52 <=? abs x then x
  else if x <? 0 then - ceilNonneg (- x)
  else if 0 <=? x then floorNonneg x
  else x.

(** [Math.round]: the nearest integer, a tie going up. *)
Definition round (x : float) : float :=
  let f := floor x in if 0.5 <=? x - f then f + 1 else f.

Definition calculateSavings (originalChars filteredChars : float) : float :=
  if originalChars =? 0 then 0
  else
    let savings := ((originalChars - filteredChars) / originalChars) * 100 in
    round (savings * 100) / 100.

(** The formula of the specification in exact arithmetic, in hundredths:
    [100 * (original - filtered) / original] rounded to two decimals, a tie
    going up as [Math.round] does.  (Only used to compare with.) *)
Definition exactHundredths (original filtered : Z) : Z :=
  if (original =? 0)%Z then 0%Z
  else ((2 * (10000 * (original - filtered)) + original) / (2 * original))%Z.

(** A character count as a number. *)
Definition ofCount (n : Z) : float :=
  if (n <? 0)%Z then - of_uint63 (Uint63.of_Z (- n))
  else of_uint63 (Uint63.of_Z n).

Record MetricRecord : Type := Metric {
  timestamp : jsstring;
  sessionId : jsstring;
  tool : jsstring;
  technique : jsstring;
  originalChars : nat;
  filteredChars : nat;
  savingsPercent : float
}.

End Metrics.

(* ===================================================================== *)
(** * plugin.ts                                                           *)
(* ===================================================================== *)

Module Plugin.

Import Config Metrics.
Local Open Scope float_scope.

(** A call either returns or throws; [Throw] carries the error message. *)
Inductive Exc (A : Type) : Type :=
| Ok (a : A)
| Throw (message : jsstring).
Arguments Throw {A} message.

(** The filters the orchestrator calls.  The orchestrator guards every one
    of them with the same [try], so each is taken as a function that may
    throw. *)
Record Filters : Type := MkFilters {
  stripAnsiFast : jsstring -> Exc jsstring;
  filterBuildOutput : jsstring -> jsstring -> Exc (option jsstring);
  aggregateTestOutput : jsstring -> jsstring -> Exc (option jsstring);
  aggregateLinterOutput : jsstring -> jsstring -> Exc (option jsstring);
  compactGitOutput : jsstring -> jsstring -> Exc (option jsstring);
  groupSearchResults : jsstring -> Exc (option jsstring);
  detectLanguage : jsstring -> Exc jsstring;
  filterMinimal : jsstring -> jsstring -> Exc jsstring;
  filterAggressive : jsstring -> jsstring -> Exc jsstring;
  smartTruncate : jsstring -> Z -> Exc jsstring;
  truncate : jsstring -> Z -> Exc jsstring
}.

(** The stages, and the record of one call of a stage. *)
Inductive Stage : Type :=
| AnsiStage | BuildStage | TestStage | LinterStage | GitStage | SearchStage
| DetectStage | MinimalStage | AggressiveStage | SmartStage | TruncateStage.

Record Call : Type := MkCall {
  stage : Stage;
  threw : bool
}.

Definition isThrow (A : Type) (r : Exc A) : bool :=
  match r with Ok _ => false | Throw _ => true end.

(** The body of the [try]: a computation that returns or throws, and that
    extends the list of the stage calls made so far. *)
Definition M (A : Type) : Type := list Call -> Exc A * list Call.

Definition ret (A : Type) (a : A) : M A := fun calls => (Ok a, calls).

Definition bind (A B : Type) (m : M A) (k : A -> M B) : M B :=
  fun calls =>
    match m calls with
    | (Ok a, calls') => k a calls'
    | (Throw e, calls') => (Throw e, calls')
    end.

Definition call (A : Type) (s : Stage) (r : Exc A) : M A :=
  fun calls => (r, calls ++ [MkCall s (isThrow r)]).

Notation "x <- m ;; k" := (bind m (fun x => k))
  (at level 61, m at next level, right associativity).

(** The hook's input: the tool name, [args.command], [args.filePath] (each
    [None] when absent) and the two spellings of the session identifier
    ([None] when not a string). *)
Record Input : Type := MkInput {
  toolName : jsstring;
  command : option jsstring;
  filePath : option jsstring;
  sessionID : option jsstring;
  sessionId : option jsstring
}.

Definition nonEmpty (v : option jsstring) : option jsstring :=
  match v with
  | Some s => if isNil s then None else Some s
  | None => None
  end.

Definition resolveSessionID (input : Input) : option jsstring :=
  match nonEmpty (sessionID input) with
  | Some s => Some s
  | None => nonEmpty (sessionId input)
  end.

(** [technique ? `${technique},name` : 'name'] *)
Definition chain (technique : option jsstring) (name : string)
  : option jsstring :=
  match nonEmpty technique with
  | Some t => Some (t ++ u "," ++ u name)
  | None => Some (u name)
  end.

(** The pair of the local variables [result] and [technique]. *)
Definition Text : Type := (jsstring * option jsstring)%type.

(** A command filter: its result is taken when it is not [null] and differs
    from the current text. *)
Definition commandStage (s : Stage) (name : string) (enabled : bool)
  (filter : jsstring -> Exc (option jsstring)) (st : Text) : M Text :=
  if enabled then
    filtered <- call s (filter (fst st)) ;;
    ret (match filtered with
         | Some f =>
             if negb (str_eqb f (fst st)) then (f, chain (snd st) name)
             else st
         | None => st
         end)
  else ret st.

(** A source filter: its result is taken when it differs. *)
Definition sourceStage (s : Stage) (name : string)
  (filter : jsstring -> Exc jsstring) (st : Text) : M Text :=
  filtered <- call s (filter (fst st)) ;;
  ret (if negb (str_eqb filtered (fst st)) then (filtered, chain (snd st) name)
       else st).

Definition phase1 (fs : Filters) (config : RtkConfig) (st : Text) : M Text :=
  if ansiStripping (techniques config) then
    sourceStage AnsiStage "ansi-stripping" (stripAnsiFast fs) st
  else ret st.

Definition phase2 (fs : Filters) (config : RtkConfig) (input : Input)
  (st : Text) : M Text :=
  match nonEmpty (command input) with
  | Some cmd =>
      if str_eqb (toolName input) (u "bash") then
        let t := techniques config in
        st <- commandStage BuildStage "build-filter" (buildOutputFiltering t)
                (fun r => filterBuildOutput fs r cmd) st ;;
        st <- commandStage TestStage "test-aggregate"
                (testOutputAggregation t)
                (fun r => aggregateTestOutput fs r cmd) st ;;
        st <- commandStage LinterStage "linter-aggregate"
                (linterAggregation t)
                (fun r => aggregateLinterOutput fs r cmd) st ;;
        st <- commandStage GitStage "git-compact" (gitCompaction t)
                (fun r => compactGitOutput fs r cmd) st ;;
        commandStage SearchStage "search-group" (searchResultGrouping t)
          (fun r => groupSearchResults fs r) st
      else ret st
  | None => ret st
  end.

Definition phase3 (fs : Filters) (config : RtkConfig) (input : Input)
  (st : Text) : M Text :=
  match nonEmpty (filePath input) with
  | Some path =>
      if str_eqb (toolName input) (u "read") then
        language <- call DetectStage (detectLanguage fs path) ;;
        let t := techniques config in
        let level := sourceCodeFiltering t in
        if negb (str_eqb language (u "unknown")) && negb (isLevel level none)
        then
          st <- (if isLevel level minimal then
                   sourceStage MinimalStage "source-minimal"
                     (fun r => filterMinimal fs r language) st
                 else if isLevel level aggressive then
                   sourceStage AggressiveStage "source-aggressive"
                     (fun r => filterAggressive fs r language) st
                 else ret st) ;;
          if st_enabled (smartTruncation t) then
            let lines := splitLines (fst st) in
            if (maxLines (smartTruncation t) <? Z.of_nat (List.length lines))%Z
            then
              r <- call SmartStage
                     (smartTruncate fs (fst st) (maxLines (smartTruncation t))) ;;
              ret (r, chain (snd st) "smart-truncate")
            else ret st
          else ret st
        else ret st
      else ret st
  | None => ret st
  end.

Definition hardTruncation (fs : Filters) (config : RtkConfig) (st : Text)
  : M Text :=
  let t := truncation (techniques config) in
  if t_enabled t && (maxChars t <? Z.of_nat (List.length (fst st)))%Z then
    r <- call TruncateStage (truncate fs (fst st) (maxChars t)) ;;
    ret (r, chain (snd st) "truncate")
  else ret st.

(** The filter stages of the [try] body, in order. *)
Definition runFilters (fs : Filters) (config : RtkConfig) (input : Input)
  (original : jsstring) : M Text :=
  st <- phase1 fs config (original, None) ;;
  st <- phase2 fs config input st ;;
  st <- phase3 fs config input st ;;
  hardTruncation fs config st.

Inductive LogEntry : Type :=
| SavingsInfo (technique : jsstring) (savingsPercent : float)
    (originalChars filteredChars : nat)
| FilterWarning (toolName message : jsstring).

(** The host calls awaited inside the [try] once the text has changed:
    [client.app.log] with the savings line, and [appendMetric], which makes
    the directory and appends the line to the metrics file.  Each may
    reject. *)
Record Host : Type := MkHost {
  appLog : LogEntry -> Exc unit;
  appendMetric : MetricRecord -> Exc unit
}.

(** What the hook can change: [output.output] ([None] when it is not a
    string), the plugin's [sessionMetrics], the lines appended to the
    metrics file, the messages passed to [client.app.log] (whether or not
    the host accepts them), and the stage calls made. *)
Record World : Type := MkWorld {
  output : option jsstring;
  sessionMetrics : list MetricRecord;
  metricsFile : list MetricRecord;
  logged : list LogEntry;
  calls : list Call
}.

(** [recordAndLog]: the record is pushed to [sessionMetrics] first; the
    savings line and the write to the metrics file follow, and either of
    them may reject, which ends the function there. *)
Definition recordAndLog (host : Host) (config : RtkConfig) (now : jsstring)
  (original filtered tool technique sessionId : jsstring) (w : World)
  : Exc unit * World :=
  let originalChars := List.length original in
  let filteredChars := List.length filtered in
  let o := ofCount (Z.of_nat originalChars) in
  let f := ofCount (Z.of_nat filteredChars) in
  let savingsPercent :=
    if 0 <? o then round (((o - f) / o) * 100 * 100) / 100 else 0 in
  let record :=
    Metric now sessionId tool technique originalChars filteredChars
      savingsPercent in
  let entry :=
    SavingsInfo technique savingsPercent originalChars filteredChars in
  let pushed :=
    MkWorld (output w) (sessionMetrics w ++ [record]) (metricsFile w)
      (logged w) (calls w) in
  let (sent, w1) :=
    if logSavings config && (0 <? savingsPercent)
    then (appLog host entry,
          MkWorld (output pushed) (sessionMetrics pushed)
            (metricsFile pushed) (logged pushed ++ [entry]) (calls pushed))
    else (Ok tt, pushed) in
  match sent with
  | Throw message => (Throw message, w1)
  | Ok _ =>
      match appendMetric host record with
      | Throw message => (Throw message, w1)
      | Ok _ =>
          (Ok tt,
           MkWorld (output w1) (sessionMetrics w1)
             (metricsFile w1 ++ [record]) (logged w1) (calls w1))
      end
  end.

(** The [catch] of the hook: the warning passed to [client.app.log]. *)
Definition warn (input : Input) (message : jsstring) (w : World) : World :=
  MkWorld (output w) (sessionMetrics w) (metricsFile w)
    (logged w ++ [FilterWarning (toolName input) message]) (calls w).

(** The ['tool.execute.after'] hook; [now] is the clock reading used for
    the record's timestamp. *)
Definition toolExecuteAfter (fs : Filters) (host : Host)
  (config : RtkConfig) (now : jsstring) (input : Input) (w : World)
  : World :=
  match nonEmpty (output w) with
  | None => w
  | Some original =>
      match runFilters fs config input original (calls w) with
      | (Ok (result, technique), calls') =>
          let w' := MkWorld (output w) (sessionMetrics w) (metricsFile w)
                      (logged w) calls' in
          if negb (str_eqb result original) then
            match resolveSessionID input with
            | None => w'
            | Some session =>
                match
                  recordAndLog host config now original result
                    (toolName input)
                    (match nonEmpty technique with
                     | Some t => t
                     | None => u "unknown"
                     end)
                    session
                    (MkWorld (Some result) (sessionMetrics w)
                       (metricsFile w) (logged w) calls')
                with
                | (Ok _, w2) => w2
                | (Throw message, w2) => warn input message w2
                end
            end
          else w'
      | (Throw message, calls') =>
          warn input message
            (MkWorld (output w) (sessionMetrics w) (metricsFile w)
               (logged w) calls')
      end
  end.

(** The filters of this development put in the orchestrator's slots: ANSI
    stripping, the build, test and git filters, language detection and
    truncation.  The linter and search filters and the three source
    filters are not embedded; their slots hold "not applicable" and the
    identity, which is what the linter filter returns for a command that
    names no linter and the search filter for a text under 50 characters. *)
Definition embeddedFilters : Filters :=
  MkFilters
    (fun t => Ok (Ansi.stripAnsiFast t))
    (fun o c => Ok (Build.filterBuildOutput o c))
    (fun o c => Ok (TestOutput.aggregateTestOutput o c))
    (fun _ _ => Ok None)
    (fun o c => Ok (Git.compactGitOutput o c))
    (fun _ => Ok None)
    (fun path => Ok (Source.detectLanguage path))
    (fun t _ => Ok t)
    (fun t _ => Ok t)
    (fun t _ => Ok t)
    (fun t n => Ok (Truncate.truncate t n)).

(** A host that accepts every call, and one whose metrics file cannot be
    written. *)
Definition reliableHost : Host :=
  MkHost (fun _ => Ok tt) (fun _ => Ok tt).

Definition readOnlyHost : Host :=
  MkHost (fun _ => Ok tt) (fun _ => Throw (u "EACCES: permission denied")).

(** The same filters with a build filter that throws. *)
Definition faultyBuild : Filters :=
  MkFilters
    (stripAnsiFast embeddedFilters)
    (fun _ _ => Throw (u "boom"))
    (aggregateTestOutput embeddedFilters)
    (aggregateLinterOutput embeddedFilters)
    (compactGitOutput embeddedFilters)
    (groupSearchResults embeddedFilters)
    (detectLanguage embeddedFilters)
    (filterMinimal embeddedFilters)
    (filterAggressive embeddedFilters)
    (smartTruncate embeddedFilters)
    (truncate embeddedFilters).

(** A run used as an example: a bash command whose output is over a
    budget of ten characters. *)
Definition shortBudget : RtkConfig :=
  mergeConfig DEFAULT_CONFIG
    (MkOverride None None JsUndefined
       (Some (MkTechniquesOverride None
                (Some (MkTruncationOverride None (Some 10%Z)))
                None None None None None None None))).

Definition makeInput : Input :=
  MkInput (u "bash") (Some (u "make all")) None (Some (u "ses_a")) None.

Definition longOutput : jsstring := u "hello world, this is long".

Definition before : World := MkWorld (Some longOutput) [] [] [] [].

Definition isStage (a b : Stage) : bool :=
  match a, b with
  | AnsiStage, AnsiStage | BuildStage, BuildStage | TestStage, TestStage
  | LinterStage, LinterStage | GitStage, GitStage
  | SearchStage, SearchStage | DetectStage, DetectStage
  | MinimalStage, MinimalStage | AggressiveStage, AggressiveStage
  | SmartStage, SmartStage | TruncateStage, TruncateStage => true
  | _, _ => false
  end.

(** Whether stage [s] was called. *)
Definition ran (s : Stage) (l : list Call) : bool :=
  existsb (fun c => isStage (stage c) s) l.

(** The idle turns of the sessions, [Map<string, number>]: keys in the
    order of their first [set]. *)
Definition TurnCounts : Type := list (jsstring * Z).

Fixpoint mapGet (m : TurnCounts) (key : jsstring) : option Z :=
  match m with
  | [] => None
  | (k, v) :: m' => if str_eqb k key then Some v else mapGet m' key
  end.

Fixpoint mapSet (m : TurnCounts) (key : jsstring) (value : Z) : TurnCounts :=
  match m with
  | [] => [(key, value)]
  | (k, v) :: m' =>
      if str_eqb k key then (k, value) :: m'
      else (k, v) :: mapSet m' key value
  end.

(** [idleTurnCounts.get(sessionID) || 0] *)
Definition turnsOf (counts : TurnCounts) (session : jsstring) : Z :=
  match mapGet counts session with
  | Some n => n
  | None => 0%Z
  end.

(** What the idle and command hooks send to the host: the session summary
    to the log, the toast to the terminal; each carries the records its
    message is formatted from. *)
Inductive Notice : Type :=
| SummaryLogged (records : list MetricRecord)
| ToastShown (records : list MetricRecord).

(** [resolveSessionID] on the two fields alone, as the idle hook calls it
    on the event's properties. *)
Definition resolveSession (sessionID sessionId : option jsstring)
  : option jsstring :=
  match nonEmpty sessionID with
  | Some s => Some s
  | None => nonEmpty sessionId
  end.

(** [sessionMetrics.filter((record) => record.sessionId === sessionID)] *)
Definition recordsOf (metrics : list MetricRecord) (session : jsstring)
  : list MetricRecord :=
  filter (fun record => str_eqb (Metrics.sessionId record) session) metrics.

(** [config.showUpdateEvery > 0 && turns % config.showUpdateEvery === 0].
    The remainder of two binary64 numbers is exact, so for a finite
    cadence [n/d] the test is whether [turns * d] is a multiple of [n]. *)
Definition isDue (every : JsNumber) (turns : Z) : bool :=
  match every with
  | Finite n d => (0 <? n)%Z && ((turns * Zpos d) mod n =? 0)%Z
  | NaN => false
  | Infinity negative => negb negative && (turns =? 0)%Z
  end.

(** The [event] hook: the new idle counts and what was sent to the host. *)
Definition onEvent (config : RtkConfig) (metrics : list MetricRecord)
  (eventType : jsstring) (sessionID sessionId : option jsstring)
  (counts : TurnCounts) : TurnCounts * list Notice :=
  if negb (str_eqb eventType (u "session.idle")) then (counts, [])
  else
    match resolveSession sessionID sessionId with
    | None => (counts, [])
    | Some session =>
        let sessionRecords := recordsOf metrics session in
        if isNil sessionRecords then (counts, [])
        else
          let turns := (turnsOf counts session + 1)%Z in
          (mapSet counts session turns,
           (if logSavings config then [SummaryLogged sessionRecords] else [])
           ++ (if isDue (showUpdateEvery config) turns
               then [ToastShown sessionRecords]
               else []))
    end.

(** [k] idle events in a row for one session. *)
Fixpoint idleTurns (config : RtkConfig) (metrics : list MetricRecord)
  (session : jsstring) (k : nat) (counts : TurnCounts)
  : TurnCounts * list Notice :=
  match k with
  | O => (counts, [])
  | S k' =>
      let (counts1, sent1) :=
        onEvent config metrics (u "session.idle") (Some session) None
          counts in
      let (counts2, sent2) := idleTurns config metrics session k' counts1 in
      (counts2, sent1 ++ sent2)
  end.

Definition isToast (n : Notice) : bool :=
  match n with ToastShown _ => true | SummaryLogged _ => false end.

(** The stages a tool may reach. *)
Definition commonStage (s : Stage) : bool :=
  isStage s AnsiStage || isStage s TruncateStage.

Definition commandFilterStage (s : Stage) : bool :=
  isStage s BuildStage || isStage s TestStage || isStage s LinterStage
  || isStage s GitStage || isStage s SearchStage.

Definition sourceFilterStage (s : Stage) : bool :=
  isStage s DetectStage || isStage s MinimalStage
  || isStage s AggressiveStage || isStage s SmartStage.

(** Every call the computation adds is of an allowed stage. *)
Definition usesOnly (A : Type) (allowed : Stage -> bool) (m : M A) : Prop :=
  forall calls0,
    exists ext, snd (m calls0) = calls0 ++ ext
                /\ forallb (fun c => allowed (stage c)) ext = true.

(** When the computation returns, its value satisfies [Q]. *)
Definition yields (A : Type) (Q : A -> Prop) (m : M A) : Prop :=
  forall calls0,
    match fst (m calls0) with Ok a => Q a | Throw _ => True end.



(** No call in the list threw. *)
Definition allReturned (l : list Call) : Prop :=
  forall c, In c l -> threw c = false.

(** What a run of the [try] body adds to the call list: calls that
    returned, followed, exactly when the body throws, by one call that
    threw. *)
Definition faultEndsRun (A : Type) (r : Exc A) (ext : list Call) : Prop :=
  match r with
  | Ok _ => allReturned ext
  | Throw _ =>
      exists before c, ext = before ++ [c] /\ allReturned before
                       /\ threw c = true
  end.

Definition disciplined (A : Type) (m : M A) : Prop :=
  forall calls0,
    exists ext, snd (m calls0) = calls0 ++ ext
                /\ faultEndsRun (fst (m calls0)) ext.

(** ** Vocabulary of the properties *)

Local Open Scope Z_scope.

Definition toasts (sent : list Notice) : Z :=
  Z.of_nat (List.length (filter isToast sent)).

(** A stage label: neither empty nor "unknown". *)
Definition label (name : string) : Prop :=
  u name <> [] /\ u name <> u "unknown".

(** The text after the last stage: within the budget, or what [truncate]
    made of a text over the budget. *)
Definition budgeted (fs : Filters) (n : Z) (st : Text) : Prop :=
  Z.of_nat (List.length (fst st)) <= n
  \/ exists text,
       n < Z.of_nat (List.length text) /\ truncate fs text n = Ok (fst st).
End Plugin.

(* ===================================================================== *)
(** * Properties                                                          *)
(* ===================================================================== *)

(** ** Strings *)

Section StringFacts.

Lemma str_eqb_eq (a b : jsstring) : str_eqb a b = true <-> a = b.
Proof.
  unfold str_eqb. destruct (list_eq_dec N.eq_dec a b); split; congruence.
Qed.


Lemma slice_prefix (A : Type) (s : list A) (k : Z) :
  (0 <= k <= Z.of_nat (List.length s))%Z ->
  slice s 0 k = firstn (Z.to_nat k) s.
Proof.
  intros Hk. unfold slice, clampIndex.
  replace (0 <? 0)%Z with false by reflexivity.
  destruct (k <? 0)%Z eqn:E; [apply Z.ltb_lt in E; lia|].
  rewrite (Z.min_l 0) by lia. rewrite Z.min_l by lia.
  rewrite Z.sub_0_r. reflexivity.
Qed.

Lemma startsWith_app (p b : jsstring) : startsWith (p ++ b) p = true.
Proof.
  induction p as [|c p IH]; [reflexivity|].
  simpl. rewrite N.eqb_refl. exact IH.
Qed.

Lemma startsWith_app_r (a b p : jsstring) :
  startsWith a p = true -> startsWith (a ++ b) p = true.
Proof.
  revert a. induction p as [|c p IH]; intros a H; [reflexivity|].
  destruct a as [|d a]; [discriminate|]. simpl in *.
  apply andb_true_iff in H. destruct H as [H1 H2].
  rewrite H1, (IH _ H2). reflexivity.
Qed.

Lemma includes_here (s p : jsstring) :
  startsWith s p = true -> includes s p = true.
Proof. intros H. destruct s; simpl in *; rewrite H; reflexivity. Qed.

Lemma includes_app_l (a s p : jsstring) :
  includes s p = true -> includes (a ++ s) p = true.
Proof.
  intros H. induction a as [|c a IH]; [exact H|].
  simpl. rewrite IH. apply orb_true_r.
Qed.

Lemma includes_app_r (s b p : jsstring) :
  includes s p = true -> includes (s ++ b) p = true.
Proof.
  induction s as [|c s IH]; simpl; intros H.
  - rewrite orb_false_r in H. destruct p; [|discriminate].
    destruct b; reflexivity.
  - apply orb_true_iff in H. destruct H as [H|H].
    + change (c :: s ++ b) with ((c :: s) ++ b).
      rewrite (startsWith_app_r _ b _ H). reflexivity.
    + rewrite (IH H). apply orb_true_r.
Qed.

Lemma includes_joinLines (ls : list jsstring) (l p : jsstring) :
  In l ls -> includes l p = true -> includes (joinLines ls) p = true.
Proof.
  induction ls as [|x ls IH]; intros Hin Hp; [contradiction|].
  destruct ls as [|y ls].
  - destruct Hin as [<-|[]]. exact Hp.
  - change (joinLines (x :: y :: ls)) with (x ++ LF :: joinLines (y :: ls)).
    destruct Hin as [<-|Hin].
    + apply includes_app_r, Hp.
    + apply includes_app_l. change (LF :: joinLines (y :: ls))
        with ([LF] ++ joinLines (y :: ls)).
      apply includes_app_l, IH; assumption.
Qed.

Lemma includes_middle (a p b : jsstring) : includes (a ++ p ++ b) p = true.
Proof. apply includes_app_l, includes_here, startsWith_app. Qed.

Lemma includes_unit (c : N) (s : jsstring) :
  includes s [c] = true <-> In c s.
Proof.
  induction s as [|d s IH]; simpl.
  - split; [discriminate | tauto].
  - rewrite orb_true_iff, IH, andb_true_r, N.eqb_eq. intuition congruence.
Qed.

End StringFacts.

(** ** techniques/truncate.ts *)

Section TruncateFacts.
Import Truncate.

Local Open Scope Z_scope.

Lemma truncate_unchanged (text : jsstring) (maxChars : Z) :
  Z.of_nat (List.length text) <= maxChars -> truncate text maxChars = text.
Proof.
  intros H. unfold truncate.
  destruct (Z.leb_spec (Z.of_nat (List.length text)) maxChars);
    [reflexivity | lia].
Qed.

Lemma truncate_ellipsis (text : jsstring) (maxChars : Z) :
  maxChars < Z.of_nat (List.length text) -> maxChars < 3 ->
  truncate text maxChars = u "...".
Proof.
  intros H H3. unfold truncate.
  destruct (Z.leb_spec (Z.of_nat (List.length text)) maxChars); [lia|].
  destruct (Z.ltb_spec maxChars 3); [reflexivity | lia].
Qed.

Lemma truncate_marker (text : jsstring) (maxChars : Z) :
  maxChars < Z.of_nat (List.length text) -> 3 <= maxChars ->
  truncate text maxChars
  = firstn (Z.to_nat (maxChars - 3)) text
    ++ LF :: u "... [truncated: "
    ++ numToString (Z.of_nat (List.length text) - (maxChars - 3))
    ++ u " chars omitted]".
Proof.
  intros H H3. unfold truncate.
  destruct (Z.leb_spec (Z.of_nat (List.length text)) maxChars); [lia|].
  destruct (Z.ltb_spec maxChars 3); [lia|].
  rewrite slice_prefix by lia. reflexivity.
Qed.

(** The cases of the test suite. *)
Example truncate_under_limit : truncate (u "hello") 10 = u "hello".
Proof. reflexivity. Qed.

Example truncate_at_limit : truncate (u "hello") 5 = u "hello".
Proof. reflexivity. Qed.

Example truncate_limit_3 :
  truncate (u "hello") 3 = LF :: u "... [truncated: 5 chars omitted]".
Proof. reflexivity. Qed.

Example truncate_below_3 : truncate (u "hello") 2 = u "...".
Proof. reflexivity. Qed.

(** C7.  [truncate] returns a text within the budget unchanged; beyond the
    budget it returns the bare ellipsis when [maxChars < 3], and otherwise
    the first [maxChars - 3] characters, a newline and the marker
    "... [truncated: N chars omitted]" with
    [N = len(text) - (maxChars - 3)]; so [truncate("hello world", 10)] is
    "hello w", a newline and "... [truncated: 4 chars omitted]". *)
Theorem truncate_cases (text : jsstring) (maxChars : Z) :
  (Z.of_nat (List.length text) <= maxChars -> truncate text maxChars = text)
  /\ (maxChars < Z.of_nat (List.length text) -> maxChars < 3 ->
      truncate text maxChars = u "...")
  /\ (maxChars < Z.of_nat (List.length text) -> 3 <= maxChars ->
      truncate text maxChars
      = firstn (Z.to_nat (maxChars - 3)) text
        ++ LF :: u "... [truncated: "
        ++ numToString (Z.of_nat (List.length text) - (maxChars - 3))
        ++ u " chars omitted]")
  /\ truncate (u "hello world") 10
     = u "hello w" ++ LF :: u "... [truncated: 4 chars omitted]".
Proof.
  split; [apply truncate_unchanged|].
  split; [apply truncate_ellipsis|].
  split; [apply truncate_marker | reflexivity].
Qed.

Lemma truncate_cases_witness :
  10 < Z.of_nat (List.length (u "hello world")) /\ 3 <= 10
  /\ truncate (u "hello world") 10
     = firstn (Z.to_nat (10 - 3)) (u "hello world")
       ++ LF :: u "... [truncated: "
       ++ numToString (Z.of_nat (List.length (u "hello world")) - (10 - 3))
       ++ u " chars omitted]".
Proof.
  destruct (truncate_cases (u "hello world") 10) as (_ & _ & H & _).
  split; [simpl; lia|]. split; [lia|]. apply H; simpl; lia.
Defined.

(** C2, as stated, fails: the marker is added on top of the kept prefix, so
    a truncated text is longer than the budget.  [truncate("hello world",
    10)] has 40 characters. *)
Lemma truncate_exceeds_budget :
  ~ (10 < Z.of_nat (List.length (u "hello world")) ->
     Z.of_nat (List.length (truncate (u "hello world") 10)) <= Z.max 10 3).
Proof. intros H. simpl in H. lia. Qed.

(** C2, amended.  A text within the budget is returned unchanged.  Beyond
    the budget, the result has exactly 3 characters when [n < 3]; when
    [n >= 3] it has the [n - 3] kept characters, the 32 fixed characters of
    the marker and the digits of the omitted count, which is more than
    [n]. *)
Theorem truncate_length (t : jsstring) (n : Z) :
  (Z.of_nat (List.length t) <= n -> truncate t n = t)
  /\ (n < Z.of_nat (List.length t) -> n < 3 ->
      Z.of_nat (List.length (truncate t n)) = 3
      /\ Z.of_nat (List.length (truncate t n)) <= Z.max n 3)
  /\ (n < Z.of_nat (List.length t) -> 3 <= n ->
      Z.of_nat (List.length (truncate t n))
      = (n - 3) + 32
        + Z.of_nat (List.length
                      (numToString (Z.of_nat (List.length t) - (n - 3))))
      /\ n < Z.of_nat (List.length (truncate t n))).
Proof.
  split; [apply truncate_unchanged|]. split.
  - intros H H3. rewrite truncate_ellipsis by assumption. simpl. lia.
  - intros H H3. rewrite truncate_marker by assumption.
    assert (E : Z.of_nat
                  (List.length
                     (firstn (Z.to_nat (n - 3)) t
                      ++ LF :: u "... [truncated: "
                      ++ numToString (Z.of_nat (List.length t) - (n - 3))
                      ++ u " chars omitted]"))
                = (n - 3) + 32
                  + Z.of_nat (List.length
                      (numToString (Z.of_nat (List.length t) - (n - 3))))).
    { rewrite length_app, firstn_length_le by lia.
      cbn [List.length]. rewrite length_app, length_app.
      change (List.length (u "... [truncated: ")) with 16%nat.
      change (List.length (u " chars omitted]")) with 15%nat. lia. }
    split; [exact E | rewrite E; lia].
Qed.

Lemma truncate_length_witness :
  10 < Z.of_nat (List.length (u "hello world")) /\ 3 <= 10
  /\ Z.of_nat (List.length (truncate (u "hello world") 10)) = 40.
Proof.
  destruct (truncate_length (u "hello world") 10) as (_ & _ & H).
  split; [simpl; lia|]. split; [lia|].
  destruct H as [H _]; [simpl; lia | lia |]. rewrite H. reflexivity.
Defined.

End TruncateFacts.

(** ** techniques/ansi.ts *)

Section AnsiFacts.
Import Ansi.

(** A pattern that begins with a literal code unit matches only where the
    input has that code unit. *)
Lemma matchHere_first (c : N) (r : re) (pv : option N) (d : N)
  (s : jsstring) :
  d <> c -> matchHere (Seq (Chr c) r) pv (d :: s) = None.
Proof.
  intros H. unfold matchHere. cbn [run]. unfold step1. cbn [rest].
  destruct (N.eqb_spec c d); [congruence | reflexivity].
Qed.

Lemma deleteFrom_without (c : N) (r : re) (s : jsstring) :
  ~ In c s -> forall pv, deleteFrom (Seq (Chr c) r) 0 pv s = s.
Proof.
  induction s as [|d s IH]; intros Hc pv; [reflexivity|].
  cbn [deleteFrom]. rewrite matchHere_first.
  - f_equal. apply IH. intros Hin. apply Hc. right. exact Hin.
  - intros E. apply Hc. left. exact E.
Qed.

Lemma stripAnsi_without_escape (t : jsstring) :
  ~ In ESC t -> stripAnsi t = t.
Proof.
  intros H. unfold stripAnsi, deleteAll.
  assert (E1 : deleteFrom csi 0 None t = t)
    by (apply deleteFrom_without, H).
  rewrite E1.
  assert (E2 : deleteFrom oscParams 0 None t = t)
    by (apply deleteFrom_without, H).
  rewrite E2. apply deleteFrom_without, H.
Qed.

Lemma stripAnsiFast_is_stripAnsi (t : jsstring) :
  stripAnsiFast t = stripAnsi t.
Proof.
  unfold stripAnsiFast. destruct (includes t [ESC]) eqn:E; [reflexivity|].
  cbn [negb]. symmetry. apply stripAnsi_without_escape.
  intros Hin. apply includes_unit in Hin. congruence.
Qed.

Lemma stripAnsiFast_without_escape (t : jsstring) :
  ~ In ESC t -> stripAnsiFast t = t.
Proof.
  intros H. rewrite stripAnsiFast_is_stripAnsi.
  apply stripAnsi_without_escape, H.
Qed.

(** The cases of the test suite. *)
Example stripAnsi_colors :
  stripAnsi ([27; 91] ++ u "31mRed" ++ [27; 91] ++ u "0m Text")%N
  = u "Red Text".
Proof. reflexivity. Qed.

Example stripAnsi_multiple :
  stripAnsi ([27; 91] ++ u "31m" ++ [27; 91] ++ u "1mRed Bold" ++ [27; 91]
             ++ u "0m" ++ [27; 91] ++ u "32m Green" ++ [27; 91] ++ u "0m")%N
  = u "Red Bold Green".
Proof. reflexivity. Qed.

Example stripAnsi_title :
  stripAnsi ([27; 93] ++ u "0;build" ++ [7] ++ u "done")%N = u "done".
Proof. reflexivity. Qed.

(** An escape character outside a CSI or OSC sequence is kept: ESC ( B,
    the sequence that selects the ASCII character set. *)
Example stripAnsi_keeps_other_escapes :
  stripAnsiFast ([27; 40; 66] ++ u "text")%N = ([27; 40; 66] ++ u "text")%N.
Proof. reflexivity. Qed.


End AnsiFacts.

(** ** Regular expressions *)

Section RegExpFacts.

(** A match found by [search] starts where [index] says, and is the match
    of the pattern at that position. *)
Lemma search_sound (r : re) (s : jsstring) :
  forall (i : nat) (pv : option N) (m : MatchResult),
    search r i pv s = Some m ->
    exists a b,
      s = a ++ b /\ index m = (i + List.length a)%nat
      /\ matchHere r (prevAfter pv a) b = Some (matchLength m, groups m).
Proof.
  induction s as [|c s IH]; intros i pv m H; cbn [search] in H.
  - destruct (matchHere r pv []) as [[n gs]|] eqn:E; [|discriminate].
    injection H as <-. exists [], []. cbn. rewrite Nat.add_0_r. auto.
  - destruct (matchHere r pv (c :: s)) as [[n gs]|] eqn:E.
    + injection H as <-. exists [], (c :: s). cbn.
      rewrite Nat.add_0_r. auto.
    + destruct (IH _ _ _ H) as (a & b & -> & Hi & Hm).
      exists (c :: a), b. cbn [List.length app prevAfter fold_left].
      repeat split; [lia | exact Hm].
Qed.

Lemma exec_at (r : re) (pre rest : jsstring) (m : MatchResult) :
  exec r (pre ++ rest) = Some m -> index m = List.length pre ->
  matchHere r (prevAfter None pre) rest = Some (matchLength m, groups m).
Proof.
  intros H Hi. destruct (search_sound _ _ _ _ H) as (a & b & E & Hi' & Hm).
  rewrite Hi in Hi'. cbn in Hi'.
  assert (Ha : a = pre).
  { apply (f_equal (firstn (List.length pre))) in E.
    rewrite firstn_app, firstn_all, Nat.sub_diag in E. cbn in E.
    rewrite app_nil_r in E. rewrite Hi' in E.
    rewrite firstn_app, firstn_all, Nat.sub_diag in E. cbn in E.
    rewrite app_nil_r in E. congruence. }
  subst a. apply app_inv_head in E. subst b. exact Hm.
Qed.

End RegExpFacts.

(** ** techniques/test-output.ts *)

Section TestOutputFacts.
Import TestOutput.

Local Open Scope Z_scope.

(** Where the first template matches this line, its three groups are the
    status word, the pass count and the fail count, in this order. *)
Lemma rustResult_on_cargoLine (pv : option N) (post : jsstring) :
  matchHere rustResult pv (cargoLine ++ post)
  = Some (40%nat, [(3%nat, u "2"); (2%nat, u "5"); (1%nat, u "FAILED")]).
Proof. vm_compute. reflexivity. Qed.

Lemma renderSummary_failed (p f s : Z) (fl : list jsstring) :
  0 < f -> In (failedLine f) (renderSummary (Summary p f s fl)).
Proof.
  intros H. unfold renderSummary. cbn [passed failed skipped failures].
  destruct (Z.ltb_spec 0 f); [|lia]. cbn. auto.
Qed.

Lemma countMarkers_none (lines : list jsstring) (pf : Z * Z) :
  (forall line, In line lines ->
     test passMarker line = false /\ test failMarker line = false) ->
  countMarkers lines pf = pf.
Proof.
  unfold countMarkers. revert pf.
  induction lines as [|l lines IH]; intros [p f] H; [reflexivity|].
  cbn [fold_left]. destruct (H l (or_introl eq_refl)) as [-> ->].
  apply IH. intros line Hin. apply H. right. exact Hin.
Qed.

(** The cases of the test suite. *)
Example aggregate_not_a_test_command :
  aggregateTestOutput (u "output") (u "cargo build") = None.
Proof. reflexivity. Qed.

Example aggregate_passing_run :
  aggregateTestOutput (u "Tests: 42 passed, 0 failed, 0 skipped")
    (u "bun test")
  = Some (header ++ LF :: passedLine 42).
Proof. vm_compute. reflexivity. Qed.

Example aggregate_failing_run :
  aggregateTestOutput (cargoLine ++ cargoReport) (u "cargo test")
  = Some (joinLines
            [header; passedLine 0; failedLine 5; skippedLine 2;
             failuresHeading;
             u "   " ++ [8226]%N ++ u " FAIL test-one";
             u "       expect(received).toBe(expected)";
             u "   " ++ [8226]%N ++ u " FAIL test-two";
             u "       assertion failed"]).
Proof. vm_compute. reflexivity. Qed.

(** C4, as stated, fails: the counts come from the leftmost match of the
    first template, so a report with an earlier summary line (cargo prints
    one per test binary) is summarised from that line.  Here the summary
    says "3 failed". *)
Lemma earlier_summary_line_wins :
  let out :=
    u "test result: ok. 3 passed; 0 failed; 0 ignored" ++ LF :: cargoLine in
  isTestCommand (u "cargo test") = true
  /\ In cargoLine (splitLines out)
  /\ ~ (exists summary,
          aggregateTestOutput out (u "cargo test") = Some summary
          /\ includes summary (u "5 failed") = true).
Proof.
  intros out. split; [reflexivity|]. split; [vm_compute; auto|].
  intros (summary & H & Hi). vm_compute in H. injection H as <-.
  vm_compute in Hi. discriminate Hi.
Qed.

(** C4, amended.  For every test-runner command and every output in which
    the leftmost match of the first result template starts at the line
    "test result: FAILED. 5 passed; 2 failed; 0 ignored", the summary
    contains "5 failed": the template's groups are (status word, passed,
    failed), and they are read as (passed, failed, skipped). *)
Theorem cargo_line_reports_5_failed (command pre post : jsstring) :
  isTestCommand command = true ->
  option_map index (exec rustResult (pre ++ cargoLine ++ post))
  = Some (List.length pre) ->
  exists summary,
    aggregateTestOutput (pre ++ cargoLine ++ post) command = Some summary
    /\ includes summary (u "5 failed") = true.
Proof.
  intros Hc Hi. unfold aggregateTestOutput. rewrite Hc. cbn [negb].
  eexists. split; [reflexivity|].
  destruct (exec rustResult (pre ++ cargoLine ++ post)) as [m|] eqn:E;
    [|discriminate].
  injection Hi as Hi.
  pose proof (exec_at _ _ _ E Hi) as Hm.
  rewrite rustResult_on_cargoLine in Hm. injection Hm as Hl Hg.
  assert (Hs : extractTestStats (pre ++ cargoLine ++ post)
               = Partial (Some 0) (Some 5) (Some 2)).
  { unfold extractTestStats, TEST_RESULT_PATTERNS. cbn [firstMatch].
    rewrite E. unfold parseGroup. rewrite <- Hg. reflexivity. }
  unfold summarize. rewrite Hs. cbn [p_passed p_failed p_skipped orZero].
  cbn [Z.eqb andb Z.ltb Z.compare].
  apply includes_joinLines with (l := failedLine 5).
  - apply renderSummary_failed. lia.
  - reflexivity.
Qed.

Lemma cargo_line_reports_5_failed_witness :
  isTestCommand (u "cargo test") = true
  /\ option_map index
       (exec rustResult (u "running 7 tests" ++ [LF] ++ cargoLine ++ cargoReport))
     = Some 16%nat
  /\ exists summary,
       aggregateTestOutput
         ((u "running 7 tests" ++ [LF]) ++ cargoLine ++ cargoReport)
         (u "cargo test") = Some summary
       /\ includes summary (u "5 failed") = true.
Proof.
  split; [reflexivity|]. split; [vm_compute; reflexivity|].
  apply (cargo_line_reports_5_failed (u "cargo test")
           (u "running 7 tests" ++ [LF]) cargoReport);
    vm_compute; reflexivity.
Defined.

(** C10.  For a test command [aggregateTestOutput] never returns [null].
    When no result template matches and no line carries a pass or fail
    marker, the result is the two-line summary "Test Results:" /
    "0 passed", and it differs from the output it replaces. *)
Theorem aggregateTestOutput_never_null (output command : jsstring) :
  isTestCommand command = true ->
  (exists summary, aggregateTestOutput output command = Some summary)
  /\ (firstMatch TEST_RESULT_PATTERNS output = None ->
      (forall line, In line (splitLines output) ->
         test passMarker line = false /\ test failMarker line = false) ->
      aggregateTestOutput output command = Some (header ++ LF :: passedLine 0)
      /\ header ++ LF :: passedLine 0 <> output).
Proof.
  intros Hc. unfold aggregateTestOutput. rewrite Hc. cbn [negb].
  split; [eexists; reflexivity|]. intros Hn Hl. split.
  - unfold summarize, extractTestStats. rewrite Hn.
    cbn [p_passed p_failed p_skipped orZero Z.eqb andb].
    rewrite (countMarkers_none _ _ Hl). reflexivity.
  - intros E. rewrite <- E in Hn. vm_compute in Hn. discriminate Hn.
Qed.

Lemma aggregateTestOutput_never_null_witness :
  isTestCommand (u "bun test") = true
  /\ aggregateTestOutput (u "error: script not found") (u "bun test")
     = Some (header ++ LF :: passedLine 0).
Proof.
  split; [reflexivity|].
  destruct (aggregateTestOutput_never_null (u "error: script not found")
              (u "bun test") eq_refl) as [_ H].
  apply H.
  - vm_compute. reflexivity.
  - intros line Hin. vm_compute in Hin. destruct Hin as [<-|[]].
    vm_compute. split; reflexivity.
Defined.

End TestOutputFacts.

(** ** techniques/git.ts *)

Section GitFacts.
Import Git.

Local Open Scope Z_scope.

(** What [classify] does with a line [X Y sep name]: which counters it
    increments. *)
Lemma classify_by_code (stats : StatusStats) (x y sep : N) (name : jsstring) :
  let line := x :: y :: sep :: name in
  let unknown := ((x =? 63) && (y =? 63))%N in
  let s := classify stats line in
  untracked s = untracked stats + bump unknown
  /\ staged s = staged stats + bump (negb unknown && isStagedCode (Some x))
  /\ conflicts s = conflicts stats + bump (negb unknown && (x =? 85)%N)
  /\ modified s = modified stats
                  + bump (negb unknown && isModifiedCode (Some y)).
Proof.
  intros line unknown s. subst s. unfold classify.
  assert (E : slice line 0 2 = [x; y]).
  { subst line. rewrite slice_prefix; [reflexivity|].
    cbn [List.length]. lia. }
  rewrite E. subst unknown. unfold str_eqb.
  destruct (list_eq_dec N.eq_dec [x; y] (u "??")) as [Eq|Ne].
  - injection Eq as -> ->. cbn. repeat split; lia.
  - assert (Hq : ((x =? 63) && (y =? 63))%N = false).
    { apply andb_false_iff.
      destruct (N.eqb_spec x 63) as [->|]; [|auto].
      destruct (N.eqb_spec y 63) as [->|]; [|auto].
      exfalso. apply Ne. reflexivity. }
    rewrite Hq. cbn [negb andb nth_error isU].
    destruct (isStagedCode (Some x)), (x =? 85)%N,
      (isModifiedCode (Some y)); cbn; repeat split; lia.
Qed.

(** C5 at the status line "DU both.txt" (deleted by us, unmerged in the
    worktree column): the file is counted as staged, and no conflict is
    counted or reported. *)
Theorem worktree_U_not_a_conflict :
  let stats := snd (scanStatus 0 (splitLines (u "DU both.txt"))
                      ([], emptyStats)) in
  conflicts stats = 0 /\ staged stats = 1
  /\ compactStatus (u "DU both.txt")
     = [9989]%N ++ u " Staged: 1 files" ++ LF :: u "  both.txt".
Proof. vm_compute. auto. Qed.

(** The cases of the test suite, and the other buckets. *)
Example compactStatus_staged :
  compactStatus (u "M  src/file.ts" ++ LF :: u "A  src/new.ts")
  = [9989]%N ++ u " Staged: 2 files" ++ LF :: u "  src/file.ts"
    ++ LF :: u "  src/new.ts".
Proof. reflexivity. Qed.

Example compactStatus_modified :
  compactStatus (u " M src/file.ts" ++ LF :: u " M src/other.ts")
  = [55357; 56541]%N ++ u " Modified: 2 files" ++ LF :: u "  src/file.ts"
    ++ LF :: u "  src/other.ts".
Proof. reflexivity. Qed.

Example compactStatus_untracked :
  compactStatus (u "On branch main" ++ LF :: u "?? notes.txt")
  = [55357; 56524]%N ++ u " main" ++ LF :: [10067]%N
    ++ u " Untracked: 1 files" ++ LF :: u "  notes.txt".
Proof. reflexivity. Qed.

Example index_U_is_a_conflict :
  compactStatus (u "UU both.txt")
  = [9888; 65039]%N ++ u "  Conflicts: 1 files".
Proof. reflexivity. Qed.

Example compactStatus_empty : compactStatus [] = u "Clean working tree".
Proof. reflexivity. Qed.

End GitFacts.

(** ** config.ts *)

Section ConfigFacts.
Import Config.

Local Open Scope Z_scope.

(** The cases of the test suite. *)
Example mergeConfig_empty_override :
  mergeConfig DEFAULT_CONFIG (MkOverride None None JsUndefined None)
  = DEFAULT_CONFIG.
Proof. reflexivity. Qed.

Example mergeConfig_top_level :
  let m := mergeConfig DEFAULT_CONFIG
             (MkOverride (Some false) None JsUndefined None) in
  enabled m = false /\ logSavings m = true.
Proof. split; reflexivity. Qed.

Example mergeConfig_showUpdateEvery_2 :
  showUpdateEvery
    (mergeConfig DEFAULT_CONFIG
       (MkOverride None (Some false) (JsNum (ofZ 2)) None)) = ofZ 2.
Proof. reflexivity. Qed.

(** C8.  [mergeConfig] merges [truncation] and [smartTruncation] key by
    key: a key the override sets takes the override's value, a key it does
    not set keeps the base's.  So overriding only [maxChars] with 5000
    keeps [enabled == true].  For [showUpdateEvery], an integer override
    [x] gives [max(0, x)], hence 0 when [x] is negative, and a number that
    is not an integer leaves the base's value. *)
Theorem mergeConfig_deep_merge (base : RtkConfig) (override : ConfigOverride) :
  let merged := mergeConfig base override in
  t_enabled (truncation (techniques merged))
  = spread (t_enabled (truncation (techniques base)))
      (o_t_enabled (truncationOf override))
  /\ maxChars (truncation (techniques merged))
     = spread (maxChars (truncation (techniques base)))
         (o_maxChars (truncationOf override))
  /\ st_enabled (smartTruncation (techniques merged))
     = spread (st_enabled (smartTruncation (techniques base)))
         (o_st_enabled (smartTruncationOf override))
  /\ maxLines (smartTruncation (techniques merged))
     = spread (maxLines (smartTruncation (techniques base)))
         (o_maxLines (smartTruncationOf override))
  /\ (let m := mergeConfig DEFAULT_CONFIG onlyMaxChars in
      t_enabled (truncation (techniques m)) = true
      /\ maxChars (truncation (techniques m)) = 5000)
  /\ (forall x, o_showUpdateEvery override = JsNum x ->
        isInteger x = true -> integerValue x < 0 ->
        showUpdateEvery merged = ofZ 0)
  /\ (forall x, o_showUpdateEvery override = JsNum x ->
        isInteger x = true -> 0 <= integerValue x ->
        showUpdateEvery merged = ofZ (integerValue x))
  /\ (forall x, o_showUpdateEvery override = JsNum x ->
        isInteger x = false ->
        showUpdateEvery merged = showUpdateEvery base).
Proof.
  cbn zeta. repeat split.
  - intros x Hx Hi Hneg. unfold mergeConfig. cbn [showUpdateEvery].
    unfold normalizeShowUpdateEvery. rewrite Hx, Hi.
    rewrite Z.max_l by lia. reflexivity.
  - intros x Hx Hi Hpos. unfold mergeConfig. cbn [showUpdateEvery].
    unfold normalizeShowUpdateEvery. rewrite Hx, Hi.
    rewrite Z.max_r by lia. reflexivity.
  - intros x Hx Hi. unfold mergeConfig. cbn [showUpdateEvery].
    unfold normalizeShowUpdateEvery. rewrite Hx, Hi. reflexivity.
Qed.

Lemma mergeConfig_deep_merge_witness :
  showUpdateEvery
    (mergeConfig DEFAULT_CONFIG
       (MkOverride None None (JsNum (Finite (-3) 1)) None)) = ofZ 0
  /\ showUpdateEvery
       (mergeConfig DEFAULT_CONFIG
          (MkOverride None None (JsNum (Finite 5 2)) None)) = ofZ 10.
Proof.
  split.
  - destruct (mergeConfig_deep_merge DEFAULT_CONFIG
                (MkOverride None None (JsNum (Finite (-3) 1)) None))
      as (_ & _ & _ & _ & _ & H & _).
    apply (H (Finite (-3) 1)); [reflexivity | reflexivity | cbn; lia].
  - destruct (mergeConfig_deep_merge DEFAULT_CONFIG
                (MkOverride None None (JsNum (Finite 5 2)) None))
      as (_ & _ & _ & _ & _ & _ & _ & H).
    apply (H (Finite 5 2)); reflexivity.
Defined.

End ConfigFacts.

(** ** metrics.ts *)

Section MetricsFacts.
Import Metrics.

Local Open Scope float_scope.

Example calculateSavings_100_33 :
  calculateSavings (ofCount 100) (ofCount 33) = 67.
Proof. vm_compute. reflexivity. Qed.

Example calculateSavings_0_0 : calculateSavings (ofCount 0) (ofCount 0) = 0.
Proof. vm_compute. reflexivity. Qed.

Example exactHundredths_100_33 : exactHundredths 100 33 = 6700%Z.
Proof. reflexivity. Qed.

(** C9 at [calculateSavings(160, 73)] and [calculateSavings(32, 31)].
    The exact value of the first is 54.375, half way between 54.37 and
    54.38; rounding it to two decimals (a tie going up, or to the even
    digit) gives 54.38.  In binary64 arithmetic [(87 / 160) * 100] falls
    just below 54.375, [Math.round] sees less than 5437.5, and the
    function returns 54.37.  The second is a tie as well, 3.125, and there
    the function returns the upper neighbour 3.13: the result is not the
    exact value rounded under one rule for ties. *)
Theorem calculateSavings_at_ties :
  calculateSavings (ofCount 160) (ofCount 73) = 5437 / 100
  /\ exactHundredths 160 73 = 5438%Z
  /\ (2 * (10000 * (160 - 73)) = (2 * 5437 + 1) * 160)%Z
  /\ (calculateSavings (ofCount 160) (ofCount 73) =? 5438 / 100) = false
  /\ ((ofCount 160 - ofCount 73) / ofCount 160 * 100 <? 54.375) = true
  /\ calculateSavings (ofCount 32) (ofCount 31) = 313 / 100
  /\ exactHundredths 32 31 = 313%Z
  /\ (2 * (10000 * (32 - 31)) = (2 * 312 + 1) * 32)%Z.
Proof. vm_compute. repeat split. Qed.

End MetricsFacts.

(** ** plugin.ts *)

Section PluginFacts.
Import Config Metrics Plugin.

Lemma allReturned_nil : allReturned [].
Proof. intros c []. Qed.

Lemma allReturned_app (a b : list Call) :
  allReturned a -> allReturned b -> allReturned (a ++ b).
Proof.
  intros Ha Hb c Hin. apply in_app_or in Hin. destruct Hin; auto.
Qed.

Lemma disciplined_ret (A : Type) (a : A) : disciplined (ret a).
Proof.
  intros calls0. exists []. cbn. rewrite app_nil_r.
  split; [reflexivity | apply allReturned_nil].
Qed.

Lemma disciplined_call (A : Type) (s : Stage) (r : Exc A) :
  disciplined (call s r).
Proof.
  intros calls0. exists [MkCall s (isThrow r)]. cbn.
  split; [reflexivity|]. destruct r; cbn.
  - intros c [<-|[]]. reflexivity.
  - exists [], (MkCall s true). repeat split. apply allReturned_nil.
Qed.

Lemma disciplined_bind (A B : Type) (m : M A) (k : A -> M B) :
  disciplined m -> (forall a, disciplined (k a)) -> disciplined (bind m k).
Proof.
  intros Hm Hk calls0. unfold bind.
  destruct (Hm calls0) as (ext & Hs & Hf).
  destruct (m calls0) as [[a|e] calls1]; cbn in Hs, Hf; subst calls1.
  - destruct (Hk a (calls0 ++ ext)) as (ext' & Hs' & Hf').
    exists (ext ++ ext'). rewrite Hs', app_assoc. split; [reflexivity|].
    destruct (fst (k a (calls0 ++ ext))); cbn in *.
    + apply allReturned_app; assumption.
    + destruct Hf' as (before & c & -> & Hb & Hc).
      exists (ext ++ before), c. rewrite app_assoc.
      repeat split; [apply allReturned_app; assumption | exact Hc].
  - exists ext. cbn. split; [reflexivity | exact Hf].
Qed.

Create HintDb stages.
#[local] Hint Resolve disciplined_ret disciplined_call disciplined_bind
  : stages.

Ltac by_cases :=
  repeat match goal with
         | |- disciplined (if ?b then _ else _) => destruct b
         | |- disciplined (match ?x with _ => _ end) => destruct x
         | |- disciplined (bind _ _) => apply disciplined_bind; [|intros ?]
         | |- disciplined (ret _) => apply disciplined_ret
         | |- disciplined (call _ _) => apply disciplined_call
         end.

Lemma disciplined_commandStage s name enabled filter st :
  disciplined (commandStage s name enabled filter st).
Proof. unfold commandStage. by_cases. Qed.

Lemma disciplined_sourceStage s name filter st :
  disciplined (sourceStage s name filter st).
Proof. unfold sourceStage. by_cases. Qed.

#[local] Hint Resolve disciplined_commandStage disciplined_sourceStage
  : stages.

Lemma disciplined_runFilters fs config input original :
  disciplined (runFilters fs config input original).
Proof.
  unfold runFilters. apply disciplined_bind; [|intros st1].
  { unfold phase1. destruct (ansiStripping _); auto with stages. }
  apply disciplined_bind; [|intros st2].
  { unfold phase2. destruct (nonEmpty _); [|auto with stages].
    destruct (str_eqb _ _); [|auto with stages].
    repeat (apply disciplined_bind; [auto with stages | intros ?]).
    auto with stages. }
  apply disciplined_bind; [|intros st3].
  { unfold phase3. destruct (nonEmpty _); [|auto with stages].
    destruct (str_eqb _ _); [|auto with stages].
    apply disciplined_bind; [auto with stages | intros language].
    destruct (_ && _); [|auto with stages].
    apply disciplined_bind; [|intros st].
    - destruct (isLevel _ minimal); [auto with stages|].
      destruct (isLevel _ aggressive); auto with stages.
    - destruct (st_enabled _); [|auto with stages].
      destruct (_ <? _)%Z; [|auto with stages].
      apply disciplined_bind; auto with stages. }
  unfold hardTruncation. destruct (_ && _); [|auto with stages].
  apply disciplined_bind; auto with stages.
Qed.

Lemma recordAndLog_calls host config now original filtered tool technique
  session w :
  calls
    (snd (recordAndLog host config now original filtered tool technique
            session w))
  = calls w.
Proof.
  unfold recordAndLog. destruct (logSavings config && _);
    [destruct (appLog host _); [|reflexivity]|];
    destruct (appendMetric host _); reflexivity.
Qed.

Lemma recordAndLog_output host config now original filtered tool technique
  session w :
  output
    (snd (recordAndLog host config now original filtered tool technique
            session w))
  = output w.
Proof.
  unfold recordAndLog. destruct (logSavings config && _);
    [destruct (appLog host _); [|reflexivity]|];
    destruct (appendMetric host _); reflexivity.
Qed.

(** The calls of a finished invocation are those of the filter stages. *)
Lemma toolExecuteAfter_calls fs host config now input w :
  calls (toolExecuteAfter fs host config now input w) = calls w
  \/ exists original,
       nonEmpty (output w) = Some original
       /\ calls (toolExecuteAfter fs host config now input w)
          = snd (runFilters fs config input original (calls w)).
Proof.
  unfold toolExecuteAfter.
  destruct (nonEmpty (output w)) as [original|]; [|left; reflexivity].
  right. exists original. split; [reflexivity|].
  destruct (runFilters fs config input original (calls w))
    as [[[result technique]|message] calls']; cbn [snd]; [|reflexivity].
  destruct (negb _); [|reflexivity].
  destruct (resolveSessionID input) as [session|]; [|reflexivity].
  match goal with
  | |- context [recordAndLog ?h ?c ?n ?o ?f ?tl ?tq ?s ?w0] =>
      pose proof (recordAndLog_calls h c n o f tl tq s w0) as Hc;
      destruct (recordAndLog h c n o f tl tq s w0) as [[[]|message] w2]
  end; cbn [snd] in Hc; cbn [warn calls]; exact Hc.
Qed.

(** What the hook leaves behind, by the outcome of the [try] body. *)
Lemma toolExecuteAfter_outcome fs host config now input w :
  let w' := toolExecuteAfter fs host config now input w in
  exists ext,
    calls w' = calls w ++ ext
    /\ (allReturned ext
        \/ (exists before c message,
              ext = before ++ [c] /\ allReturned before /\ threw c = true
              /\ output w' = output w
              /\ sessionMetrics w' = sessionMetrics w
              /\ metricsFile w' = metricsFile w
              /\ logged w'
                 = logged w ++ [FilterWarning (toolName input) message])).
Proof.
  cbn zeta. unfold toolExecuteAfter.
  destruct (nonEmpty (output w)) as [original|].
  2:{ exists []. rewrite app_nil_r. split; [reflexivity|].
      left. apply allReturned_nil. }
  destruct (disciplined_runFilters fs config input original (calls w))
    as (ext & Hs & Hf).
  destruct (runFilters fs config input original (calls w))
    as [[[result technique]|message] calls'];
    cbn in Hs, Hf; subst calls'; exists ext.
  - split; [|left; exact Hf].
    destruct (negb (str_eqb result original)); [|reflexivity].
    destruct (resolveSessionID input) as [session|]; [|reflexivity].
    match goal with
    | |- context [recordAndLog ?h ?c ?n ?o ?f ?tl ?tq ?s ?w0] =>
        pose proof (recordAndLog_calls h c n o f tl tq s w0) as Hc;
        destruct (recordAndLog h c n o f tl tq s w0) as [[[]|msg] w2]
    end; cbn [snd] in Hc; cbn [warn calls]; exact Hc.
  - split; [reflexivity|]. right.
    destruct Hf as (before & c & -> & Hb & Hc).
    exists before, c, message. cbn. repeat split; assumption.
Qed.

Lemma last_unique (A : Type) (a c d : list A) (x y : A) :
  a ++ [x] = c ++ y :: d -> (d = [] /\ x = y) \/ In y a.
Proof.
  revert c. induction a as [|z a IH]; intros c H.
  - destruct c as [|z c]; cbn in H.
    + injection H as -> <-. left. auto.
    + injection H as _ H. destruct c; discriminate H.
  - destruct c as [|z' c]; cbn in H.
    + injection H as -> _. right. left. reflexivity.
    + injection H as _ H. destruct (IH _ H) as [?|?]; [left | right; right];
        assumption.
Qed.

(** C1.  If a filter stage throws during an invocation, the hook leaves
    [output.output] as it was (the original text, never a partly filtered
    one) and appends no record, neither to the session's metrics nor to
    the metrics file. *)
Theorem fault_keeps_original_and_records_nothing
  (fs : Filters) (host : Host) (config : RtkConfig) (now : jsstring)
  (input : Input) (w : World) (ext : list Call) :
  let w' := toolExecuteAfter fs host config now input w in
  calls w' = calls w ++ ext ->
  (exists c, In c ext /\ threw c = true) ->
  output w' = output w
  /\ sessionMetrics w' = sessionMetrics w
  /\ metricsFile w' = metricsFile w.
Proof.
  intros w' Hext (c & Hin & Hc).
  destruct (toolExecuteAfter_outcome fs host config now input w)
    as (ext' & Hs & H).
  fold w' in Hs, H. rewrite Hs in Hext. apply app_inv_head in Hext.
  subst ext'. destruct H as [Hall | (before & c' & msg & _ & _ & _ & Ho & Hm & Hf & _)].
  - rewrite (Hall c Hin) in Hc. discriminate Hc.
  - auto.
Qed.

Lemma fault_keeps_original_and_records_nothing_witness :
  let w' := toolExecuteAfter faultyBuild reliableHost shortBudget (u "T")
              makeInput before in
  output w' = Some longOutput
  /\ sessionMetrics w' = []
  /\ metricsFile w' = [].
Proof.
  apply (fault_keeps_original_and_records_nothing faultyBuild reliableHost
           shortBudget (u "T") makeInput before
           [MkCall AnsiStage false; MkCall BuildStage true]).
  - vm_compute. reflexivity.
  - exists (MkCall BuildStage true). split; [right; left|]; reflexivity.
Defined.

(** C6, as stated, fails.  With a build filter that throws, test
    aggregation and hard truncation are enabled and the text is over the
    budget, yet neither stage runs after the fault: the calls stop at the
    build stage and the output is the original text, not the truncation of
    the text as it stood before the fault.  The same run without the fault
    ends in the truncated message of the build filter. *)
Lemma fault_stops_the_pipeline :
  let w' := toolExecuteAfter faultyBuild reliableHost shortBudget (u "T")
              makeInput before in
  calls w' = [MkCall AnsiStage false; MkCall BuildStage true]
  /\ testOutputAggregation (techniques shortBudget) = true
  /\ t_enabled (truncation (techniques shortBudget)) = true
  /\ (maxChars (truncation (techniques shortBudget))
      < Z.of_nat (List.length longOutput))%Z
  /\ ran TestStage (calls w') = false
  /\ ran TruncateStage (calls w') = false
  /\ output w' = Some longOutput
  /\ output w' <> Some (Truncate.truncate longOutput 10)
  /\ output (toolExecuteAfter embeddedFilters reliableHost shortBudget
               (u "T") makeInput before)
     = Some (Truncate.truncate (Build.success 0) 10).
Proof.
  vm_compute. repeat split; congruence.
Qed.

(** C6, amended.  When a filter stage throws, the pipeline does not go
    on: the call that threw is the last stage call of the invocation, the
    output keeps the original text, and the fault is logged as a
    warning. *)
Theorem fault_ends_the_run
  (fs : Filters) (host : Host) (config : RtkConfig) (now : jsstring)
  (input : Input) (w : World) (earlier later : list Call) (c : Call) :
  let w' := toolExecuteAfter fs host config now input w in
  calls w' = calls w ++ earlier ++ c :: later ->
  threw c = true ->
  later = []
  /\ output w' = output w
  /\ exists message,
       logged w' = logged w ++ [FilterWarning (toolName input) message].
Proof.
  intros w' Hext Hc.
  destruct (toolExecuteAfter_outcome fs host config now input w)
    as (ext & Hs & H).
  fold w' in Hs, H. rewrite Hs in Hext. apply app_inv_head in Hext.
  subst ext. destruct H as [Hall | (b & c' & msg & E & Hb & _ & Ho & _ & _ & Hl)].
  - rewrite (Hall c) in Hc; [discriminate Hc|].
    apply in_or_app. right. left. reflexivity.
  - destruct (@last_unique _ _ _ _ _ _ (eq_sym E)) as [[-> _]|Hin].
    + split; [reflexivity|]. split; [exact Ho|]. exists msg. exact Hl.
    + rewrite (Hb c Hin) in Hc. discriminate Hc.
Qed.

Lemma fault_ends_the_run_witness :
  let w' := toolExecuteAfter faultyBuild reliableHost shortBudget (u "T")
              makeInput before in
  calls w' = calls before ++ [MkCall AnsiStage false]
             ++ MkCall BuildStage true :: []
  /\ output w' = output before
  /\ exists message,
       logged w' = logged before ++ [FilterWarning (u "bash") message].
Proof.
  intros w'.
  assert (H : calls w' = calls before ++ [MkCall AnsiStage false]
                         ++ MkCall BuildStage true :: [])
    by (vm_compute; reflexivity).
  split; [exact H|].
  destruct (fault_ends_the_run faultyBuild reliableHost shortBudget (u "T")
              makeInput before [MkCall AnsiStage false] [] (MkCall BuildStage true) H
              eq_refl) as (_ & Ho & Hl).
  split; [exact Ho | exact Hl].
Defined.

End PluginFacts.

(** ** More on strings *)

Section LineFacts.

Lemma splitLines_not_nil (s : jsstring) : splitLines s <> [].
Proof.
  destruct s as [|c s]; cbn; [discriminate|].
  destruct (c =? LF)%N; [discriminate|].
  destruct (splitLines s); discriminate.
Qed.

Lemma joinLines_cons (l : jsstring) (ls : list jsstring) :
  ls <> [] -> joinLines (l :: ls) = l ++ LF :: joinLines ls.
Proof. destruct ls; [congruence | reflexivity]. Qed.

(** Joining what [split] gave returns the text. *)
Lemma joinLines_splitLines (s : jsstring) : joinLines (splitLines s) = s.
Proof.
  induction s as [|c s IH]; [reflexivity|].
  cbn [splitLines]. destruct (N.eqb_spec c LF) as [->|Hc].
  - rewrite joinLines_cons by apply splitLines_not_nil. cbn. now rewrite IH.
  - pose proof (splitLines_not_nil s) as Hn.
    destruct (splitLines s) as [|l ls]; [congruence|].
    destruct ls as [|l' ls].
    + cbn in *. now rewrite IH.
    + change (joinLines ((c :: l) :: l' :: ls))
        with (c :: (l ++ LF :: joinLines (l' :: ls))).
      change (joinLines (l :: l' :: ls))
        with (l ++ LF :: joinLines (l' :: ls)) in IH.
      now rewrite IH.
Qed.

(** The pieces [split] gives hold no newline. *)
Lemma splitLines_no_LF (s l : jsstring) :
  In l (splitLines s) -> ~ In LF l.
Proof.
  revert l. induction s as [|c s IH]; intros l Hin.
  - destruct Hin as [<-|[]]. intros [].
  - cbn [splitLines] in Hin. destruct (N.eqb_spec c LF) as [->|Hc].
    + destruct Hin as [<-|Hin]; [intros [] | apply IH, Hin].
    + pose proof (splitLines_not_nil s) as Hn.
      destruct (splitLines s) as [|l0 ls]; [congruence|].
      destruct Hin as [<-|Hin].
      * intros [E|Hl]; [congruence|]. apply (IH l0); [left; reflexivity | exact Hl].
      * apply IH. right. exact Hin.
Qed.

(** Splitting a text joined from pieces without newlines returns the
    pieces. *)
Lemma splitLines_app_LF (l s : jsstring) :
  ~ In LF l -> splitLines (l ++ LF :: s) = l :: splitLines s.
Proof.
  induction l as [|c l IH]; intros H.
  - cbn. reflexivity.
  - cbn [app splitLines]. destruct (N.eqb_spec c LF) as [->|Hc].
    + exfalso. apply H. left. reflexivity.
    + rewrite IH; [reflexivity|]. intros Hin. apply H. right. exact Hin.
Qed.

Lemma splitLines_single (l : jsstring) : ~ In LF l -> splitLines l = [l].
Proof.
  induction l as [|c l IH]; intros H; [reflexivity|].
  cbn [splitLines]. destruct (N.eqb_spec c LF) as [->|Hc].
  - exfalso. apply H. left. reflexivity.
  - rewrite IH; [reflexivity|]. intros Hin. apply H. right. exact Hin.
Qed.

Lemma splitLines_joinLines (ls : list jsstring) :
  ls <> [] -> (forall l, In l ls -> ~ In LF l) ->
  splitLines (joinLines ls) = ls.
Proof.
  induction ls as [|l ls IH]; intros Hn H; [congruence|].
  destruct ls as [|l' ls].
  - cbn. apply splitLines_single, H. left. reflexivity.
  - rewrite joinLines_cons by discriminate.
    rewrite splitLines_app_LF by (apply H; left; reflexivity).
    f_equal. apply IH; [discriminate|]. intros x Hx. apply H. right. exact Hx.
Qed.

Lemma u_digit_chars (d : Decimal.uint) :
  forall c, In c (u (NilEmpty.string_of_uint d)) -> (48 <= c <= 57)%N.
Proof.
  induction d; intros c Hin; cbn in Hin;
    try (destruct Hin as [<-|Hin]; [cbn; lia | apply IHd, Hin]).
  contradiction.
Qed.

Lemma u_number_chars (d : Decimal.uint) :
  forall c, In c (u (NilZero.string_of_uint d)) -> (48 <= c <= 57)%N.
Proof.
  destruct d; try exact (u_digit_chars _).
  intros c [<-|[]]. cbn. lia.
Qed.

(** A rendered number consists of digits and, when negative, a sign. *)
Lemma numToString_chars (z : Z) (c : N) :
  In c (numToString z) -> (48 <= c <= 57)%N \/ c = 45%N.
Proof.
  unfold numToString. destruct (Z.to_int z) as [d|d]; cbn.
  - intros Hin. left. apply (u_number_chars _ _ Hin).
  - intros [<-|Hin]; [right; reflexivity|].
    left. apply (u_number_chars _ _ Hin).
Qed.

Lemma numToString_no_LF (z : Z) : ~ In LF (numToString z).
Proof.
  intros H. apply numToString_chars in H. unfold LF in H.
  destruct H as [H|H]; [lia | discriminate].
Qed.

Lemma In_firstn (A : Type) (n : nat) (s : list A) (x : A) :
  In x (firstn n s) -> In x s.
Proof.
  revert s. induction n as [|n IH]; intros s H; [contradiction|].
  destruct s as [|y s]; [contradiction|].
  destruct H as [<-|H]; [left; reflexivity | right; apply IH, H].
Qed.

Lemma In_skipn (A : Type) (n : nat) (s : list A) (x : A) :
  In x (skipn n s) -> In x s.
Proof.
  revert s. induction n as [|n IH]; intros s H; [exact H|].
  destruct s as [|y s]; [exact H|]. right. apply IH, H.
Qed.

Lemma slice_incl (A : Type) (s : list A) (a b : Z) (x : A) :
  In x (slice s a b) -> In x s.
Proof. unfold slice. intros H. apply In_firstn, In_skipn in H. exact H. Qed.

Lemma slice_length_le (A : Type) (s : list A) (a b : Z) :
  (0 <= a <= b)%Z -> (List.length (slice s a b) <= Z.to_nat (b - a))%nat.
Proof.
  intros H. unfold slice. rewrite length_firstn.
  etransitivity; [apply Nat.le_min_l|].
  unfold clampIndex.
  destruct (Z.ltb_spec a 0); [lia|]. destruct (Z.ltb_spec b 0); lia.
Qed.

Lemma slice_all (A : Type) (s : list A) (b : Z) :
  (Z.of_nat (List.length s) <= b)%Z -> slice s 0 b = s.
Proof.
  intros H. unfold slice, clampIndex.
  destruct (Z.ltb_spec b 0); [lia|]. cbn [Z.ltb Z.compare].
  rewrite Z.min_r by lia. rewrite Z.min_l by lia.
  rewrite Z.sub_0_r, Nat2Z.id. cbn [Z.to_nat skipn]. apply firstn_all.
Qed.

Lemma toLowerCase_app (a b : jsstring) :
  toLowerCase (a ++ b) = toLowerCase a ++ toLowerCase b.
Proof. apply flat_map_app. Qed.

End LineFacts.

(** ** techniques/git.ts: the log and diff branches *)

Section GitLogFacts.
Import Git.

Local Open Scope Z_scope.

Lemma logLine_short (line : jsstring) :
  (List.length line <= 80)%nat -> logLine line = line.
Proof.
  intros H. unfold logLine.
  destruct (Nat.ltb_spec 80 (List.length line)); [lia | reflexivity].
Qed.

Lemma logLine_length (line : jsstring) : (List.length (logLine line) <= 80)%nat.
Proof.
  unfold logLine. destruct (Nat.ltb_spec 80 (List.length line)); [|lia].
  rewrite length_app. pose proof (@slice_length_le _ line 0 77). cbn in *. lia.
Qed.

Lemma logLine_no_LF (line : jsstring) : ~ In LF line -> ~ In LF (logLine line).
Proof.
  intros H. unfold logLine. destruct (80 <? List.length line)%nat; [|exact H].
  intros Hin. apply in_app_or in Hin. destruct Hin as [Hin|Hin].
  - apply H. apply (slice_incl _ _ _ _ Hin).
  - cbn in Hin. unfold LF in Hin. intuition discriminate.
Qed.

(** A log within the limits is returned as it is: at most [limit] lines,
    none longer than 80 characters. *)
Theorem compactLog_within_limits (output : jsstring) (limit : Z) :
  Z.of_nat (List.length (splitLines output)) <= limit ->
  (forall line, In line (splitLines output) -> (List.length line <= 80)%nat) ->
  compactLog output limit = output.
Proof.
  intros Hl Hw. unfold compactLog.
  rewrite Z.min_l by lia. rewrite Nat2Z.id, firstn_all.
  destruct (Z.ltb_spec limit (Z.of_nat (List.length (splitLines output))));
    [lia|].
  rewrite app_nil_r.
  rewrite (map_ext_in logLine (fun l => l)).
  - rewrite map_id. apply joinLines_splitLines.
  - intros l Hin. apply logLine_short, Hw, Hin.
Qed.

Lemma compactLog_within_limits_witness :
  compactLog (u "a1b2c3 fix parser" ++ LF :: u "d4e5f6 add tests") 20
  = u "a1b2c3 fix parser" ++ LF :: u "d4e5f6 add tests".
Proof.
  apply compactLog_within_limits.
  - vm_compute. discriminate.
  - intros line Hin. vm_compute in Hin.
    destruct Hin as [<-|[<-|[]]]; cbn; lia.
Defined.

(** Whatever the log, the result has at most [limit] commit lines, none
    longer than 80 characters, followed by at most one trailer line. *)
Theorem compactLog_bounded (output : jsstring) (limit : Z) :
  0 <= limit ->
  exists kept trailer,
    splitLines (compactLog output limit) = kept ++ trailer
    /\ Z.of_nat (List.length kept) <= limit
    /\ (forall line, In line kept -> (List.length line <= 80)%nat)
    /\ (List.length trailer <= 1)%nat.
Proof.
  intros Hl. unfold compactLog.
  set (lines := splitLines output).
  set (len := Z.of_nat (List.length lines)).
  set (kept := map logLine (firstn (Z.to_nat (Z.min len limit)) lines)).
  set (trailer := if limit <? len
                  then [u "... +" ++ numToString (len - limit)
                          ++ u " more commits"]
                  else []).
  exists kept, trailer.
  assert (Hlen : 1 <= len).
  { subst len lines. pose proof (splitLines_not_nil output).
    destruct (splitLines output); [congruence | cbn; lia]. }
  split; [|split; [|split]].
  - apply splitLines_joinLines.
    + subst kept trailer. destruct (Z.ltb_spec limit len).
      * intros E. apply app_eq_nil in E. destruct E as [_ E]. discriminate.
      * rewrite app_nil_r. rewrite Z.min_l by lia. subst len.
        rewrite Nat2Z.id, firstn_all. subst lines.
        pose proof (splitLines_not_nil output).
        destruct (splitLines output); [congruence | discriminate].
    + intros l Hin. apply in_app_or in Hin. destruct Hin as [Hin|Hin].
      * subst kept. apply in_map_iff in Hin. destruct Hin as (x & <- & Hx).
        apply logLine_no_LF. apply In_firstn in Hx.
        apply (splitLines_no_LF _ _ Hx).
      * subst trailer. destruct (limit <? len); [|contradiction].
        destruct Hin as [<-|[]]. intros Hin.
        apply in_app_or in Hin. destruct Hin as [Hin|Hin];
          [cbn in Hin; unfold LF in Hin; intuition discriminate|].
        apply in_app_or in Hin. destruct Hin as [Hin|Hin];
          [exact (numToString_no_LF _ Hin)|].
        cbn in Hin; unfold LF in Hin; intuition discriminate.
  - subst kept. rewrite length_map, length_firstn. lia.
  - intros line Hin. subst kept. apply in_map_iff in Hin.
    destruct Hin as (x & <- & _). apply logLine_length.
  - subst trailer. destruct (limit <? len); cbn; lia.
Qed.

Lemma compactLog_bounded_witness :
  exists kept trailer,
    splitLines (compactLog (u "a" ++ LF :: u "b" ++ LF :: u "c") 2)
    = kept ++ trailer
    /\ Z.of_nat (List.length kept) <= 2
    /\ (forall line, In line kept -> (List.length line <= 80)%nat)
    /\ (List.length trailer <= 1)%nat.
Proof.
  apply (@compactLog_bounded (u "a" ++ LF :: u "b" ++ LF :: u "c") 2). lia.
Defined.

End GitLogFacts.

Section GitDiffFacts.
Import Git.

Local Open Scope Z_scope.

(** A line that opens neither a file nor a hunk leaves the loop's initial
    state as it is. *)
Lemma diffLine_plain (maxLines : Z) (line : jsstring) :
  0 < maxLines ->
  startsWith line (u "diff --git") = false ->
  startsWith line (u "@@") = false ->
  diffLine maxLines diffStart line = diffStart.
Proof.
  intros Hm Hd Hh. unfold diffLine. cbn [stopped diffStart d_result List.length].
  destruct (Z.leb_spec maxLines (Z.of_nat 0)); [cbn in *; lia|].
  rewrite Hd, Hh. reflexivity.
Qed.

Lemma diffLines_plain (lines : list jsstring) (maxLines : Z) :
  0 < maxLines ->
  (forall line, In line lines ->
     startsWith line (u "diff --git") = false
     /\ startsWith line (u "@@") = false) ->
  fold_left (diffLine maxLines) lines diffStart = diffStart.
Proof.
  intros Hm. induction lines as [|l ls IH]; intros H; [reflexivity|].
  cbn [fold_left]. destruct (H l (or_introl eq_refl)) as [Hd Hh].
  rewrite diffLine_plain by assumption.
  apply IH. intros x Hx. apply H. right. exact Hx.
Qed.

(** Text that is not a diff (no "diff --git" line, no "@@" line) is
    dropped whole: [compactDiff] returns the empty string, and so does
    [compactGitOutput] for a git command that mentions "diff". *)
Theorem compactDiff_drops_plain_text (output command : jsstring)
  (maxLines : Z) :
  0 < maxLines ->
  (forall line, In line (splitLines output) ->
     startsWith line (u "diff --git") = false
     /\ startsWith line (u "@@") = false) ->
  compactDiff output maxLines = []
  /\ (isGitCommand command = true ->
      includes (toLowerCase command) (u "diff") = true ->
      compactGitOutput output command = Some []).
Proof.
  intros Hm H.
  pose proof (diffLines_plain (splitLines output) Hm H) as E.
  assert (Hm50 : 0 < 50) by lia.
  pose proof (diffLines_plain (splitLines output) Hm50 H) as E50.
  split.
  - unfold compactDiff, diffEntries. rewrite E. reflexivity.
  - intros Hg Hd. unfold compactGitOutput. rewrite Hg, Hd. cbn [negb].
    unfold compactDiff, diffEntries. rewrite E50. reflexivity.
Qed.

Lemma compactDiff_drops_plain_text_witness :
  compactDiff (u "fatal: not a git repository") 50 = []
  /\ compactGitOutput (u "fatal: not a git repository") (u "git diff HEAD~1")
     = Some [].
Proof.
  assert (Hp : forall line,
             In line (splitLines (u "fatal: not a git repository")) ->
             startsWith line (u "diff --git") = false
             /\ startsWith line (u "@@") = false).
  { intros line Hin. vm_compute in Hin. destruct Hin as [<-|[]].
    split; reflexivity. }
  assert (Hm : 0 < 50) by lia.
  destruct (@compactDiff_drops_plain_text
              (u "fatal: not a git repository") (u "git diff HEAD~1") 50
              Hm Hp) as [H1 H2].
  split; [exact H1 | apply H2; reflexivity].
Defined.

Lemma fileStats_length (d : diff) : (List.length (fileStats d) <= 1)%nat.
Proof. unfold fileStats. destruct (_ && _); cbn; lia. Qed.

Lemma hunkContent_grows (d : diff) (line : jsstring) :
  stopped (hunkContent d line) = stopped d
  /\ (List.length (d_result (hunkContent d line))
      <= List.length (d_result d) + 2)%nat.
Proof.
  unfold hunkContent.
  repeat match goal with
         | |- context [if ?b then _ else _] => destruct b
         end;
    cbn [stopped d_result]; rewrite ?length_app; cbn [List.length];
    split; (reflexivity || lia).
Qed.

Lemma diffLine_withinCap (maxLines : Z) (d : diff) (line : jsstring) :
  withinCap maxLines d -> withinCap maxLines (diffLine maxLines d line).
Proof.
  unfold withinCap, diffLine. intros H.
  destruct (stopped d) eqn:Es; [rewrite Es; exact H|].
  destruct (Z.leb_spec maxLines (Z.of_nat (List.length (d_result d)))).
  { cbn [stopped d_result]. rewrite length_app. cbn [List.length]. lia. }
  destruct (startsWith line (u "diff --git")).
  { cbn [stopped d_result]. rewrite !length_app. cbn [List.length].
    pose proof (fileStats_length d). lia. }
  destruct (startsWith line (u "@@")).
  { cbn [stopped d_result]. rewrite length_app. cbn [List.length]. lia. }
  destruct (inHunk d); [|rewrite Es; lia].
  destruct (hunkContent_grows d line) as [-> Hg]. rewrite Es. lia.
Qed.

(** However long the diff, the result of [compactDiff] is built from at
    most [maxLines + 3] entries. *)
Theorem compactDiff_entries_bounded (output : jsstring) (maxLines : Z) :
  0 <= maxLines ->
  compactDiff output maxLines = joinLines (diffEntries output maxLines)
  /\ Z.of_nat (List.length (diffEntries output maxLines)) <= maxLines + 3.
Proof.
  intros Hm. split; [reflexivity|]. unfold diffEntries.
  assert (H : withinCap maxLines
                (fold_left (diffLine maxLines) (splitLines output) diffStart)).
  { assert (H0 : withinCap maxLines diffStart) by (unfold withinCap; cbn; lia).
    revert H0. generalize diffStart.
    induction (splitLines output) as [|l ls IH]; intros d Hd; [exact Hd|].
    cbn [fold_left]. apply IH, diffLine_withinCap, Hd. }
  unfold withinCap in H. rewrite length_app.
  pose proof (fileStats_length
                (fold_left (diffLine maxLines) (splitLines output) diffStart)).
  destruct (stopped _); lia.
Qed.

Lemma compactDiff_entries_bounded_witness :
  Z.of_nat (List.length
              (diffEntries
                 (u "diff --git a/x b/x" ++ LF :: u "@@ -1 +1 @@"
                  ++ LF :: u "-old" ++ LF :: u "+new") 2)) <= 2 + 3.
Proof.
  apply (@compactDiff_entries_bounded
           (u "diff --git a/x b/x" ++ LF :: u "@@ -1 +1 @@"
            ++ LF :: u "-old" ++ LF :: u "+new") 2). lia.
Defined.

(** The case of the test suite. *)
Example compactDiff_file_and_stats :
  compactDiff
    (u "diff --git a/src/file.ts b/src/file.ts" ++ LF :: u "@@ -1,5 +1,5 @@"
     ++ LF :: u "- old line" ++ LF :: u "+ new line") 50
  = joinLines
      [LF :: [55357; 56516]%N ++ u " src/file.ts"; u "  @@ -1,5 +1,5 @@";
       u "  - old line"; u "  + new line"; u "  +1 -1"].
Proof. vm_compute. reflexivity. Qed.

End GitDiffFacts.

Section GitStatusFacts.
Import Git.

Local Open Scope Z_scope.

Lemma noLF_app (a b : jsstring) : noLF a -> noLF b -> noLF (a ++ b).
Proof. unfold noLF. intros Ha Hb H. apply in_app_or in H. tauto. Qed.

Lemma noLF_number (z : Z) : noLF (numToString z).
Proof. apply numToString_no_LF. Qed.

Lemma noLF_slice (s : jsstring) (a b : Z) : noLF s -> noLF (slice s a b).
Proof. unfold noLF. intros H Hin. apply H, (slice_incl _ _ _ _ Hin). Qed.

Lemma Forall_snoc (A : Type) (P : A -> Prop) (l : list A) (x : A) :
  Forall P l -> P x -> Forall P (l ++ [x]).
Proof. intros Hl Hx. apply Forall_app. split; [exact Hl | auto]. Qed.

Lemma classify_filesNoLF (stats : StatusStats) (line : jsstring) :
  noLF line -> filesNoLF stats -> filesNoLF (classify stats line).
Proof.
  intros Hl (Hs & Hm & Hu). unfold classify, filesNoLF.
  assert (Hf : noLF (sliceFrom line 3)) by (apply noLF_slice, Hl).
  destruct (str_eqb _ _); cbn.
  - repeat split; auto using Forall_snoc.
  - destruct (isStagedCode _), (isU _), (isModifiedCode _); cbn;
      repeat split; auto using Forall_snoc.
Qed.

Lemma scanStatus_noLF (lines : list jsstring) :
  Forall noLF lines ->
  forall i branchName stats,
    noLF branchName -> filesNoLF stats ->
    noLF (fst (scanStatus i lines (branchName, stats)))
    /\ filesNoLF (snd (scanStatus i lines (branchName, stats))).
Proof.
  induction 1 as [|line lines Hl _ IH]; intros i b s Hb Hs; [auto|].
  cbn [scanStatus].
  destruct (_ && startsWith _ _).
  - apply IH; [apply noLF_slice, Hl | exact Hs].
  - destruct (_ || _); [apply IH; assumption|].
    apply IH; [exact Hb | apply classify_filesNoLF; assumption].
Qed.

Lemma bucket_bounded (title : jsstring) (n : Z) (files : list jsstring)
  (shown : nat) :
  noLF title -> Forall noLF files ->
  Forall noLF (bucket title n files shown)
  /\ (List.length (bucket title n files shown) <= shown + 2)%nat.
Proof.
  intros Ht Hf. unfold bucket. destruct (0 <? n); [|split; [constructor | cbn; lia]].
  split.
  - constructor; [repeat apply noLF_app; auto using noLF_number; now vm_compute; intuition discriminate|].
    apply Forall_app. split.
    + apply Forall_forall. intros x Hx. apply in_map_iff in Hx.
      destruct Hx as (f & <- & Hin). apply noLF_app.
      * vm_compute. intuition discriminate.
      * apply slice_incl in Hin. rewrite Forall_forall in Hf. apply Hf, Hin.
    + destruct (_ <? _)%nat; constructor; [|constructor].
      repeat apply noLF_app; auto using noLF_number;
        vm_compute; intuition discriminate.
  - cbn [List.length app]. rewrite length_app, length_map.
    match goal with
    | |- context [List.length (slice ?f ?a ?b)] =>
        assert (Hs : (List.length (slice f a b) <= shown)%nat)
    end.
    { etransitivity; [apply slice_length_le; lia|].
      rewrite Z.sub_0_r, Nat2Z.id. reflexivity. }
    unfold jsstring in *.
    destruct (_ <? _)%nat; cbn [List.length]; lia.
Qed.

Lemma renderStatus_bounded (branchName : jsstring) (stats : StatusStats) :
  noLF branchName -> filesNoLF stats ->
  Forall noLF (renderStatus branchName stats)
  /\ (List.length (renderStatus branchName stats) <= 21)%nat.
Proof.
  intros Hb (Hs & Hm & Hu). unfold renderStatus.
  destruct (@bucket_bounded ([9989]%N ++ u " Staged: ") (staged stats)
              (stagedFiles stats) 5) as [F1 L1];
    [vm_compute; intuition discriminate | exact Hs |].
  destruct (@bucket_bounded ([55357; 56541]%N ++ u " Modified: ")
              (modified stats) (modifiedFiles stats) 5) as [F2 L2];
    [vm_compute; intuition discriminate | exact Hm |].
  destruct (@bucket_bounded ([10067]%N ++ u " Untracked: ")
              (untracked stats) (untrackedFiles stats) 3) as [F3 L3];
    [vm_compute; intuition discriminate | exact Hu |].
  split.
  - repeat (apply Forall_app; split); auto.
    + destruct (isNil branchName); constructor; [|constructor].
      apply noLF_app; [vm_compute; intuition discriminate|].
      apply noLF_app; [vm_compute; intuition discriminate | exact Hb].
    + destruct (0 <? conflicts stats); constructor; [|constructor].
      repeat apply noLF_app; auto using noLF_number;
        vm_compute; intuition discriminate.
  - rewrite !length_app.
    destruct (isNil branchName), (0 <? conflicts stats); cbn [List.length]; lia.
Qed.

(** The status summary is never empty and never longer than 21 lines,
    however many files the status lists. *)
Theorem compactStatus_bounded (output : jsstring) :
  compactStatus output <> []
  /\ (List.length (splitLines (compactStatus output)) <= 21)%nat.
Proof.
  unfold compactStatus.
  destruct (_ || _); [split; [discriminate | cbn; lia]|].
  match goal with
  | |- context [scanStatus ?i ?l (?b, ?s)] =>
      assert (Hinv : noLF (fst (scanStatus i l (b, s)))
                     /\ filesNoLF (snd (scanStatus i l (b, s))))
  end.
  { apply scanStatus_noLF.
    - apply Forall_forall. intros l Hl. exact (splitLines_no_LF _ _ Hl).
    - intros [].
    - repeat split; constructor. }
  destruct (scanStatus 0 (splitLines output) ([], emptyStats))
    as [branchName stats].
  cbn [fst snd] in Hinv. destruct Hinv as [Hb Hs].
  destruct (isNil (joinLines (renderStatus branchName stats))) eqn:En;
    [split; [discriminate | cbn; lia]|].
  split; [intros H; rewrite H in En; discriminate En|].
  destruct (renderStatus_bounded Hb Hs) as [F L].
  rewrite splitLines_joinLines; [exact L | |].
  - intros H. rewrite H in En. discriminate En.
  - intros l Hl. rewrite Forall_forall in F. apply F, Hl.
Qed.

End GitStatusFacts.

(** ** techniques/build.ts *)

Section BuildFacts.
Import Build.

Local Open Scope Z_scope.

(** The cases of the test suite. *)
Example build_not_a_build_command :
  filterBuildOutput (u "output") (u "ls -la") = None.
Proof. reflexivity. Qed.

Example build_two_units :
  filterBuildOutput
    (u "   Compiling foo v1.0.0" ++ LF :: u "   Compiling bar v2.0.0"
     ++ LF :: u "    Finished dev [unoptimized] target(s) in 2.5s")
    (u "cargo build")
  = Some ([10003]%N ++ u " Build successful (2 units compiled)").
Proof. vm_compute. reflexivity. Qed.

Lemma count_snoc (p : jsstring -> bool) (lines : list jsstring)
  (line : jsstring) :
  count p (lines ++ [line]) = count p lines + (if p line then 1 else 0).
Proof.
  unfold count. rewrite filter_app, length_app. cbn [filter].
  destruct (p line); cbn [List.length]; lia.
Qed.

Lemma count_none (p : jsstring -> bool) (lines : list jsstring) :
  (forall line, In line lines -> p line = false) -> count p lines = 0.
Proof.
  unfold count. induction lines as [|l ls IH]; intros Hp; [reflexivity|].
  cbn [filter]. rewrite Hp by (left; reflexivity).
  apply IH. intros x Hx. apply Hp. right. exact Hx.
Qed.

Lemma snoc_not_nil (A : Type) (l : list A) (x : A) : l ++ [x] <> [].
Proof. destruct l; discriminate. Qed.

Lemma scanLine_scanned (lines : list jsstring) (s : scan) (line : jsstring) :
  scanned lines s -> scanned (lines ++ [line]) (scanLine s line).
Proof.
  intros (Hc & He & Hw & Hn). unfold scanned.
  rewrite !count_snoc.
  unfold startsError, countsAsWarning, reachesTests in *.
  unfold scanLine.
  destruct (test compiling line); cbn [negb andb stats compiled errors
    warnings inErrorBlock currentError];
    [repeat split; (lia || assumption)|].
  destruct (isSkipLine line); cbn [negb andb];
    [repeat split; (lia || assumption)|].
  destruct (isErrorStart line); cbn [negb andb stats compiled errors
    warnings inErrorBlock currentError].
  { destruct (inErrorBlock s) eqn:Eb; cbn [andb].
    - destruct (isNil (currentError s)) eqn:En; cbn [negb].
      + exfalso. apply (Hn eq_refl). destruct (currentError s);
          [reflexivity | discriminate En].
      + unfold pushError. cbn [compiled errors warnings].
        rewrite length_app. cbn [List.length].
        repeat split; (lia || discriminate || assumption).
    - repeat split; (lia || discriminate || assumption). }
  destruct (isWarning line); cbn [stats compiled errors warnings
    inErrorBlock currentError].
  { rewrite length_app. cbn [List.length].
    repeat split; (lia || assumption). }
  destruct (inErrorBlock s) eqn:Eb;
    [|rewrite Eb; repeat split; (lia || assumption)].
  destruct (isNil (trim line));
    [destruct (_ && (3 <? _)%nat) | destruct (_ || _)];
    unfold pushError;
    cbn [stats compiled errors warnings inErrorBlock currentError];
    rewrite ?length_app; cbn [List.length];
    repeat split; try lia; try assumption;
    try (intros Hf; discriminate Hf); try (intros _; apply snoc_not_nil).
Qed.

Lemma fold_scanned (rest seen : list jsstring) (s : scan) :
  scanned seen s -> scanned (seen ++ rest) (fold_left scanLine rest s).
Proof.
  revert seen s. induction rest as [|l rest IH]; intros seen s H.
  - rewrite app_nil_r. exact H.
  - cbn [fold_left].
    replace (seen ++ l :: rest) with ((seen ++ [l]) ++ rest)
      by (rewrite <- app_assoc; reflexivity).
    apply IH, scanLine_scanned, H.
Qed.

Lemma collect_counts (lines : list jsstring) :
  compiled (collect lines) = count (test compiling) lines
  /\ Z.of_nat (List.length (errors (collect lines)))
     = count startsError lines
  /\ Z.of_nat (List.length (warnings (collect lines)))
     = count countsAsWarning lines.
Proof.
  unfold collect.
  assert (H : scanned lines
                (fold_left scanLine lines (Scan (Stats 0 [] []) false [] 0))).
  { apply (@fold_scanned lines []). repeat split; discriminate. }
  destruct H as (Hc & He & Hw & Hn).
  destruct (inErrorBlock _) eqn:Eb; cbn [andb].
  - destruct (isNil (currentError _)) eqn:En; cbn [negb].
    + exfalso. apply (Hn eq_refl).
      destruct (currentError _); [reflexivity | discriminate En].
    + unfold pushError. cbn [compiled errors warnings].
      rewrite length_app. cbn [List.length]. repeat split; lia.
  - repeat split; lia.
Qed.

(** The counts [filterBuildOutput] reports are counts of lines of the
    output: progress lines ("Compiling", "Checking", "Building"), lines
    that start an error, and warning lines.  No error start is lost and
    none is counted twice. *)
Theorem build_counts (output command : jsstring) :
  let s := collect (splitLines output) in
  compiled s = count (test compiling) (splitLines output)
  /\ Z.of_nat (List.length (errors s))
     = count startsError (splitLines output)
  /\ Z.of_nat (List.length (warnings s))
     = count countsAsWarning (splitLines output)
  /\ (isBuildCommand command = true ->
      filterBuildOutput output command
      = Some (if isNil (errors s) && isNil (warnings s)
              then success (compiled s)
              else joinLines (report s))).
Proof.
  cbn zeta. destruct (collect_counts (splitLines output)) as (H1 & H2 & H3).
  repeat split; try assumption.
  intros Hc. unfold filterBuildOutput. rewrite Hc. cbn [negb].
  destruct (_ && _); reflexivity.
Qed.

Lemma build_counts_witness :
  filterBuildOutput (u "error: linker failed" ++ LF :: u "warning: unused")
    (u "cargo build")
  = Some (joinLines
            [[10060]%N ++ u " 1 error(s):"; u "error: linker failed";
             LF :: [9888; 65039]%N ++ u "  1 warning(s)"]).
Proof.
  destruct (build_counts (u "error: linker failed" ++ LF :: u "warning: unused")
              (u "cargo build")) as (_ & _ & _ & H).
  rewrite H by reflexivity. vm_compute. reflexivity.
Defined.

(** A build output without an error start and without a warning line is
    replaced by the one-line success message, which gives the number of
    progress lines. *)
Theorem build_success (output command : jsstring) :
  isBuildCommand command = true ->
  (forall line, In line (splitLines output) ->
     isErrorStart line = false /\ isWarning line = false) ->
  filterBuildOutput output command
  = Some (success (count (test compiling) (splitLines output))).
Proof.
  intros Hc H. unfold filterBuildOutput. rewrite Hc. cbn [negb].
  destruct (collect_counts (splitLines output)) as (Hn & He & Hw).
  rewrite count_none in He.
  2:{ intros line Hin. unfold startsError.
      destruct (H line Hin) as [-> _]. apply andb_false_r. }
  rewrite count_none in Hw.
  2:{ intros line Hin. unfold countsAsWarning.
      destruct (H line Hin) as [_ ->]. apply andb_false_r. }
  destruct (errors _); [|cbn in He; lia].
  destruct (warnings _); [|cbn in Hw; lia].
  cbn [isNil andb]. rewrite Hn. reflexivity.
Qed.

Lemma build_success_witness :
  filterBuildOutput
    (u "   Compiling foo v1.0.0" ++ LF :: u "   Compiling bar v2.0.0"
     ++ LF :: u "    Finished dev [unoptimized] target(s) in 2.5s")
    (u "cargo build")
  = Some (success 2).
Proof.
  apply (@build_success
           (u "   Compiling foo v1.0.0" ++ LF :: u "   Compiling bar v2.0.0"
            ++ LF :: u "    Finished dev [unoptimized] target(s) in 2.5s")
           (u "cargo build")).
  - reflexivity.
  - intros line Hin. vm_compute in Hin.
    destruct Hin as [<-|[<-|[<-|[]]]]; vm_compute; split; reflexivity.
Defined.

End BuildFacts.

(** ** config.ts: merging and loading *)

Section ConfigMergeFacts.
Import Config.

Local Open Scope Z_scope.

(** Merging the empty override changes nothing. *)
Theorem mergeConfig_empty (base : RtkConfig) :
  mergeConfig base emptyOverride = base.
Proof.
  destruct base as [e l s [a [te tm] f [se sm] ta b g sr la]]. reflexivity.
Qed.

Lemma normalize_twice (base : JsNumber) (raw : JsValue) :
  normalizeShowUpdateEvery (normalizeShowUpdateEvery base raw) raw
  = normalizeShowUpdateEvery base raw.
Proof.
  unfold normalizeShowUpdateEvery. destruct raw; try reflexivity.
  destruct (isInteger x); reflexivity.
Qed.

Lemma spread_twice (A : Type) (base : A) (override : option A) :
  spread (spread base override) override = spread base override.
Proof. destruct override; reflexivity. Qed.

(** Applying the same override a second time changes nothing more. *)
Theorem mergeConfig_idempotent (base : RtkConfig) (override : ConfigOverride) :
  mergeConfig (mergeConfig base override) override
  = mergeConfig base override.
Proof.
  unfold mergeConfig.
  cbn [enabled logSavings showUpdateEvery techniques ansiStripping
       truncation sourceCodeFiltering smartTruncation testOutputAggregation
       buildOutputFiltering gitCompaction searchResultGrouping
       linterAggregation t_enabled maxChars st_enabled maxLines].
  rewrite normalize_twice, !spread_twice. reflexivity.
Qed.

Lemma normalize_safe (base : JsNumber) (raw : JsValue) :
  safeCadence base -> safeCadence (normalizeShowUpdateEvery base raw).
Proof.
  intros H. unfold normalizeShowUpdateEvery. destruct raw; try exact H.
  destruct (isInteger x); [|exact H].
  exists (Z.max 0 (integerValue x)). split; [reflexivity | lia].
Qed.

(** Whatever the configuration file holds, and whether or not it can be
    read, the loaded configuration has an update cadence that is an
    integer and not negative; merging keeps such a cadence. *)
Theorem loadConfig_cadence (parsed : option ConfigOverride) :
  safeCadence (showUpdateEvery (loadConfig parsed))
  /\ (forall base override,
        safeCadence (showUpdateEvery base) ->
        safeCadence (showUpdateEvery (mergeConfig base override)))
  /\ (parsed = None -> loadConfig parsed = DEFAULT_CONFIG).
Proof.
  assert (Hm : forall base override,
             safeCadence (showUpdateEvery base) ->
             safeCadence (showUpdateEvery (mergeConfig base override))).
  { intros base override H. unfold mergeConfig. cbn [showUpdateEvery].
    apply normalize_safe, H. }
  split; [|split; [exact Hm | intros ->; reflexivity]].
  destruct parsed as [override|]; cbn [loadConfig].
  - apply Hm. exists 10. split; [reflexivity | lia].
  - exists 10. split; [reflexivity | lia].
Qed.

Lemma loadConfig_cadence_witness :
  safeCadence
    (showUpdateEvery
       (mergeConfig DEFAULT_CONFIG
          (MkOverride None None (JsNum (Finite (-7) 2)) None))).
Proof.
  destruct (loadConfig_cadence None) as (_ & H & _).
  apply H. exists 10. split; [reflexivity | lia].
Defined.

End ConfigMergeFacts.

(** ** techniques/ansi.ts: what the filter deletes *)

Section AnsiDeletionFacts.
Import Ansi.

Lemma Subseq_refl (s : jsstring) : Subseq s s.
Proof. induction s; constructor; assumption. Qed.

Lemma Subseq_trans (a b c : jsstring) :
  Subseq a b -> Subseq b c -> Subseq a c.
Proof.
  intros Hab Hbc. revert a Hab.
  induction Hbc as [|x b c Hbc IH|x b c Hbc IH]; intros a Hab.
  - exact Hab.
  - inversion Hab; subst; constructor; apply IH; assumption.
  - constructor. apply IH, Hab.
Qed.

Lemma Subseq_length (a b : jsstring) :
  Subseq a b -> List.length a <= List.length b.
Proof. induction 1; cbn; lia. Qed.

Lemma deleteFrom_Subseq (r : re) (s : jsstring) :
  forall skip pv, Subseq (deleteFrom r skip pv s) s.
Proof.
  induction s as [|c s IH]; intros skip pv; cbn [deleteFrom];
    [constructor|].
  destruct skip as [|n]; [|constructor; apply IH].
  destruct (matchHere r pv (c :: s)) as [[[|n] gs]|];
    constructor; apply IH.
Qed.

(** ANSI stripping only deletes: the result is the text with some code
    units removed, in the same order, and never longer than the text. *)
Theorem stripAnsi_only_deletes (t : jsstring) :
  Subseq (stripAnsiFast t) t
  /\ List.length (stripAnsiFast t) <= List.length t.
Proof.
  assert (H : Subseq (stripAnsiFast t) t).
  { rewrite stripAnsiFast_is_stripAnsi. unfold stripAnsi, deleteAll.
    eapply Subseq_trans; [apply deleteFrom_Subseq|].
    eapply Subseq_trans; apply deleteFrom_Subseq. }
  split; [exact H | apply Subseq_length, H].
Qed.

Lemma run_Star (A : Type) (a : re) (st : mstate) (k : mstate -> option A) :
  run (Star a) st k = starLoop a k (List.length (rest st)) st.
Proof. reflexivity. Qed.

(** A greedy class loop followed by something the class excludes: the loop
    takes the whole run. *)
Lemma starLoop_class (A : Type) (p : N -> bool) (k : mstate -> option A)
  (x : A) (tl : jsstring) (cs : list (nat * jsstring)) (xs : jsstring) :
  match tl with c :: _ => p c = false | [] => True end ->
  forall (pv : option N) (n fuel : nat),
    forallb p xs = true ->
    List.length xs <= fuel ->
    k (MState (prevAfter pv xs) tl (n + List.length xs) cs) = Some x ->
    starLoop (Cls p) k fuel (MState pv (xs ++ tl) n cs) = Some x.
Proof.
  intros Htl. induction xs as [|c xs IH]; intros pv n fuel Hp Hf Hk.
  - cbn [List.length prevAfter fold_left app] in *.
    rewrite Nat.add_0_r in Hk.
    destruct fuel as [|fuel]; cbn [starLoop]; [exact Hk|].
    cbn [run]. unfold step1. cbn [rest].
    destruct tl as [|d tl]; [exact Hk|]. rewrite Htl. exact Hk.
  - cbn [forallb] in Hp. apply andb_true_iff in Hp. destruct Hp as [Hc Hp].
    destruct fuel as [|fuel]; [cbn in Hf; lia|].
    cbn [starLoop]. cbn [run]. unfold step1. cbn [rest app].
    rewrite Hc. cbn [consumed caps].
    destruct (Nat.ltb_spec n (S n)); [|lia].
    fold (starLoop (Cls p) k).
    rewrite (IH (Some c) (S n) fuel); [reflexivity | exact Hp | |].
    + cbn in Hf. lia.
    + cbn [List.length prevAfter fold_left] in Hk.
      replace (S n + List.length xs) with (n + S (List.length xs)) by lia.
      exact Hk.
Qed.

Lemma isLetter_not_param (c : N) : isLetter c = true -> isParam c = false.
Proof.
  unfold isLetter, isParam, isUpper, isLower, isDigit. intros H.
  destruct (N.leb_spec 65 c) as [A|A], (N.leb_spec c 90) as [B|B],
    (N.leb_spec 97 c) as [C|C], (N.leb_spec c 122) as [D|D];
    cbn in H; try discriminate H;
    destruct (N.leb_spec 48 c) as [E|E], (N.leb_spec c 57) as [F|F],
      (N.eqb_spec c 59) as [G|G]; cbn; try reflexivity; lia.
Qed.

(** The CSI pattern at a complete sequence. *)
Lemma csi_matches (pv : option N) (params : jsstring) (final : N)
  (tl : jsstring) :
  forallb isParam params = true -> isLetter final = true ->
  matchHere csi pv (ESC :: 91%N :: params ++ final :: tl)
  = Some (3 + List.length params, []).
Proof.
  intros Hp Hf. unfold matchHere, csi.
  cbn [run]. unfold step1 at 1. cbn [rest]. rewrite N.eqb_refl.
  unfold step1 at 1. cbn [rest]. rewrite N.eqb_refl.
  cbn [consumed caps].
  change ((fix iter (n : nat) (st : mstate) {struct n} :
             option (nat * list (nat * jsstring)) := _) ?n ?st)
    with (starLoop (Cls isParam)
            (fun st' =>
               match step1 isLetter st' with
               | Some st'' => Some (consumed st'', caps st'')
               | None => None
               end) n st).
  cbn [rest]. apply starLoop_class.
  - apply isLetter_not_param, Hf.
  - exact Hp.
  - rewrite length_app. lia.
  - unfold step1. cbn [rest]. rewrite Hf. cbn [consumed caps].
    reflexivity.
Qed.

Lemma deleteFrom_keep (c : N) (r : re) (a s : jsstring) :
  ~ In c a ->
  forall pv,
    deleteFrom (Seq (Chr c) r) 0 pv (a ++ s)
    = a ++ deleteFrom (Seq (Chr c) r) 0 (prevAfter pv a) s.
Proof.
  induction a as [|d a IH]; intros Hc pv; [reflexivity|].
  cbn [app deleteFrom]. rewrite matchHere_first.
  - f_equal. apply IH. intros Hin. apply Hc. right. exact Hin.
  - intros E. apply Hc. left. exact E.
Qed.

Lemma deleteFrom_skip (r : re) (xs s : jsstring) :
  forall pv,
    deleteFrom r (List.length xs) pv (xs ++ s)
    = deleteFrom r 0 (prevAfter pv xs) s.
Proof.
  induction xs as [|c xs IH]; intros pv; [reflexivity|].
  cbn [List.length app deleteFrom]. apply IH.
Qed.


Lemma matchHere_second (c b : N) (r : re) (pv : option N) (s : jsstring) :
  match s with d :: _ => d <> b | [] => True end ->
  matchHere (Seq (Chr c) (Seq (Chr b) r)) pv (c :: s) = None.
Proof.
  intros H. unfold matchHere. cbn [run]. unfold step1 at 1. cbn [rest].
  rewrite N.eqb_refl. unfold step1. cbn [rest].
  destruct s as [|d s]; [reflexivity|].
  destruct (N.eqb_spec b d); [congruence | reflexivity].
Qed.

(** A pattern that begins with ESC [[] or ESC []] deletes nothing from a
    text in which no escape character is followed by that bracket. *)
Lemma deleteFrom_noSequence (b : N) (r : re) (t : jsstring) :
  b = 91%N \/ b = 93%N -> noSequence t = true ->
  forall pv, deleteFrom (Seq (Chr ESC) (Seq (Chr b) r)) 0 pv t = t.
Proof.
  intros Hb. induction t as [|c t IH]; intros Hn pv; [reflexivity|].
  cbn [noSequence] in Hn. apply andb_true_iff in Hn.
  destruct Hn as [Hc Hn]. cbn [deleteFrom].
  assert (E : matchHere (Seq (Chr ESC) (Seq (Chr b) r)) pv (c :: t) = None).
  { destruct (N.eqb_spec c ESC) as [->|Hne].
    - apply matchHere_second. cbn [andb negb] in Hc.
      destruct t as [|d t]; [exact I|]. intros ->.
      destruct Hb as [-> | ->]; discriminate Hc.
    - apply matchHere_first. exact Hne. }
  rewrite E. f_equal. apply IH, Hn.
Qed.


Lemma noSequence_without_escape (t : jsstring) :
  ~ In ESC t -> noSequence t = true.
Proof.
  induction t as [|c t IH]; intros H; [reflexivity|].
  cbn [noSequence]. rewrite IH by (intros Hin; apply H; right; exact Hin).
  destruct (N.eqb_spec c ESC) as [->|_]; [|reflexivity].
  exfalso. apply H. left. reflexivity.
Qed.

Lemma noSequence_app (a b : jsstring) :
  ~ In ESC a -> noSequence b = true -> noSequence (a ++ b) = true.
Proof.
  intros Ha Hb. induction a as [|c a IH]; [exact Hb|].
  cbn [app noSequence].
  rewrite IH by (intros Hin; apply Ha; right; exact Hin).
  destruct (N.eqb_spec c ESC) as [->|_]; [|reflexivity].
  exfalso. apply Ha. left. reflexivity.
Qed.

Lemma noSequence_plain (segs : list segment) (tail : jsstring) :
  Forall wellFormed segs -> noSequence tail = true ->
  noSequence (plain segs tail) = true.
Proof.
  induction 1 as [|[text [params final]] segs (Ht & _) _ IH]; intros Htl;
    [exact Htl|].
  cbn [plain]. apply noSequence_app; [exact Ht | exact (IH Htl)].
Qed.

Lemma csi_pass (segs : list segment) (tail : jsstring) :
  Forall wellFormed segs -> noSequence tail = true ->
  forall pv, deleteFrom csi 0 pv (colored segs tail) = plain segs tail.
Proof.
  induction 1 as [|[text [params final]] segs (Ht & Hp & Hf) _ IH];
    intros Htl pv.
  - cbn [colored plain].
    apply deleteFrom_noSequence; [left; reflexivity | exact Htl].
  - cbn [colored plain fst snd] in *. unfold csi at 1.
    rewrite deleteFrom_keep by exact Ht. fold csi. f_equal.
    cbn [deleteFrom]. rewrite csi_matches by assumption.
    cbn [Nat.add].
    replace (params ++ final :: colored segs tail)
      with ((params ++ [final]) ++ colored segs tail)
      by (rewrite <- app_assoc; reflexivity).
    replace (S (List.length params)) with (List.length (params ++ [final]))
      by (rewrite length_app; cbn; lia).
    rewrite deleteFrom_skip. apply IH, Htl.
Qed.

(** The three passes on complete CSI sequences followed by a tail in which
    no escape character opens a sequence. *)
Lemma stripAnsi_colored (segs : list segment) (tail : jsstring) :
  Forall wellFormed segs -> noSequence tail = true ->
  stripAnsi (colored segs tail) = plain segs tail.
Proof.
  intros Hs Ht. unfold stripAnsi, deleteAll.
  rewrite csi_pass by assumption.
  pose proof (@noSequence_plain segs tail Hs Ht) as Hn.
  assert (E2 : deleteFrom oscParams 0 None (plain segs tail)
               = plain segs tail)
    by (apply deleteFrom_noSequence; [right; reflexivity | exact Hn]).
  rewrite E2. apply deleteFrom_noSequence; [right; reflexivity | exact Hn].
Qed.


(** Text without escape characters of its own, interleaved with complete
    CSI sequences (colours, styles, cursor moves), comes out as the text
    alone. *)
Theorem stripAnsi_removes_csi (segs : list segment) (tail : jsstring) :
  Forall wellFormed segs -> ~ In ESC tail ->
  stripAnsi (colored segs tail) = plain segs tail
  /\ stripAnsiFast (colored segs tail) = plain segs tail.
Proof.
  intros Hs Ht.
  assert (E : stripAnsi (colored segs tail) = plain segs tail)
    by (apply stripAnsi_colored;
        [exact Hs | apply noSequence_without_escape, Ht]).
  split; [exact E | rewrite stripAnsiFast_is_stripAnsi; exact E].
Qed.

Lemma stripAnsi_removes_csi_witness :
  stripAnsi
    (colored [([], (u "31", 109%N)); (u "Red", (u "0", 109%N))] (u " Text"))
  = u "Red Text".
Proof.
  apply (@stripAnsi_removes_csi
           [([], (u "31", 109%N)); (u "Red", (u "0", 109%N))] (u " Text")).
  - repeat constructor; cbn; intuition discriminate.
  - cbn. intuition discriminate.
Defined.



End AnsiDeletionFacts.

(** ** techniques/test-output.ts: classification and failure blocks *)

Section TestScanFacts.
Import TestOutput.

(** The command test is a substring test: a command with "test" anywhere
    in it, in any letter case, is taken for a test run, and its output is
    then always replaced by a summary. *)
Theorem isTestCommand_substring (before word after output : jsstring) :
  toLowerCase word = u "test" ->
  isTestCommand (before ++ word ++ after) = true
  /\ aggregateTestOutput output (before ++ word ++ after) <> None.
Proof.
  intros Hw.
  assert (H : isTestCommand (before ++ word ++ after) = true).
  { unfold isTestCommand. rewrite !toLowerCase_app, Hw.
    unfold TEST_COMMANDS. cbn [map existsb].
    change (toLowerCase (u "test")) with (u "test").
    rewrite includes_middle. reflexivity. }
  split; [exact H|]. unfold aggregateTestOutput. rewrite H. discriminate.
Qed.

Lemma isTestCommand_substring_witness :
  isTestCommand (u "cat la" ++ u "test" ++ u ".log") = true
  /\ aggregateTestOutput (u "all good") (u "cat la" ++ u "test" ++ u ".log")
     <> None.
Proof.
  apply (@isTestCommand_substring (u "cat la") (u "test") (u ".log")
           (u "all good")).
  reflexivity.
Defined.

Lemma failureBlock_more (seen : list jsstring) (line : jsstring)
  (block : list jsstring) :
  failureBlock seen block -> failureBlock (seen ++ [line]) block.
Proof.
  intros (Hne & (pre & post & E) & Hf). split; [exact Hne|].
  split; [|exact Hf]. exists pre, (post ++ [line]).
  rewrite E, <- !app_assoc. reflexivity.
Qed.

(** Closing the pending block. *)
Lemma failureBlock_closed (seen : list jsstring) (line : jsstring)
  (s : scan) :
  currentFailure s <> []
  /\ (exists pre, seen = pre ++ currentFailure s)
  /\ Forall (fun l => isFailureStart l = false) (tl (currentFailure s)) ->
  failureBlock (seen ++ [line]) (currentFailure s).
Proof.
  intros (Hne & (pre & E) & Hf). split; [exact Hne|]. split; [|exact Hf].
  exists pre, [line]. rewrite E at 1. rewrite <- app_assoc. reflexivity.
Qed.

Lemma hd_snoc (block : list jsstring) (line : jsstring) :
  block <> [] -> hd [] (block ++ [line]) = hd [] block
                 /\ tl (block ++ [line]) = tl block ++ [line].
Proof. destruct block; [congruence | split; reflexivity]. Qed.

Lemma scanLine_collecting (seen : list jsstring) (s : scan)
  (line : jsstring) :
  collecting seen s -> collecting (seen ++ [line]) (scanLine s line).
Proof.
  intros (blocks & Hc & Hh & Hb & Hp). unfold collecting, pending in *.
  rewrite filter_app. cbn [filter].
  assert (Hb' : Forall (failureBlock (seen ++ [line])) blocks).
  { eapply Forall_impl; [|exact Hb]. intros b. apply failureBlock_more. }
  assert (Hpush : inFailure s = true ->
                  Forall (failureBlock (seen ++ [line]))
                    (blocks ++ [currentFailure s])).
  { intros Hi. apply Forall_app. split; [exact Hb'|].
    constructor; [|constructor]. apply failureBlock_closed, Hp, Hi. }
  unfold scanLine. destruct (isFailureStart line) eqn:Es.
  - destruct (inFailure s) eqn:Ei; cbn [andb]; cbv iota in Hh.
    + destruct (Hp eq_refl) as (Hne & _).
      destruct (currentFailure s) as [|first rest] eqn:Ecur; [congruence|].
      cbn [isNil negb]. exists (blocks ++ [first :: rest]).
      cbn [collected inFailure currentFailure].
      split; [rewrite Hc, map_app; reflexivity|].
      split; [rewrite map_app;
              exact (f_equal (fun l => l ++ [line]) Hh)|].
      split; [apply Hpush; reflexivity|]. intros _.
      split; [discriminate|]. split; [exists seen; reflexivity | constructor].
    + exists blocks. cbn [collected inFailure currentFailure].
      split; [exact Hc|]. rewrite app_nil_r in Hh.
      split; [rewrite map_app;
              exact (f_equal (fun l => l ++ [line]) Hh)|].
      split; [exact Hb'|]. intros _.
      split; [discriminate|]. split; [exists seen; reflexivity | constructor].
  - rewrite app_nil_r. destruct (inFailure s) eqn:Ei; cbv iota in Hh.
    2:{ exists blocks. rewrite Ei. split; [exact Hc|]. split; [exact Hh|].
        split; [exact Hb'|]. intros Hx. discriminate Hx. }
    destruct (Hp eq_refl) as (Hne & (pre & Epre) & Hf).
    destruct (hd_snoc line Hne) as [Ehd Etl].
    assert (Hclose : exists blocks',
               collected s ++ [joinLines (currentFailure s)]
               = map joinLines blocks'
               /\ map (hd []) (blocks' ++ [])
                  = filter isFailureStart seen
               /\ Forall (failureBlock (seen ++ [line])) blocks'
               /\ (false = true ->
                   @nil jsstring <> []
                   /\ (exists pre', seen ++ [line] = pre' ++ [])
                   /\ Forall (fun l => isFailureStart l = false) (tl []))).
    { exists (blocks ++ [currentFailure s]).
      split; [rewrite Hc, map_app; reflexivity|].
      split; [rewrite app_nil_r; exact Hh|].
      split; [apply Hpush; reflexivity|]. intros Hx. discriminate Hx. }
    assert (Hkeep : exists blocks',
               collected s = map joinLines blocks'
               /\ map (hd []) (blocks' ++ [currentFailure s ++ [line]])
                  = filter isFailureStart seen
               /\ Forall (failureBlock (seen ++ [line])) blocks'
               /\ (true = true ->
                   currentFailure s ++ [line] <> []
                   /\ (exists pre',
                         seen ++ [line] = pre' ++ currentFailure s ++ [line])
                   /\ Forall (fun l => isFailureStart l = false)
                        (tl (currentFailure s ++ [line])))).
    { exists blocks. split; [exact Hc|].
      split; [rewrite map_app in *; cbn [map] in *; rewrite Ehd; exact Hh|].
      split; [exact Hb'|]. intros _.
      split; [apply snoc_not_nil|].
      split; [exists pre; rewrite Epre at 1; rewrite app_assoc; reflexivity|].
      rewrite Etl. apply Forall_app. split; [exact Hf|].
      constructor; [exact Es | constructor]. }
    destruct (isNil (trim line));
      [destruct (_ && (3 <? _)%nat) | destruct (_ || _)];
      cbn [inFailure currentFailure collected];
      first [exact Hclose | exact Hkeep].
Qed.

Lemma fold_collecting (rest seen : list jsstring) (s : scan) :
  collecting seen s -> collecting (seen ++ rest) (fold_left scanLine rest s).
Proof.
  revert seen s. induction rest as [|l rest IH]; intros seen s H.
  - rewrite app_nil_r. exact H.
  - cbn [fold_left].
    replace (seen ++ l :: rest) with ((seen ++ [l]) ++ rest)
      by (rewrite <- app_assoc; reflexivity).
    apply IH, scanLine_collecting, H.
Qed.

(** The failure blocks are, in the order of the output, one block for each
    line that starts a failure: the block begins with that line, goes on
    with lines that follow it directly in the output, and holds no other
    line that starts a failure.  So no failure is lost, reported twice or
    merged into another, and no block is made up. *)
Theorem extractFailures_blocks (lines : list jsstring) :
  exists blocks : list (list jsstring),
    extractFailures lines = map joinLines blocks
    /\ map (hd []) blocks = filter isFailureStart lines
    /\ Forall (failureBlock lines) blocks.
Proof.
  unfold extractFailures.
  assert (H : collecting lines
                (fold_left scanLine lines (Scan false [] 0 []))).
  { apply (@fold_collecting lines []). exists [].
    split; [reflexivity|]. split; [reflexivity|]. split; [constructor|].
    intros Hx. discriminate Hx. }
  destruct H as (blocks & Hc & Hh & Hb & Hp). unfold pending in Hh.
  destruct (inFailure _) eqn:Ei; cbn [andb]; cbv iota in Hh.
  - destruct (Hp eq_refl) as (Hne & (pre & Epre) & Hf).
    destruct (currentFailure _) as [|first rest] eqn:Ecur; [congruence|].
    cbn [isNil negb]. exists (blocks ++ [first :: rest]).
    split; [rewrite Hc, map_app; reflexivity|]. split; [exact Hh|].
    apply Forall_app. split; [exact Hb|]. constructor; [|constructor].
    split; [discriminate|]. split; [|exact Hf].
    exists pre, []. rewrite app_nil_r. exact Epre.
  - exists blocks. rewrite app_nil_r in Hh. auto.
Qed.

(** Two failures of a jest run, the second cut off by the summary line. *)
Example extractFailures_two_blocks :
  extractFailures
    [u "FAIL src/a.test.ts"; u "  expected 1"; u "FAIL src/b.test.ts";
     u "  expected 2"; u "Tests: 2 failed"]
  = [u "FAIL src/a.test.ts" ++ LF :: u "  expected 1";
     u "FAIL src/b.test.ts" ++ LF :: u "  expected 2"].
Proof. vm_compute. reflexivity. Qed.

End TestScanFacts.

Section TestReportFacts.
Import TestOutput.

Local Open Scope Z_scope.

Lemma joinLines_split_entry (pre : list jsstring) (h : jsstring)
  (rest : list jsstring) :
  joinLines (pre ++ (LF :: h) :: rest) = joinLines (pre ++ [] :: h :: rest).
Proof.
  induction pre as [|x pre IH].
  - destruct rest; reflexivity.
  - cbn [app]. rewrite !joinLines_cons by (destruct pre; discriminate).
    now rewrite IH.
Qed.

Lemma noLF_u (s : string) :
  forallb (fun c => negb (c =? LF)%N) (u s) = true -> noLF (u s).
Proof.
  intros H Hin. rewrite forallb_forall in H. specialize (H _ Hin).
  rewrite N.eqb_refl in H. discriminate H.
Qed.

Lemma noLF_cons (c : N) (s : jsstring) : c <> LF -> noLF s -> noLF (c :: s).
Proof. intros Hc Hs [E|Hin]; [congruence | exact (Hs Hin)]. Qed.

Ltac no_newline :=
  repeat first
    [ apply noLF_app | apply noLF_number | apply noLF_slice
    | apply noLF_u; reflexivity | apply noLF_cons; [discriminate|]
    | assumption | intros [] ].

Lemma flat_map_length_le (A B : Type) (f : A -> list B) (k : nat)
  (l : list A) :
  (forall x, In x l -> (List.length (f x) <= k)%nat) ->
  (List.length (flat_map f l) <= k * List.length l)%nat.
Proof.
  induction l as [|x l IH]; intros H; cbn [flat_map List.length]; [lia|].
  rewrite length_app.
  pose proof (H x (or_introl eq_refl)).
  assert (List.length (flat_map f l) <= k * List.length l)%nat
    by (apply IH; intros y Hy; apply H; right; exact Hy).
  lia.
Qed.

Lemma renderFailure_bounded (failure : jsstring) :
  Forall noLF (renderFailure failure)
  /\ (List.length (renderFailure failure) <= 5)%nat.
Proof.
  unfold renderFailure.
  assert (Hl : forall l, In l (splitLines failure) -> noLF l)
    by (intros l Hl; exact (splitLines_no_LF _ _ Hl)).
  assert (H0 : noLF (nth 0 (splitLines failure) [])).
  { destruct (splitLines failure) as [|l ls]; [intros []|].
    apply Hl. left. reflexivity. }
  split.
  - constructor.
    + unfold ellipsisIfLonger. destruct (_ <? _)%nat; no_newline.
    + apply Forall_app. split.
      * apply Forall_forall. intros x Hx. apply in_flat_map in Hx.
        destruct Hx as (l & Hin & Hx). apply slice_incl in Hin.
        destruct (isNil (trim l)); [contradiction|].
        destruct Hx as [<-|[]]. pose proof (Hl _ Hin).
        unfold ellipsisIfLonger. destruct (_ <? _)%nat; no_newline.
      * destruct (_ <? _)%nat; constructor; [|constructor]. no_newline.
  - cbn [List.length app]. rewrite length_app.
    match goal with
    | |- context [List.length (flat_map ?f ?l)] =>
        assert (Hs : (List.length (flat_map f l) <= 1 * List.length l)%nat)
          by (apply flat_map_length_le; intros x _;
              destruct (isNil (trim x)); cbn; lia);
        assert (H3 : (List.length l <= 3)%nat)
          by (etransitivity; [apply slice_length_le; lia | reflexivity])
    end.
    unfold jsstring in *.
    destruct (_ <? _)%nat; cbn [List.length]; lia.
Qed.

Lemma failures_bounded (failures : list jsstring) :
  Forall noLF (flat_map renderFailure (slice failures 0 5))
  /\ (List.length (flat_map renderFailure (slice failures 0 5)) <= 25)%nat.
Proof.
  split.
  - apply Forall_forall. intros x Hx. apply in_flat_map in Hx.
    destruct Hx as (f & _ & Hx).
    destruct (renderFailure_bounded f) as [F _].
    rewrite Forall_forall in F. apply F, Hx.
  - assert (H5 : (List.length (slice failures 0 5) <= 5)%nat)
      by (etransitivity; [apply slice_length_le; lia | reflexivity]).
    pose proof (@flat_map_length_le _ _ renderFailure 5
                  (slice failures 0 5)) as Hf.
    assert (Hle : forall x, In x (slice failures 0 5) ->
                    (List.length (renderFailure x) <= 5)%nat)
      by (intros x _; apply renderFailure_bounded).
    specialize (Hf Hle). unfold jsstring in *. lia.
Qed.

Lemma joinLines_reportLines (summary : TestSummary) :
  joinLines (renderSummary summary) = joinLines (reportLines summary).
Proof.
  unfold renderSummary, reportLines.
  destruct (_ && _); [|reflexivity].
  unfold failuresHeading.
  destruct (0 <? failed summary), (0 <? skipped summary); cbn [app];
    [ exact (joinLines_split_entry [_; _; _; _] _ _)
    | exact (joinLines_split_entry [_; _; _] _ _)
    | exact (joinLines_split_entry [_; _; _] _ _)
    | exact (joinLines_split_entry [_; _] _ _) ].
Qed.

Lemma reportLines_bounded (summary : TestSummary) :
  Forall noLF (reportLines summary)
  /\ (List.length (reportLines summary) <= 32)%nat.
Proof.
  unfold reportLines.
  destruct (failures_bounded (failures summary)) as [F L].
  split.
  - repeat (apply Forall_app; split).
    + repeat constructor; unfold header, passedLine; no_newline.
    + destruct (0 <? failed summary); repeat constructor.
      unfold failedLine; no_newline.
    + destruct (0 <? skipped summary); repeat constructor.
      unfold skippedLine; no_newline.
    + destruct (_ && _); [|constructor].
      repeat (apply Forall_app; split); [| exact F |].
      * repeat constructor; no_newline.
      * destruct (_ <? _)%nat; repeat constructor. no_newline.
  - rewrite !length_app. unfold jsstring in *.
    destruct (0 <? failed summary), (0 <? skipped summary);
      cbn [andb]; [destruct (negb _) | destruct (negb _) | |];
      rewrite ?length_app; try destruct (_ <? _)%nat;
      cbn [List.length]; lia.
Qed.

(** However long the test output and however many failures it has, the
    report has at most 32 lines. *)
Theorem aggregateTestOutput_bounded (output command report : jsstring) :
  aggregateTestOutput output command = Some report ->
  (List.length (splitLines report) <= 32)%nat.
Proof.
  unfold aggregateTestOutput. destruct (negb _); [discriminate|].
  set (r := joinLines (renderSummary (summarize output))).
  intros E. assert (Er : report = r) by congruence.
  subst report. subst r. rewrite joinLines_reportLines.
  destruct (reportLines_bounded (summarize output)) as [F L].
  rewrite splitLines_joinLines; [exact L | discriminate |].
  intros l Hl. rewrite Forall_forall in F. apply F, Hl.
Qed.

Lemma aggregateTestOutput_bounded_witness :
  (List.length
     (splitLines
        (joinLines (renderSummary (summarize (cargoLine ++ cargoReport)))))
   <= 32)%nat.
Proof.
  apply (@aggregateTestOutput_bounded (cargoLine ++ cargoReport)
           (u "cargo test")).
  reflexivity.
Defined.

End TestReportFacts.

(** ** plugin.ts: the idle hook *)

Section IdleFacts.
Import Config Metrics Plugin.

Local Open Scope Z_scope.

Lemma mapGet_set_same (m : TurnCounts) (key : jsstring) (value : Z) :
  mapGet (mapSet m key value) key = Some value.
Proof.
  induction m as [|[k v] m IH]; cbn [mapSet mapGet].
  - destruct (str_eqb_eq key key) as [_ H]. rewrite (H eq_refl). reflexivity.
  - destruct (str_eqb k key) eqn:E; cbn [mapGet]; rewrite E;
      [reflexivity | exact IH].
Qed.

Lemma mapGet_set_other (m : TurnCounts) (key other : jsstring) (value : Z) :
  other <> key -> mapGet (mapSet m key value) other = mapGet m other.
Proof.
  intros Hne. induction m as [|[k v] m IH]; cbn [mapSet mapGet].
  - destruct (str_eqb key other) eqn:E; [|reflexivity].
    apply str_eqb_eq in E. congruence.
  - destruct (str_eqb k key) eqn:E; cbn [mapGet].
    + apply str_eqb_eq in E. subst k.
      destruct (str_eqb key other) eqn:E'; [|reflexivity].
      apply str_eqb_eq in E'. congruence.
    + rewrite IH. reflexivity.
Qed.

Lemma toasts_app (a b : list Notice) : toasts (a ++ b) = toasts a + toasts b.
Proof. unfold toasts. rewrite filter_app, length_app. lia. Qed.

(** One more turn crosses a multiple of [n] exactly when the new count is
    one. *)
Lemma next_multiple (c n : Z) :
  0 <= c -> 0 < n ->
  (c + 1) / n - c / n = (if (c + 1) mod n =? 0 then 1 else 0).
Proof.
  intros Hc Hn.
  pose proof (Z.div_mod c n ltac:(lia)) as Hd.
  pose proof (Z.mod_pos_bound c n Hn) as Hb.
  destruct (Z.eq_dec (c mod n + 1) n) as [E|E].
  - assert (Hq : (c + 1) / n = c / n + 1).
    { symmetry. apply (Z.div_unique (c + 1) n (c / n + 1) 0); lia. }
    assert (Hm : (c + 1) mod n = 0).
    { symmetry. apply (Z.mod_unique (c + 1) n (c / n + 1) 0); lia. }
    rewrite Hq, Hm. cbn. lia.
  - assert (Hq : (c + 1) / n = c / n).
    { symmetry. apply (Z.div_unique (c + 1) n (c / n) (c mod n + 1)); lia. }
    assert (Hm : (c + 1) mod n = c mod n + 1).
    { symmetry. apply (Z.mod_unique (c + 1) n (c / n) (c mod n + 1)); lia. }
    rewrite Hq, Hm. destruct (Z.eqb_spec (c mod n + 1) 0); lia.
Qed.

Lemma onEvent_idle (config : RtkConfig) (metrics : list MetricRecord)
  (session : jsstring) (counts : TurnCounts) (n : Z) :
  session <> [] -> recordsOf metrics session <> [] ->
  showUpdateEvery config = ofZ n -> 0 <= n ->
  0 <= turnsOf counts session ->
  let r := onEvent config metrics (u "session.idle") (Some session) None
             counts in
  turnsOf (fst r) session = turnsOf counts session + 1
  /\ (forall other, other <> session ->
        mapGet (fst r) other = mapGet counts other)
  /\ toasts (snd r)
     = (if n =? 0 then 0
        else (turnsOf counts session + 1) / n - turnsOf counts session / n).
Proof.
  intros Hs Hr He Hn Hc. cbn zeta. unfold onEvent.
  change (str_eqb (u "session.idle") (u "session.idle")) with true.
  cbn [negb]. unfold resolveSession. cbn [nonEmpty].
  destruct session as [|c0 session0] eqn:Es; [congruence|]. cbn [isNil].
  rewrite <- Es in *. clear Es.
  destruct (recordsOf metrics session) as [|r0 rs] eqn:Er; [congruence|].
  cbn [isNil fst snd]. split; [|split].
  - unfold turnsOf at 1. rewrite mapGet_set_same. reflexivity.
  - intros other Ho. apply mapGet_set_other, Ho.
  - rewrite toasts_app, He. unfold ofZ, isDue. rewrite Z.mul_1_r.
    assert (T0 : toasts (if logSavings config
                         then [SummaryLogged (r0 :: rs)] else []) = 0)
      by (destruct (logSavings config); reflexivity).
    rewrite T0. destruct (Z.eqb_spec n 0) as [->|Hn0].
    + reflexivity.
    + destruct (Z.ltb_spec 0 n); [|lia]. cbn [andb].
      rewrite next_multiple by lia.
      destruct (_ =? 0); reflexivity.
Qed.

(** The periodic toast.  With an integer cadence [n >= 0], after [k] idle
    events in a row for a session that has records, the session's turn
    count has grown by [k], the counts of the other sessions are as they
    were, and the number of toasts shown is the number of multiples of [n]
    the count has passed: none when [n] is 0. *)
Theorem idle_toasts_every_n (config : RtkConfig)
  (metrics : list MetricRecord) (session : jsstring) (n : Z) (k : nat) :
  session <> [] -> recordsOf metrics session <> [] ->
  showUpdateEvery config = ofZ n -> 0 <= n ->
  forall counts,
    0 <= turnsOf counts session ->
    let r := idleTurns config metrics session k counts in
    turnsOf (fst r) session = turnsOf counts session + Z.of_nat k
    /\ (forall other, other <> session ->
          mapGet (fst r) other = mapGet counts other)
    /\ toasts (snd r)
       = (if n =? 0 then 0
          else (turnsOf counts session + Z.of_nat k) / n
               - turnsOf counts session / n).
Proof.
  intros Hs Hr He Hn. induction k as [|k IH]; intros counts Hc.
  - cbn [idleTurns fst snd]. rewrite Z.add_0_r, Z.sub_diag.
    split; [reflexivity|]. split; [reflexivity|].
    destruct (n =? 0); reflexivity.
  - cbn zeta. cbn [idleTurns].
    pose proof (@onEvent_idle config metrics session counts n Hs Hr He Hn Hc)
      as (H1 & H2 & H3).
    destruct (onEvent config metrics (u "session.idle") (Some session) None
                counts) as [counts1 sent1].
    cbn [fst snd] in H1, H2, H3.
    assert (Hc1 : 0 <= turnsOf counts1 session) by lia.
    pose proof (IH counts1 Hc1) as (I1 & I2 & I3).
    destruct (idleTurns config metrics session k counts1)
      as [counts2 sent2].
    cbn [fst snd] in *. split; [lia|]. split.
    + intros other Ho. rewrite I2, H2 by exact Ho. reflexivity.
    + rewrite toasts_app, H3, I3, H1.
      destruct (n =? 0); [reflexivity|].
      replace (turnsOf counts session + 1 + Z.of_nat k)
        with (turnsOf counts session + Z.of_nat (S k)) by lia.
      lia.
Qed.

Lemma idle_toasts_every_n_witness :
  let metrics := [Metric (u "T") (u "ses_a") (u "bash") (u "ansi-stripping")
                    10 5 50%float] in
  let config := mergeConfig DEFAULT_CONFIG
                  (MkOverride None (Some false) (JsNum (ofZ 2)) None) in
  let r := idleTurns config metrics (u "ses_a") 5 [] in
  turnsOf (fst r) (u "ses_a") = 5 /\ toasts (snd r) = 2.
Proof.
  intros metrics config r.
  assert (Hs : u "ses_a" <> []) by discriminate.
  assert (Hr : recordsOf metrics (u "ses_a") <> []) by discriminate.
  assert (He : showUpdateEvery config = ofZ 2) by reflexivity.
  assert (Hn : 0 <= 2) by lia.
  assert (Hc : 0 <= turnsOf [] (u "ses_a")) by (cbn; lia).
  pose proof (@idle_toasts_every_n config metrics (u "ses_a") 2 5
                Hs Hr He Hn [] Hc) as (H1 & _ & H3).
  split; [exact H1 | exact H3].
Defined.

End IdleFacts.

(** ** plugin.ts: what an invocation reaches and records *)

Section HookFacts.
Import Config Metrics Plugin.

Lemma usesOnly_ret (A : Type) (allowed : Stage -> bool) (a : A) :
  usesOnly allowed (ret a).
Proof. intros calls0. exists []. cbn. rewrite app_nil_r. auto. Qed.

Lemma usesOnly_call (A : Type) (allowed : Stage -> bool) (s : Stage)
  (r : Exc A) :
  allowed s = true -> usesOnly allowed (call s r).
Proof.
  intros H calls0. exists [MkCall s (isThrow r)]. cbn. rewrite H. auto.
Qed.

Lemma usesOnly_bind (A B : Type) (allowed : Stage -> bool) (m : M A)
  (k : A -> M B) :
  usesOnly allowed m -> (forall a, usesOnly allowed (k a)) ->
  usesOnly allowed (bind m k).
Proof.
  intros Hm Hk calls0. unfold bind.
  destruct (Hm calls0) as (ext & Hs & Hf).
  destruct (m calls0) as [[a|e] calls1]; cbn in Hs; subst calls1.
  - destruct (Hk a (calls0 ++ ext)) as (ext' & Hs' & Hf').
    exists (ext ++ ext'). rewrite Hs', app_assoc, forallb_app, Hf, Hf'. auto.
  - exists ext. auto.
Qed.

Lemma usesOnly_commandStage allowed s name enabled filter st :
  allowed s = true ->
  usesOnly allowed (commandStage s name enabled filter st).
Proof.
  intros H. unfold commandStage. destruct enabled; [|apply usesOnly_ret].
  apply usesOnly_bind; [apply usesOnly_call, H | intros a; apply usesOnly_ret].
Qed.

Lemma usesOnly_sourceStage allowed s name filter st :
  allowed s = true -> usesOnly allowed (sourceStage s name filter st).
Proof.
  intros H. unfold sourceStage.
  apply usesOnly_bind; [apply usesOnly_call, H | intros a; apply usesOnly_ret].
Qed.

Lemma usesOnly_runFilters allowed fs config input original :
  allowed AnsiStage = true -> allowed TruncateStage = true ->
  (str_eqb (toolName input) (u "bash") = true ->
   forall s, commandFilterStage s = true -> allowed s = true) ->
  (str_eqb (toolName input) (u "read") = true ->
   forall s, sourceFilterStage s = true -> allowed s = true) ->
  usesOnly allowed (runFilters fs config input original).
Proof.
  intros Ha Ht Hb Hr. unfold runFilters.
  apply usesOnly_bind; [|intros st1].
  { unfold phase1. destruct (ansiStripping _); [|apply usesOnly_ret].
    apply usesOnly_sourceStage, Ha. }
  apply usesOnly_bind; [|intros st2].
  { unfold phase2. destruct (nonEmpty _); [|apply usesOnly_ret].
    destruct (str_eqb (toolName input) (u "bash")); [|apply usesOnly_ret].
    specialize (Hb eq_refl).
    repeat (apply usesOnly_bind;
            [apply usesOnly_commandStage, Hb; reflexivity | intros ?]).
    apply usesOnly_commandStage, Hb. reflexivity. }
  apply usesOnly_bind; [|intros st3].
  { unfold phase3. destruct (nonEmpty _); [|apply usesOnly_ret].
    destruct (str_eqb (toolName input) (u "read")); [|apply usesOnly_ret].
    specialize (Hr eq_refl).
    apply usesOnly_bind;
      [apply usesOnly_call, Hr; reflexivity | intros language].
    destruct (_ && _); [|apply usesOnly_ret].
    apply usesOnly_bind; [|intros st].
    - destruct (isLevel _ minimal);
        [apply usesOnly_sourceStage, Hr; reflexivity|].
      destruct (isLevel _ aggressive);
        [apply usesOnly_sourceStage, Hr; reflexivity | apply usesOnly_ret].
    - destruct (st_enabled _); [|apply usesOnly_ret].
      destruct (_ <? _)%Z; [|apply usesOnly_ret].
      apply usesOnly_bind;
        [apply usesOnly_call, Hr; reflexivity | intros r; apply usesOnly_ret]. }
  unfold hardTruncation. destruct (_ && _); [|apply usesOnly_ret].
  apply usesOnly_bind;
    [apply usesOnly_call, Ht | intros r; apply usesOnly_ret].
Qed.

Lemma hook_usesOnly allowed fs host config now input w :
  allowed AnsiStage = true -> allowed TruncateStage = true ->
  (str_eqb (toolName input) (u "bash") = true ->
   forall s, commandFilterStage s = true -> allowed s = true) ->
  (str_eqb (toolName input) (u "read") = true ->
   forall s, sourceFilterStage s = true -> allowed s = true) ->
  exists ext,
    calls (toolExecuteAfter fs host config now input w) = calls w ++ ext
    /\ forallb (fun c => allowed (stage c)) ext = true.
Proof.
  intros Ha Ht Hb Hr.
  destruct (toolExecuteAfter_calls fs host config now input w)
    as [E|(original & _ & E)]; rewrite E.
  - exists []. rewrite app_nil_r. auto.
  - apply usesOnly_runFilters; assumption.
Qed.

(** Which filters a tool's output can reach.  The output of a tool other
    than [bash] and [read] is only ever passed to the ANSI and truncation
    stages; the output of [bash] never reaches the source filters; the
    output of [read] never reaches the command filters (build, test,
    linter, git, search).  This holds whatever the filters do. *)
Theorem tool_reaches_only (fs : Filters) (host : Host) (config : RtkConfig)
  (now : jsstring) (input : Input) (w : World) :
  exists ext,
    calls (toolExecuteAfter fs host config now input w) = calls w ++ ext
    /\ (str_eqb (toolName input) (u "bash") = false ->
        str_eqb (toolName input) (u "read") = false ->
        forallb (fun c => commonStage (stage c)) ext = true)
    /\ (str_eqb (toolName input) (u "bash") = true ->
        forallb (fun c => negb (sourceFilterStage (stage c))) ext = true)
    /\ (str_eqb (toolName input) (u "read") = true ->
        forallb (fun c => negb (commandFilterStage (stage c))) ext = true).
Proof.
  destruct (@hook_usesOnly (fun _ => true) fs host config now input w)
    as (ext & E & _); try reflexivity; try (intros; reflexivity).
  exists ext. split; [exact E|].
  assert (Hsame : forall allowed ext',
             calls (toolExecuteAfter fs host config now input w)
             = calls w ++ ext' ->
             forallb (fun c => allowed (stage c)) ext' = true ->
             forallb (fun c : Call => allowed (stage c)) ext = true).
  { intros allowed ext' E' H. rewrite E in E'. apply app_inv_head in E'.
    subst ext'. exact H. }
  split; [|split].
  - intros Hb Hr.
    destruct (@hook_usesOnly commonStage fs host config now input w)
      as (ext' & E' & H); try reflexivity; try (intros Hx; congruence).
    exact (Hsame commonStage _ E' H).
  - intros Hb.
    assert (Hr : str_eqb (toolName input) (u "read") = false).
    { apply str_eqb_eq in Hb. rewrite Hb. reflexivity. }
    destruct (@hook_usesOnly (fun s => negb (sourceFilterStage s)) fs host
                config now input w) as (ext' & E' & H);
      try reflexivity; try (intros Hx; congruence).
    + intros _ s Hs. destruct s; try discriminate Hs; reflexivity.
    + exact (Hsame (fun s => negb (sourceFilterStage s)) _ E' H).
  - intros Hr.
    assert (Hb : str_eqb (toolName input) (u "bash") = false).
    { apply str_eqb_eq in Hr. rewrite Hr. reflexivity. }
    destruct (@hook_usesOnly (fun s => negb (commandFilterStage s)) fs host
                config now input w) as (ext' & E' & H);
      try reflexivity; try (intros Hx; congruence).
    + intros _ s Hs. destruct s; try discriminate Hs; reflexivity.
    + exact (Hsame (fun s => negb (commandFilterStage s)) _ E' H).
Qed.

Lemma tool_reaches_only_witness :
  exists ext,
    calls (toolExecuteAfter embeddedFilters reliableHost shortBudget (u "T")
             (MkInput (u "webfetch") (Some (u "make all")) None
                (Some (u "ses_a")) None) before)
    = calls before ++ ext
    /\ forallb (fun c => commonStage (stage c)) ext = true.
Proof.
  destruct (tool_reaches_only embeddedFilters reliableHost shortBudget (u "T")
              (MkInput (u "webfetch") (Some (u "make all")) None
                 (Some (u "ses_a")) None) before) as (ext & E & H & _).
  exists ext. split; [exact E | apply H; reflexivity].
Defined.

End HookFacts.

Section RecordFacts.
Import Config Metrics Plugin.

Lemma yields_ret (A : Type) (Q : A -> Prop) (a : A) : Q a -> yields Q (ret a).
Proof. intros H calls0. exact H. Qed.

Lemma yields_bind (A B : Type) (Q : A -> Prop) (R : B -> Prop) (m : M A)
  (k : A -> M B) :
  yields Q m -> (forall a, Q a -> yields R (k a)) -> yields R (bind m k).
Proof.
  intros Hm Hk calls0. unfold bind. specialize (Hm calls0).
  destruct (m calls0) as [[a|e] calls1]; cbn [fst] in *; [|exact I].
  apply Hk, Hm.
Qed.









(** A host that cannot write the metrics file: the output is replaced and
    the session keeps its record, the file gets nothing, and the rejection
    is logged. *)
Example hook_when_the_write_fails :
  let w' := toolExecuteAfter embeddedFilters readOnlyHost shortBudget
              (u "T") makeInput before in
  output w' = Some (Truncate.truncate (Build.success 0) 10)
  /\ List.length (sessionMetrics w') = 1
  /\ metricsFile w' = []
  /\ logged w' = [FilterWarning (u "bash") (u "EACCES: permission denied")].
Proof.
  vm_compute. repeat split.
Qed.

End RecordFacts.

(** ** techniques/source.ts: language detection *)

Section SourceFacts.
Import Source.

Local Open Scope Z_scope.

Example detectLanguage_cases :
  detectLanguage (u "/path/to/file.tsx") = u "typescript"
  /\ detectLanguage (u "script.py") = u "python"
  /\ detectLanguage (u "main.rs") = u "rust"
  /\ detectLanguage (u "file.txt") = u "unknown"
  /\ detectLanguage (u "Makefile") = u "unknown".
Proof. repeat split; reflexivity. Qed.

Lemma lastIndexFrom_absent (c : N) (s : jsstring) :
  ~ In c s -> forall i found, lastIndexFrom c s i found = found.
Proof.
  induction s as [|d s IH]; intros H i found; [reflexivity|].
  cbn [lastIndexFrom]. destruct (N.eqb_spec d c) as [->|_].
  - exfalso. apply H. left. reflexivity.
  - apply IH. intros Hin. apply H. right. exact Hin.
Qed.

Lemma lastIndexFrom_last (c : N) (a s : jsstring) :
  ~ In c s ->
  forall i found,
    lastIndexFrom c (a ++ c :: s) i found = i + Z.of_nat (List.length a).
Proof.
  intros H. induction a as [|d a IH]; intros i found.
  - cbn [app lastIndexFrom List.length]. rewrite N.eqb_refl.
    rewrite lastIndexFrom_absent by exact H. cbn. lia.
  - cbn [app lastIndexFrom]. rewrite IH. cbn [List.length]. lia.
Qed.

Lemma sliceFrom_suffix (a s : jsstring) :
  sliceFrom (a ++ s) (Z.of_nat (List.length a)) = s.
Proof.
  unfold sliceFrom, slice, clampIndex. rewrite length_app.
  destruct (Z.ltb_spec (Z.of_nat (List.length a)) 0); [lia|].
  destruct (Z.ltb_spec (Z.of_nat (List.length a + List.length s)) 0); [lia|].
  rewrite !Z.min_l by lia.
  rewrite Nat2Z.id, skipn_app, skipn_all, Nat.sub_diag. cbn [skipn app].
  replace (Z.to_nat (Z.of_nat (List.length a + List.length s)
                     - Z.of_nat (List.length a)))
    with (List.length s) by lia.
  apply firstn_all.
Qed.

Lemma lookup_dotted (table : list (jsstring * jsstring)) (key : jsstring) :
  Forall (fun entry => exists rest, fst entry = 46%N :: rest) table ->
  (forall rest, key <> 46%N :: rest) -> lookup table key = None.
Proof.
  intros Ht Hk. induction Ht as [|[k v] table (rest & Hd) _ IH];
    [reflexivity|].
  cbn [lookup]. destruct (str_eqb k key) eqn:E; [|exact IH].
  apply str_eqb_eq in E. cbn [fst] in Hd. exfalso.
  apply (Hk rest). congruence.
Qed.

(** Every key of the table begins with a dot. *)
Lemma languageOf_needs_dot (ext : jsstring) :
  (forall rest, ext <> 46%N :: rest) -> languageOf ext = u "unknown".
Proof.
  intros H. unfold languageOf. rewrite lookup_dotted; [reflexivity | | exact H].
  unfold LANGUAGE_EXTENSIONS.
  repeat (constructor; [eexists; reflexivity|]). constructor.
Qed.

Lemma lowerUnit_no_dot (c : N) : c <> 46%N -> ~ In 46%N (lowerUnit c).
Proof.
  intros Hc. unfold lowerUnit, isUpper.
  destruct (N.leb_spec 65 c), (N.leb_spec c 90); cbn [andb];
    try (intros [E|[]]; lia);
    destruct (c =? 304)%N; try (cbn; intuition discriminate);
    destruct (c =? 8490)%N; try (cbn; intuition discriminate);
    destruct (c =? 8491)%N; try (cbn; intuition discriminate);
    intros [E|[]]; congruence.
Qed.

Lemma toLowerCase_no_dot (s : jsstring) :
  ~ In 46%N s -> ~ In 46%N (toLowerCase s).
Proof.
  induction s as [|c s IH]; intros H; [exact H|].
  unfold toLowerCase. cbn [flat_map]. intros Hin.
  apply in_app_or in Hin. destruct Hin as [Hin|Hin].
  - apply (@lowerUnit_no_dot c); [|exact Hin].
    intros ->. apply H. left. reflexivity.
  - apply IH; [|exact Hin]. intros Hs. apply H. right. exact Hs.
Qed.

(** The language is read off the text after the last dot of the path,
    letter case ignored; directories and earlier dots play no part.  A
    path without any dot is of unknown language. *)
Theorem detectLanguage_by_extension (base ext : jsstring) :
  ~ In 46%N ext ->
  detectLanguage (base ++ 46%N :: ext) = languageOf (46%N :: toLowerCase ext)
  /\ detectLanguage ext = u "unknown".
Proof.
  intros H. split.
  - unfold detectLanguage, lastIndexOf.
    rewrite lastIndexFrom_last by exact H. rewrite Z.add_0_l.
    rewrite sliceFrom_suffix. reflexivity.
  - unfold detectLanguage, lastIndexOf.
    rewrite lastIndexFrom_absent by exact H.
    apply languageOf_needs_dot. intros rest E.
    assert (Hin : In 46%N (toLowerCase (sliceFrom ext (-1))))
      by (rewrite E; left; reflexivity).
    revert Hin. apply toLowerCase_no_dot. intros Hin.
    apply H. unfold sliceFrom in Hin. apply (slice_incl _ _ _ _ Hin).
Qed.

Lemma detectLanguage_by_extension_witness :
  detectLanguage (u "src/v1.2/Main" ++ 46%N :: u "TSX") = u "typescript"
  /\ detectLanguage (u "TSX") = u "unknown".
Proof.
  destruct (@detectLanguage_by_extension (u "src/v1.2/Main") (u "TSX"))
    as [H1 H2].
  - cbn. intuition discriminate.
  - split; [rewrite H1; reflexivity | exact H2].
Defined.

End SourceFacts.

Section BudgetFacts.
Import Config Metrics Plugin.

Local Open Scope Z_scope.

Lemma yields_any (A : Type) (m : M A) : yields (fun _ => True) m.
Proof. intros calls0. destruct (fst (m calls0)); exact I. Qed.

Lemma yields_budgeted fs config input original :
  t_enabled (truncation (techniques config)) = true ->
  yields (budgeted fs (maxChars (truncation (techniques config))))
    (runFilters fs config input original).
Proof.
  intros He. unfold runFilters.
  eapply yields_bind; [apply yields_any|]. intros st1 _.
  eapply yields_bind; [apply yields_any|]. intros st2 _.
  eapply yields_bind; [apply yields_any|]. intros st3 _.
  unfold hardTruncation. rewrite He. cbn [andb].
  destruct (Z.ltb_spec (maxChars (truncation (techniques config)))
              (Z.of_nat (List.length (fst st3)))) as [Hlt|Hle].
  - intros calls0. unfold bind, call.
    destruct (truncate fs (fst st3) _) as [r|e] eqn:Et; cbn [fst]; [|exact I].
    right. exists (fst st3). split; [exact Hlt | exact Et].
  - apply yields_ret. left. exact Hle.
Qed.

(** With hard truncation enabled and a budget of at least 3 characters,
    whenever the hook rewrites the output, the new text is within the
    budget or is a truncation: the first [maxChars - 3] characters of the
    text the last stage received, followed by the omission marker, at most
    [maxChars + 29] characters and the digits of the omitted count. *)
Theorem hook_respects_budget (fs : Filters) (host : Host) (config : RtkConfig)
  (now : jsstring) (input : Input) (w : World) :
  truncate fs = (fun t n => Ok (Truncate.truncate t n)) ->
  t_enabled (truncation (techniques config)) = true ->
  3 <= maxChars (truncation (techniques config)) ->
  let n := maxChars (truncation (techniques config)) in
  let w' := toolExecuteAfter fs host config now input w in
  output w' = output w
  \/ exists result,
       output w' = Some result
       /\ (Z.of_nat (List.length result) <= n
           \/ exists text,
                n < Z.of_nat (List.length text)
                /\ result
                   = firstn (Z.to_nat (n - 3)) text
                     ++ LF :: u "... [truncated: "
                     ++ numToString (Z.of_nat (List.length text) - (n - 3))
                     ++ u " chars omitted]"
                /\ Z.of_nat (List.length result)
                   <= n + 29
                      + Z.of_nat
                          (List.length
                             (numToString
                                (Z.of_nat (List.length text) - (n - 3))))).
Proof.
  intros Ht He H3. cbn zeta. unfold toolExecuteAfter.
  destruct (nonEmpty (output w)) as [original|]; [|left; reflexivity].
  pose proof (@yields_budgeted fs config input original He (calls w)) as Hy.
  destruct (runFilters fs config input original (calls w))
    as [[[result technique]|message] calls']; cbn [fst] in Hy;
    [|left; reflexivity].
  destruct (negb _); [|left; reflexivity].
  destruct (resolveSessionID input); [|left; reflexivity].
  right. exists result. split.
  { match goal with
    | |- context [recordAndLog ?h ?c ?n ?o ?f ?tl ?tq ?s ?w0] =>
        pose proof (recordAndLog_output h c n o f tl tq s w0) as Hout;
        destruct (recordAndLog h c n o f tl tq s w0) as [[[]|msg] w2]
    end; cbn [snd] in Hout; cbn [warn output]; exact Hout. }
  destruct Hy as [Hle|(text & Hlt & Et)]; [left; exact Hle|].
  right. exists text. rewrite Ht in Et. injection Et as Et.
  rewrite truncate_marker in Et by assumption.
  split; [exact Hlt|]. split; [symmetry; exact Et|].
  rewrite <- Et. rewrite length_app. cbn [List.length].
  rewrite !length_app.
  change (List.length (u "... [truncated: ")) with 16%nat.
  change (List.length (u " chars omitted]")) with 15%nat.
  pose proof (firstn_le_length
                (Z.to_nat (maxChars (truncation (techniques config)) - 3))
                text).
  unfold jsstring in *. lia.
Qed.

Lemma hook_respects_budget_witness :
  let w' := toolExecuteAfter embeddedFilters reliableHost shortBudget
              (u "T") makeInput before in
  output w' = output before
  \/ exists result,
       output w' = Some result
       /\ (Z.of_nat (List.length result) <= 10
           \/ exists text,
                10 < Z.of_nat (List.length text)
                /\ result
                   = firstn (Z.to_nat (10 - 3)) text
                     ++ LF :: u "... [truncated: "
                     ++ numToString (Z.of_nat (List.length text) - (10 - 3))
                     ++ u " chars omitted]"
                /\ Z.of_nat (List.length result)
                   <= 10 + 29
                      + Z.of_nat
                          (List.length
                             (numToString
                                (Z.of_nat (List.length text) - (10 - 3))))).
Proof.
  apply (@hook_respects_budget embeddedFilters reliableHost shortBudget
           (u "T") makeInput before); [reflexivity | reflexivity | cbn; lia].
Defined.

End BudgetFacts.
